(** * Crypto trading signal dashboard: classifier and signal lifecycle

    A shallow embedding of the signal logic of the dashboard:
    - [CryptoApi]: the market-data service ([fetchWithRetry],
      [getTopCryptocurrencies], [getFallbackData]) and the classifier
      [generateTechnicalSignal] (src/services/cryptoApi.ts);
    - [LiveSignalFeed]: the retick pass [updateSignalPerformance] and the
      minting step [generateNewSignals] of the live feed component;
    - [Dashboard]: the dashboard's own minting step [generateSignals].

    JavaScript numbers are IEEE 754 binary64 values.  The finite ones are
    rationals, and a number is modelled as a rational ([Q]): comparisons
    are the mathematical ones, and every sum, difference, product and
    quotient the code computes is rounded to 53 significant bits, to the
    nearest value and to an even significand on a tie ([Js.round]).  The
    exponent range is not modelled: NaN, the infinities and the gradual
    underflow below 2^-1022 are not represented, so the model and the code
    agree as long as no result leaves the range of the normal doubles and
    no division is by zero.  Strings hold ASCII characters.  The
    environment (wall clock, [Math.random], the network and the document
    store) is an explicit oracle indexed by the number of interactions
    made so far. *)

From Stdlib Require Import QArith Qround Qabs Qpower ZArith Lia Lqa Bool.
From Stdlib Require Import Floats.
From Stdlib Require Import String Ascii List DecimalString Decimal.
From Stdlib Require Import Morphisms Setoid Sorted Permutation.
Import ListNotations.

Open Scope Q_scope.

(** ** JavaScript values *)

(** The arithmetic of the source is written as in the source: inside
    [( ... )%js] the four operators are the rounded ones. *)
Declare Scope js_scope.
Delimit Scope js_scope with js.

Module Js.

(** *** Arithmetic

    [round x] is the binary64 value nearest to [x]: the significand of [x]
    at its own binade, a number between 2^52 and 2^53, is rounded to the
    nearest integer, and to the even one when [x] is halfway. *)

Definition exp2 (e : Z) : Q := 2 ^ e.

(** The binade of a positive number: the [e] with [2^e <= x < 2^(e+1)]. *)
Definition ilog2 (x : Q) : Z :=
  let e := (Z.log2 (Qnum x) - Z.log2 (Zpos (Qden x)))%Z in
  if Qle_bool (exp2 e) x then e else (e - 1)%Z.

Definition nearestEven (y : Q) : Z :=
  let f := Qfloor y in
  match Qcompare (y - inject_Z f) (1 # 2) with
  | Lt => f
  | Gt => (f + 1)%Z
  | Eq => if Z.even f then f else (f + 1)%Z
  end.

(** The unit in the last place of a positive number. *)
Definition ulp (x : Q) : Q := exp2 (ilog2 x - 52).

Definition roundPositive (x : Q) : Q :=
  inject_Z (nearestEven (x / ulp x)) * ulp x.

Definition round (x : Q) : Q :=
  match Qcompare x 0 with
  | Eq => 0
  | Gt => Qred (roundPositive x)
  | Lt => Qred (- roundPositive (- x))
  end.

(** A numeric literal of the source denotes the double nearest to it. *)
Definition num (literal : Q) : Q := round literal.

(** [x + y], [x - y], [x * y] and [x / y]; a quotient is meaningful for a
    divisor that is not zero. *)
Definition add (x y : Q) : Q := round (x + y).
Definition sub (x y : Q) : Q := round (x - y).
Definition mul (x y : Q) : Q := round (x * y).
Definition div (x y : Q) : Q := round (x / y).

Arguments round x : simpl never.
Arguments num literal : simpl never.
Arguments add (x y)%_js : simpl never.
Arguments sub (x y)%_js : simpl never.
Arguments mul (x y)%_js : simpl never.
Arguments div (x y)%_js : simpl never.

(** Relational operators on numbers, as booleans. *)
Definition gtb (x y : Q) : bool := negb (Qle_bool x y).
Definition ltb (x y : Q) : bool := negb (Qle_bool y x).
Definition geb (x y : Q) : bool := Qle_bool y x.
Definition leb (x y : Q) : bool := Qle_bool x y.

(** Truthiness of an optional number ([number | undefined]) as tested by
    [x && ...]: [undefined] and [0] are falsy. *)
Definition truthy (x : option Q) : bool :=
  match x with
  | None => false
  | Some q => negb (Qeq_bool q 0)
  end.

(** Decimal rendering of a natural number. *)
Definition natToString (n : N) : string :=
  NilZero.string_of_uint (N.to_uint n).

(** Decimal rendering of an integer (template-literal interpolation). *)
Definition intToString (z : Z) : string :=
  match z with
  | Zneg p => String "-" (natToString (Npos p))
  | _ => natToString (Z.to_N z)
  end.

(** [x.toFixed(2)]: the sign, then the integer [n] nearest to [|x| * 100]
    (the larger one on a tie) printed with two fractional digits.  Values
    from 1e21 on, which print in exponent form, are not treated apart. *)
Definition toFixed2 (x : Q) : string :=
  let neg := ltb x 0 in
  let n := Z.to_N (Qfloor (Qabs x * 100 + (1 # 2))) in
  let whole := N.div n 100 in
  let frac := N.modulo n 100 in
  ((if neg then "-" else "") ++ natToString whole ++ "." ++
   (if N.ltb frac 10 then "0" else "") ++ natToString frac)%string.

(** [s.toLowerCase()] on the ASCII letters. *)
Definition lowerAscii (c : ascii) : ascii :=
  let n := nat_of_ascii c in
  if Nat.leb 65 n && Nat.leb n 90 then ascii_of_nat (n + 32) else c.

Fixpoint toLowerCase (s : string) : string :=
  match s with
  | EmptyString => EmptyString
  | String c rest => String (lowerAscii c) (toLowerCase rest)
  end.

(** [Math.pow(2, i)] on a natural exponent. *)
Definition pow2 (i : nat) : N := N.pow 2 (N.of_nat i).

(** [s.toUpperCase()] on the ASCII letters. *)
Definition upperAscii (c : ascii) : ascii :=
  let n := nat_of_ascii c in
  if Nat.leb 97 n && Nat.leb n 122 then ascii_of_nat (n - 32) else c.

Fixpoint toUpperCase (s : string) : string :=
  match s with
  | EmptyString => EmptyString
  | String c rest => String (upperAscii c) (toUpperCase rest)
  end.

(** [s.includes(sub)]: [sub] occurs in [s] at some position. *)
Fixpoint includes (s sub : string) : bool :=
  String.prefix sub s ||
  match s with
  | EmptyString => false
  | String _ rest => includes rest sub
  end.

(** White space as [trim] sees it, among the ASCII characters: space, tab,
    line feed, vertical tab, form feed and carriage return. *)
Definition isWhiteSpace (c : ascii) : bool :=
  let n := nat_of_ascii c in
  Nat.eqb n 32 || (Nat.leb 9 n && Nat.leb n 13).

Fixpoint trimStart (s : string) : string :=
  match s with
  | EmptyString => EmptyString
  | String c rest => if isWhiteSpace c then trimStart rest else s
  end.

Fixpoint trimEnd (s : string) : string :=
  match s with
  | EmptyString => EmptyString
  | String c rest =>
      match trimEnd rest with
      | EmptyString => if isWhiteSpace c then EmptyString else String c EmptyString
      | kept => String c kept
      end
  end.

Definition trim (s : string) : string := trimEnd (trimStart s).

(** Truthiness of a string: only the empty string is falsy. *)
Definition truthyString (s : string) : bool :=
  match s with EmptyString => false | _ => true end.

(** [array.sort(compareFn)]: the sort is stable, and [a] goes before [b]
    when [compareFn(a, b)] is negative. *)
Fixpoint insertSorted {A} (compareFn : A -> A -> Q) (x : A) (l : list A) : list A :=
  match l with
  | [] => [x]
  | y :: l' =>
      if leb (compareFn x y) 0 then x :: y :: l'
      else y :: insertSorted compareFn x l'
  end.

Definition sort {A} (compareFn : A -> A -> Q) (l : list A) : list A :=
  fold_right (insertSorted compareFn) [] l.

End Js.

Notation "x + y" := (Js.add x y) : js_scope.
Notation "x - y" := (Js.sub x y) : js_scope.
Notation "x * y" := (Js.mul x y) : js_scope.
Notation "x / y" := (Js.div x y) : js_scope.

(** ** Binary64 values of the kernel, as rationals

    Used only to check the rounding above against the kernel's own
    floating-point arithmetic on sample values. *)

Module Binary64.

Definition toQ (f : float) : Q :=
  match Prim2SF f with
  | S754_finite sign m e =>
      Qred ((if sign then -1 else 1) * inject_Z (Zpos m) * Js.exp2 e)
  | _ => 0
  end.

Arguments toQ f%_float.

End Binary64.

(** ** The environment

    Every interaction with the outside world (a clock reading, a random
    draw, a network call, a store write) consumes one tick; the oracle says
    what the world answers at that tick. *)

(** What [fetch] followed by [response.json()] can produce. *)
Inductive FetchOutcome (A : Type) : Type :=
| NetworkError                       (* fetch itself rejects *)
| HttpResponse (ok : bool) (status : nat) (json : option A).
                                     (* json = None: the body does not parse *)
Arguments NetworkError {A}.
Arguments HttpResponse {A} ok status json.

Record Env (A : Type) : Type := mkEnv {
  clock   : nat -> string;           (* new Date().toISOString() *)
  dateNow : nat -> Z;                (* Date.now() *)
  random  : nat -> Q;                (* Math.random() *)
  idSuffix : Q -> string;            (* r.toString(36).substr(2, 9) *)
  dbOk    : nat -> bool;             (* does the store call resolve? *)
  fetch   : nat -> string -> FetchOutcome A
}.
Arguments clock {A}. Arguments dateNow {A}. Arguments random {A}.
Arguments idSuffix {A}. Arguments dbOk {A}. Arguments fetch {A}.

(** What a run leaves behind, in order: network calls, timer waits, console
    output, notifications (their data; the wording is left out) and store
    writes. *)
Inductive ToastKind : Type :=
| TargetHit (symbol : string) (performance : Q)
| StopLossHit (symbol : string) (performance : Q)
| Movement (up : bool) (symbol : string) (performance : Q)
| GeneratedSignals (count : nat)
| GenerationFailed.

Inductive Event : Type :=
| Fetch (url : string)
| Sleep (ms : N)
| ConsoleError (what : string)
| ConsoleWarn (what : string)
| Toast (kind : ToastKind)
| DbUpdate (table id : string) (currentPrice performancePercentage : Q)
           (isActive : bool) (updatedAt : string)
| DbSignalUpdatesCreate (signalId : string) (priceAtUpdate performanceChange : Q)
                        (updateType : string)
| DbCreate (table id : string).

(** The effect state threaded through a run: the next tick and the trace. *)
Record Eff : Type := mkEff {
  tick : nat;
  events : list Event
}.

Definition emit (e : Event) (st : Eff) : Eff :=
  mkEff (tick st) (events st ++ [e]).

Definition advance (n : nat) (st : Eff) : Eff :=
  mkEff (tick st + n) (events st).

(** How an async function settles. *)
Inductive Completion (A : Type) : Type :=
| Returned (v : A)
| Undefined
| Thrown.
Arguments Returned {A} v.
Arguments Undefined {A}.
Arguments Thrown {A}.

(** ** src/services/cryptoApi.ts *)

Module CryptoApi.

Definition COINGECKO_API_BASE : string := "https://api.coingecko.com/api/v3".

Record CoinGeckoMarket : Type := mkMarket {
  id : string;
  symbol : string;
  name : string;
  image : string;
  current_price : Q;
  market_cap : Q;
  market_cap_rank : Q;
  fully_diluted_valuation : option Q;
  total_volume : Q;
  high_24h : Q;
  low_24h : Q;
  price_change_24h : Q;
  price_change_percentage_24h : Q;
  market_cap_change_24h : Q;
  market_cap_change_percentage_24h : Q;
  circulating_supply : Q;
  total_supply : option Q;
  max_supply : option Q;
  ath : Q;
  ath_change_percentage : Q;
  ath_date : string;
  atl : Q;
  atl_change_percentage : Q;
  atl_date : string;
  roi : option unit;
  last_updated : string
}.

Inductive SignalType : Type := BUY | SELL | HOLD.
Inductive Strength : Type := STRONG | MODERATE | WEAK.

Record TechnicalSignal : Type := mkTechnicalSignal {
  signal : SignalType;
  strength : Strength;
  confidence : Z;
  reasoning : string
}.

Definition generateTechnicalSignal (crypto : CoinGeckoMarket) : TechnicalSignal :=
  let priceChange := price_change_percentage_24h crypto in
  let volume := total_volume crypto in
  let marketCap := market_cap crypto in
  if Js.gtb priceChange 5 && Js.gtb volume (marketCap * Js.num 0.1)%js then
    mkTechnicalSignal BUY STRONG 85
      ("Strong bullish momentum with " ++ Js.toFixed2 priceChange ++
       "% gain and high volume. Technical indicators suggest continued upward movement.")
  else if Js.gtb priceChange 2 then
    mkTechnicalSignal BUY MODERATE 70
      ("Positive price action with " ++ Js.toFixed2 priceChange ++
       "% gain. Moderate bullish sentiment with room for growth.")
  else if Js.ltb priceChange (-5) && Js.gtb volume (marketCap * Js.num 0.1)%js then
    mkTechnicalSignal SELL STRONG 80
      ("Significant bearish pressure with " ++ Js.toFixed2 (Qabs priceChange) ++
       "% decline and high volume. Risk of further downside.")
  else if Js.ltb priceChange (-2) then
    mkTechnicalSignal SELL MODERATE 65
      ("Negative price momentum with " ++ Js.toFixed2 (Qabs priceChange) ++
       "% decline. Caution advised as trend may continue.")
  else
    mkTechnicalSignal HOLD
      (if Js.gtb (Qabs priceChange) 1 then MODERATE else WEAK) 60
      ("Consolidation phase with " ++ Js.toFixed2 priceChange ++
       "% change. Mixed signals suggest waiting for clearer direction.").

(** [fetchWithRetry]: the loop body runs for [i = 0 .. retries - 1];
    [remaining] counts the iterations left.  A failed attempt is a rejected
    fetch, a response that is not [ok], or a body that does not parse. *)
Fixpoint fetchAttempts {A} (env : Env A) (url : string) (retries remaining i : nat)
         (st : Eff) : Completion A * Eff :=
  match remaining with
  | O => (Undefined, st)
  | S k =>
      let st1 := emit (Fetch url) (advance 1 st) in
      match fetch env (tick st) url with
      | HttpResponse true _ (Some body) => (Returned body, st1)
      | _ =>
          let st2 := emit (ConsoleError "API request failed") st1 in
          if Nat.eqb i (retries - 1) then (Thrown, st2)
          else fetchAttempts env url retries k (S i)
                 (emit (Sleep (Js.pow2 i * 1000)) st2)
      end
  end.

Definition fetchWithRetry {A} (env : Env A) (url : string) (retries : nat)
           (st : Eff) : Completion A * Eff :=
  fetchAttempts env url retries retries 0 st.

(** Fallback data when the API is unavailable; every record reads the
    clock once.  The literals with a fractional part denote doubles. *)
Definition getFallbackData {A} (env : Env A) (st : Eff)
  : list CoinGeckoMarket * Eff :=
  let t := tick st in
  (
  [
    {| id := "bitcoin";
       symbol := "btc";
       name := "Bitcoin";
       image := "https://assets.coingecko.com/coins/images/1/large/bitcoin.png";
       current_price := 43250;
       market_cap := 847500000000;
       market_cap_rank := 1;
       fully_diluted_valuation := Some 908250000000;
       total_volume := 18500000000;
       high_24h := 44100;
       low_24h := 42800;
       price_change_24h := 450;
       price_change_percentage_24h := Js.num 1.05;
       market_cap_change_24h := 8850000000;
       market_cap_change_percentage_24h := Js.num 1.05;
       circulating_supply := 19600000;
       total_supply := Some 21000000;
       max_supply := Some 21000000;
       ath := 69045;
       ath_change_percentage := Js.num (-37.4);
       ath_date := "2021-11-10T14:24:11.849Z";
       atl := Js.num 67.81;
       atl_change_percentage := Js.num 63650.8;
       atl_date := "2013-07-06T00:00:00.000Z";
       roi := None;
       last_updated := clock env (t + 0) |};
    {| id := "ethereum";
       symbol := "eth";
       name := "Ethereum";
       image := "https://assets.coingecko.com/coins/images/279/large/ethereum.png";
       current_price := 2650;
       market_cap := 318500000000;
       market_cap_rank := 2;
       fully_diluted_valuation := Some 318500000000;
       total_volume := 12800000000;
       high_24h := 2720;
       low_24h := 2580;
       price_change_24h := Js.num 35.5;
       price_change_percentage_24h := Js.num 1.36;
       market_cap_change_24h := 4270000000;
       market_cap_change_percentage_24h := Js.num 1.36;
       circulating_supply := 120280000;
       total_supply := Some 120280000;
       max_supply := None;
       ath := Js.num 4878.26;
       ath_change_percentage := Js.num (-45.7);
       ath_date := "2021-11-10T14:24:19.604Z";
       atl := Js.num 0.432979;
       atl_change_percentage := Js.num 611850.1;
       atl_date := "2015-10-20T00:00:00.000Z";
       roi := None;
       last_updated := clock env (t + 1) |};
    {| id := "binancecoin";
       symbol := "bnb";
       name := "BNB";
       image := "https://assets.coingecko.com/coins/images/825/large/bnb-icon2_2x.png";
       current_price := Js.num 315.5;
       market_cap := 47200000000;
       market_cap_rank := 3;
       fully_diluted_valuation := Some 47200000000;
       total_volume := 1850000000;
       high_24h := 322;
       low_24h := Js.num 308.5;
       price_change_24h := Js.num 4.2;
       price_change_percentage_24h := Js.num 1.35;
       market_cap_change_24h := 628000000;
       market_cap_change_percentage_24h := Js.num 1.35;
       circulating_supply := 149500000;
       total_supply := Some 149500000;
       max_supply := Some 200000000;
       ath := Js.num 686.31;
       ath_change_percentage := (-54);
       ath_date := "2021-05-10T07:24:17.097Z";
       atl := Js.num 0.0398177;
       atl_change_percentage := Js.num 792150.5;
       atl_date := "2017-10-19T00:00:00.000Z";
       roi := None;
       last_updated := clock env (t + 2) |};
    {| id := "solana";
       symbol := "sol";
       name := "Solana";
       image := "https://assets.coingecko.com/coins/images/4128/large/solana.png";
       current_price := Js.num 98.5;
       market_cap := 44800000000;
       market_cap_rank := 4;
       fully_diluted_valuation := Some 56200000000;
       total_volume := 2150000000;
       high_24h := Js.num 102.5;
       low_24h := Js.num 95.2;
       price_change_24h := Js.num 2.8;
       price_change_percentage_24h := Js.num 2.93;
       market_cap_change_24h := 1270000000;
       market_cap_change_percentage_24h := Js.num 2.93;
       circulating_supply := 454800000;
       total_supply := Some 570500000;
       max_supply := None;
       ath := Js.num 259.96;
       ath_change_percentage := Js.num (-62.1);
       ath_date := "2021-11-06T21:54:35.825Z";
       atl := Js.num 0.500801;
       atl_change_percentage := Js.num 19560.8;
       atl_date := "2020-05-11T19:35:23.449Z";
       roi := None;
       last_updated := clock env (t + 3) |};
    {| id := "cardano";
       symbol := "ada";
       name := "Cardano";
       image := "https://assets.coingecko.com/coins/images/975/large/cardano.png";
       current_price := Js.num 0.485;
       market_cap := 17200000000;
       market_cap_rank := 5;
       fully_diluted_valuation := Some 21800000000;
       total_volume := 485000000;
       high_24h := Js.num 0.495;
       low_24h := Js.num 0.472;
       price_change_24h := Js.num 0.008;
       price_change_percentage_24h := Js.num 1.68;
       market_cap_change_24h := 284000000;
       market_cap_change_percentage_24h := Js.num 1.68;
       circulating_supply := 35450000000;
       total_supply := Some 45000000000;
       max_supply := Some 45000000000;
       ath := Js.num 3.09;
       ath_change_percentage := Js.num (-84.3);
       ath_date := "2021-09-02T06:00:10.474Z";
       atl := Js.num 0.01925275;
       atl_change_percentage := Js.num 2420.1;
       atl_date := "2020-03-13T02:22:55.391Z";
       roi := None;
       last_updated := clock env (t + 4) |}
  ],
   advance 5 st).

Definition marketsUrl (perPage page : nat) : string :=
  (COINGECKO_API_BASE ++ "/coins/markets?vs_currency=usd&order=market_cap_desc&per_page="
     ++ Js.natToString (N.of_nat perPage) ++ "&page=" ++ Js.natToString (N.of_nat page)
     ++ "&sparkline=false&locale=en")%string.

(** The page loop of the large-limit branch: [page] runs up to [pages];
    [remaining] counts the iterations left. *)
Fixpoint fetchPages (env : Env (list CoinGeckoMarket)) (limit remaining page : nat)
         (results : list CoinGeckoMarket) (st : Eff)
  : Completion (list CoinGeckoMarket) * Eff :=
  match remaining with
  | O => (Returned results, st)
  | S k =>
      match fetchWithRetry env (marketsUrl 250 page) 3 st with
      | (Returned pageResults, st1) =>
          let results1 := (results ++ pageResults)%list in
          if Nat.leb limit (length results1) then (Returned results1, st1)
          else fetchPages env limit k (S page) results1 st1
      | (_, st1) => (Thrown, st1)
      end
  end.

Definition getTopCryptocurrencies (env : Env (list CoinGeckoMarket)) (limit : nat)
           (st : Eff) : Completion (list CoinGeckoMarket) * Eff :=
  let attempt :=
    if Nat.leb limit 250 then
      fetchWithRetry env (marketsUrl limit 1) 3 st
    else
      let pages := Nat.div (limit + 249) 250 in
      match fetchPages env limit pages 1 [] st with
      | (Returned results, st1) => (Returned (firstn limit results), st1)
      | other => other
      end in
  match attempt with
  | (Thrown, st1) =>
      let (data, st2) :=
        getFallbackData env (emit (ConsoleError "Failed to fetch top cryptocurrencies") st1) in
      (Returned data, st2)
  | settled => settled
  end.

(** [getGlobalMarketData], [getCryptocurrencyById] and [getMarketChart]:
    one request each, [null] when it fails for good. *)
Definition getGlobalMarketData {A} (env : Env A) (st : Eff)
  : Completion (option A) * Eff :=
  match fetchWithRetry env (COINGECKO_API_BASE ++ "/global")%string 3 st with
  | (Returned body, st1) => (Returned (Some body), st1)
  | (Undefined, st1) => (Undefined, st1)
  | (Thrown, st1) =>
      (Returned None, emit (ConsoleError "Failed to fetch global market data") st1)
  end.

Definition getCryptocurrencyById {A} (env : Env A) (id : string) (st : Eff)
  : Completion (option A) * Eff :=
  let url := (COINGECKO_API_BASE ++ "/coins/" ++ id
                ++ "?localization=false&tickers=false&market_data=true&community_data=false&developer_data=false&sparkline=false")%string in
  match fetchWithRetry env url 3 st with
  | (Returned body, st1) => (Returned (Some body), st1)
  | (Undefined, st1) => (Undefined, st1)
  | (Thrown, st1) =>
      (Returned None, emit (ConsoleError ("Failed to fetch cryptocurrency " ++ id)) st1)
  end.

Definition getMarketChart {A} (env : Env A) (id : string) (days : nat) (st : Eff)
  : Completion (option A) * Eff :=
  let url := (COINGECKO_API_BASE ++ "/coins/" ++ id ++ "/market_chart?vs_currency=usd&days="
                ++ Js.natToString (N.of_nat days) ++ "&interval=daily")%string in
  match fetchWithRetry env url 3 st with
  | (Returned body, st1) => (Returned (Some body), st1)
  | (Undefined, st1) => (Undefined, st1)
  | (Thrown, st1) =>
      (Returned None, emit (ConsoleError ("Failed to fetch market chart for " ++ id)) st1)
  end.

(** *** Technical analysis helpers *)

(** [prices[i]]; both helpers only read indices inside the array. *)
Definition priceAt (prices : list Q) (i : nat) : Q := nth i prices 0.

(** The loop of [calculateRSI]: [i] runs from 1 to [period];
    [remaining] counts the iterations left. *)
Fixpoint rsiSums (prices : list Q) (remaining i : nat) (gains losses : Q) : Q * Q :=
  match remaining with
  | O => (gains, losses)
  | S k =>
      let change := (priceAt prices i - priceAt prices (i - 1))%js in
      if Js.gtb change 0 then rsiSums prices k (S i) (gains + change)%js losses
      else rsiSums prices k (S i) gains (losses - change)%js
  end.

(** [calculateRSI(prices, period)]; the default period is 14.  With period
    0 JavaScript divides 0 by 0; the properties below take a positive
    period. *)
Definition calculateRSI (prices : list Q) (period : nat) : Q :=
  if Nat.ltb (length prices) (period + 1) then 50
  else
    let (gains, losses) := rsiSums prices period 1 0 0 in
    let avgGain := (gains / inject_Z (Z.of_nat period))%js in
    let avgLoss := (losses / inject_Z (Z.of_nat period))%js in
    if Qeq_bool avgLoss 0 then 100
    else
      let rs := (avgGain / avgLoss)%js in
      (100 - (100 / (1 + rs)))%js.

(** [prices.slice(-period)]: the last [period] entries; [slice(-0)] is the
    whole array. *)
Definition sliceLast (period : nat) (prices : list Q) : list Q :=
  if Nat.eqb period 0 then prices else skipn (length prices - period) prices.

(** [calculateMovingAverage(prices, period)]. *)
Definition calculateMovingAverage (prices : list Q) (period : nat) : Q :=
  if Nat.ltb (length prices) period then
    match nth_error prices (length prices - 1) with
    | Some last => if Qeq_bool last 0 then 0 else last
    | None => 0
    end
  else
    let sum := fold_left (fun acc price => (acc + price)%js) (sliceLast period prices) 0 in
    (sum / inject_Z (Z.of_nat period))%js.

End CryptoApi.

(** ** The view-model snapshot

    The [Cryptocurrency] interface of Dashboard.tsx, which is also the shape
    of the [cryptos] prop of the live feed. *)

Module Crypto.

Record Cryptocurrency : Type := mkCryptocurrency {
  id : string;
  symbol : string;
  name : string;
  currentPrice : Q;
  priceChange24h : Q;
  priceChangePercentage24h : Q;
  marketCap : Q;
  volume24h : Q;
  lastUpdated : string;
  image : option string
}.

(** The snapshot handed to the classifier by both minting steps; only the
    rank differs between the two callers. *)
Definition toMarket (rank : Q) (crypto : Cryptocurrency) : CryptoApi.CoinGeckoMarket :=
  {| CryptoApi.id := id crypto;
     CryptoApi.symbol := Js.toLowerCase (symbol crypto);
     CryptoApi.name := name crypto;
     CryptoApi.image := match image crypto with Some i => i | None => "" end;
     CryptoApi.current_price := currentPrice crypto;
     CryptoApi.market_cap := marketCap crypto;
     CryptoApi.market_cap_rank := rank;
     CryptoApi.fully_diluted_valuation := Some (marketCap crypto);
     CryptoApi.total_volume := volume24h crypto;
     CryptoApi.high_24h := (currentPrice crypto * Js.num 1.05)%js;
     CryptoApi.low_24h := (currentPrice crypto * Js.num 0.95)%js;
     CryptoApi.price_change_24h := priceChange24h crypto;
     CryptoApi.price_change_percentage_24h := priceChangePercentage24h crypto;
     CryptoApi.market_cap_change_24h :=
       (marketCap crypto * (priceChangePercentage24h crypto / 100))%js;
     CryptoApi.market_cap_change_percentage_24h := priceChangePercentage24h crypto;
     CryptoApi.circulating_supply := (marketCap crypto / currentPrice crypto)%js;
     CryptoApi.total_supply := None;
     CryptoApi.max_supply := None;
     CryptoApi.ath := (currentPrice crypto * 2)%js;
     CryptoApi.ath_change_percentage := -50;
     CryptoApi.ath_date := "2021-11-10T14:24:11.849Z";
     CryptoApi.atl := (currentPrice crypto * Js.num 0.1)%js;
     CryptoApi.atl_change_percentage := 900;
     CryptoApi.atl_date := "2020-03-13T02:22:55.391Z";
     CryptoApi.roi := None;
     CryptoApi.last_updated := lastUpdated crypto |}.

End Crypto.

(** ** src/components/Dashboard.tsx *)

Module Dashboard.

Import CryptoApi.

Record Signal : Type := mkSignal {
  id : string;
  symbol : string;
  signalType : SignalType;
  strength : Strength;
  confidenceScore : Z;
  currentPrice : Q;
  targetPrice : option Q;
  stopLoss : option Q;
  reasoning : string;
  createdAt : string
}.

(** Target and stop-loss sizing for a draw [r] of [Math.random()]. *)
Definition targetFor (kind : SignalType) (price r : Q) : option Q :=
  match kind with
  | BUY => Some (price * (1 + r * Js.num 0.15 + Js.num 0.05))%js
  | SELL => Some (price * (1 - r * Js.num 0.15 - Js.num 0.05))%js
  | HOLD => None
  end.

Definition stopLossFor (kind : SignalType) (price r : Q) : option Q :=
  match kind with
  | BUY => Some (price * (1 - r * Js.num 0.08 - Js.num 0.02))%js
  | SELL => Some (price * (1 + r * Js.num 0.08 + Js.num 0.02))%js
  | HOLD => None
  end.

(** A draw is made only on the branches that call [Math.random()]. *)
Definition drawsFor (kind : SignalType) : nat :=
  match kind with HOLD => 0 | _ => 1 end.

(** One iteration of the loop of [generateSignals] for [topCryptos[i]]. *)
Definition mintOne {A} (env : Env A) (i : nat) (crypto : Crypto.Cryptocurrency)
           (st : Eff) : Signal * Eff :=
  let technicalSignal :=
    generateTechnicalSignal (Crypto.toMarket (inject_Z (Z.of_nat i + 1)) crypto) in
  let kind := signal technicalSignal in
  let targetPrice := targetFor kind (Crypto.currentPrice crypto) (random env (tick st)) in
  let st1 := advance (drawsFor kind) st in
  let stopLoss := stopLossFor kind (Crypto.currentPrice crypto) (random env (tick st1)) in
  let st2 := advance (drawsFor kind) st1 in
  let signalId := ("signal_" ++ Js.intToString (dateNow env (tick st2)) ++ "_"
                     ++ Js.natToString (N.of_nat i))%string in
  (* Date.now(), then one draw each for rsi, macd and movingAverage *)
  let st3 := advance 4 st2 in
  let st4 := if dbOk env (tick st3)
             then emit (DbCreate "tradingSignals" signalId) (advance 1 st3)
             else emit (ConsoleWarn "Failed to save signal to database") (advance 1 st3) in
  ({| id := signalId;
      symbol := Crypto.symbol crypto;
      signalType := kind;
      strength := CryptoApi.strength technicalSignal;
      confidenceScore := confidence technicalSignal;
      currentPrice := Crypto.currentPrice crypto;
      targetPrice := targetPrice;
      stopLoss := stopLoss;
      reasoning := CryptoApi.reasoning technicalSignal;
      createdAt := clock env (tick st4) |},
   advance 1 st4).

Fixpoint mintLoop {A} (env : Env A) (i : nat) (topCryptos : list Crypto.Cryptocurrency)
         (newSignals : list Signal) (st : Eff) : list Signal * Eff :=
  match topCryptos with
  | [] => (newSignals, st)
  | crypto :: rest =>
      let (s, st1) := mintOne env i crypto st in
      mintLoop env (S i) rest (newSignals ++ [s]) st1
  end.

(** [generateSignals]: the first five of the top eight snapshots are
    classified and every result is kept, whatever its kind.  Returns the
    minted signals, the new signal list and the effects. *)
Definition generateSignals {A} (env : Env A) (user : bool)
           (cryptos : list Crypto.Cryptocurrency) (signals : list Signal) (st : Eff)
  : list Signal * list Signal * Eff :=
  if negb user then ([], signals, st)
  else
    let topCryptos := firstn 8 cryptos in
    let (newSignals, st1) :=
      mintLoop env 0 (firstn (Nat.min 5 (length topCryptos)) topCryptos) [] st in
    (newSignals, firstn 15 (newSignals ++ signals),
     emit (Toast (GeneratedSignals (length newSignals))) st1).

(** The mapping applied by [loadCryptos] to every record of the market-data
    service. *)
Definition transformMarket (crypto : CoinGeckoMarket) : Crypto.Cryptocurrency :=
  {| Crypto.id := CryptoApi.id crypto;
     Crypto.symbol := Js.toUpperCase (CryptoApi.symbol crypto);
     Crypto.name := CryptoApi.name crypto;
     Crypto.currentPrice := current_price crypto;
     Crypto.priceChange24h := price_change_24h crypto;
     Crypto.priceChangePercentage24h := price_change_percentage_24h crypto;
     Crypto.marketCap := market_cap crypto;
     Crypto.volume24h := total_volume crypto;
     Crypto.lastUpdated := last_updated crypto;
     Crypto.image := Some (CryptoApi.image crypto) |}.

(** *** toggleWatchlist *)

Inductive WatchEvent : Type :=
| WatchListed (symbol : string)        (* userWatchlist.list, by user and symbol *)
| WatchDeleted (rowId : string)        (* userWatchlist.delete *)
| WatchCreated (rowId symbol : string) (* userWatchlist.create *)
| WatchToastRemoved (symbol : string)
| WatchToastAdded (symbol : string)
| WatchFailed.                         (* console.error and the error toast *)

(** [watchlist.includes(symbol)] *)
Definition includes (watchlist : list string) (symbol : string) : bool :=
  existsb (String.eqb symbol) watchlist.

(** [toggleWatchlist(symbol)].  [existing] is what the store's [list]
    answers (the ids of the user's rows for the symbol).  Returns the new
    watchlist, the events and the next tick. *)
Definition toggleWatchlist {A} (env : Env A) (user : bool) (watchlist : list string)
           (symbol : string) (existing : list string) (t : nat)
  : list string * list WatchEvent * nat :=
  if negb user then (watchlist, [], t)
  else if includes watchlist symbol then
    if negb (dbOk env t) then (watchlist, [WatchFailed], (t + 1)%nat)
    else
      match existing with
      | rowId :: _ =>
          if negb (dbOk env (t + 1))
          then (watchlist, [WatchListed symbol; WatchFailed], (t + 2)%nat)
          else (filter (fun s => negb (String.eqb s symbol)) watchlist,
                [WatchListed symbol; WatchDeleted rowId; WatchToastRemoved symbol],
                (t + 2)%nat)
      | [] =>
          (filter (fun s => negb (String.eqb s symbol)) watchlist,
           [WatchListed symbol; WatchToastRemoved symbol], (t + 1)%nat)
      end
  else
    (* Date.now() for the row id, then the call *)
    let rowId := ("watch_" ++ Js.intToString (dateNow env t))%string in
    if negb (dbOk env (t + 1)) then (watchlist, [WatchFailed], (t + 2)%nat)
    else (watchlist ++ [symbol],
          [WatchCreated rowId symbol; WatchToastAdded symbol], (t + 2)%nat).

End Dashboard.

(** ** The live signal feed component

    View-only state ([loading], [isUpdating], [lastSignalUpdate], the
    countdown) is left out; [signals] is the component's signal list. *)

Module LiveSignalFeed.

Import CryptoApi.

Record LiveSignal : Type := mkLiveSignal {
  id : string;
  symbol : string;
  signalType : SignalType;
  strength : Strength;
  confidenceScore : Z;
  currentPrice : Q;
  targetPrice : option Q;
  stopLoss : option Q;
  reasoning : string;
  createdAt : string;
  isActive : bool;
  performancePercentage : Q;
  updatedAt : string
}.

(** *** updateSignalPerformance *)

Inductive Status : Type := active | hit_target | hit_stop_loss.

(** [status === 'active' ? 'price_update' : status] *)
Definition updateType (status : Status) : string :=
  match status with
  | active => "price_update"
  | hit_target => "hit_target"
  | hit_stop_loss => "hit_stop_loss"
  end.

Definition isKind (k : SignalType) (signal : LiveSignal) : bool :=
  match k, signalType signal with
  | BUY, BUY | SELL, SELL | HOLD, HOLD => true
  | _, _ => false
  end.

(** [currentPrice REL bound] for an optional bound; the guard in front of
    it has already excluded [undefined]. *)
Definition compareTo (rel : Q -> Q -> bool) (price : Q) (bound : option Q) : bool :=
  match bound with
  | Some b => rel price b
  | None => false
  end.

(** [performancePercentage].  An entry price of 0 makes JavaScript divide by
    zero; the properties that state a performance take another entry. *)
Definition performanceOf (signal : LiveSignal) (price : Q) : Q :=
  let initialPrice := currentPrice signal in
  match signalType signal with
  | BUY => (((price - initialPrice) / initialPrice) * 100)%js
  | SELL => (((initialPrice - price) / initialPrice) * 100)%js
  | HOLD => 0
  end.

Definition statusOf (signal : LiveSignal) (price : Q) : Status :=
  if Js.truthy (targetPrice signal) && isKind BUY signal
     && compareTo Js.geb price (targetPrice signal) then hit_target
  else if Js.truthy (targetPrice signal) && isKind SELL signal
     && compareTo Js.leb price (targetPrice signal) then hit_target
  else if Js.truthy (stopLoss signal) && isKind BUY signal
     && compareTo Js.leb price (stopLoss signal) then hit_stop_loss
  else if Js.truthy (stopLoss signal) && isKind SELL signal
     && compareTo Js.geb price (stopLoss signal) then hit_stop_loss
  else active.

Definition isActiveOf (status : Status) : bool :=
  match status with active => true | _ => false end.

(** The notifications of one evaluation: a closing toast when the signal
    was active before, and a movement toast for a still-open signal. *)
Definition toastsOf (signal : LiveSignal) (price : Q) : list Event :=
  let performance := performanceOf signal price in
  let status := statusOf signal price in
  (match status with
   | hit_target =>
       if isActive signal then [Toast (TargetHit (symbol signal) performance)] else []
   | hit_stop_loss =>
       if isActive signal then [Toast (StopLossHit (symbol signal) performance)] else []
   | active => []
   end ++
   if isActiveOf status && Js.gtb (Qabs performance) 5 then
     let lastPerformance := performancePercentage signal in
     if Js.gtb (Qabs (performance - lastPerformance)%js) 2
     then [Toast (Movement (Js.gtb performance lastPerformance) (symbol signal) performance)]
     else []
   else [])%list.

(** [{ ...s, currentPrice, performancePercentage, isActive, updatedAt }] *)
Definition withUpdate (s : LiveSignal) (price performance : Q) (act : bool)
           (now : string) : LiveSignal :=
  {| id := id s;
     symbol := symbol s;
     signalType := signalType s;
     strength := strength s;
     confidenceScore := confidenceScore s;
     currentPrice := price;
     targetPrice := targetPrice s;
     stopLoss := stopLoss s;
     reasoning := reasoning s;
     createdAt := createdAt s;
     isActive := act;
     performancePercentage := performance;
     updatedAt := now |}.

(** [prev.map(s => s.id === signal.id ? {...} : s)]; every rewritten entry
    reads the clock once. *)
Fixpoint applyUpdate {A} (env : Env A) (sid : string) (price performance : Q)
         (act : bool) (prev : list LiveSignal) (st : Eff) : list LiveSignal * Eff :=
  match prev with
  | [] => ([], st)
  | s :: rest =>
      if String.eqb (id s) sid then
        let s' := withUpdate s price performance act (clock env (tick st)) in
        let (rest', st') := applyUpdate env sid price performance act rest (advance 1 st) in
        (s' :: rest', st')
      else
        let (rest', st') := applyUpdate env sid price performance act rest st in
        (s :: rest', st')
  end.

Definition findCrypto (cryptos : list Crypto.Cryptocurrency) (sym : string)
  : option Crypto.Cryptocurrency :=
  find (fun c => String.eqb (Crypto.symbol c) sym) cryptos.

(** One iteration of the loop over the active signals.  [signal] comes
    from the list the pass started with; [store] is the list being
    rewritten.  The boolean is false when a store call threw. *)
Definition retickOne {A} (env : Env A) (cryptos : list Crypto.Cryptocurrency)
           (signal : LiveSignal) (store : list LiveSignal) (st : Eff)
  : bool * list LiveSignal * Eff :=
  match findCrypto cryptos (symbol signal) with
  | None => (true, store, st)
  | Some crypto =>
      let price := Crypto.currentPrice crypto in
      let performance := performanceOf signal price in
      let status := statusOf signal price in
      let act := isActiveOf status in
      let st1 := mkEff (tick st) (events st ++ toastsOf signal price) in
      (* recentSignals.update: new Date(), then the call *)
      let now := clock env (tick st1) in
      if negb (dbOk env (tick st1 + 1)) then (false, store, advance 2 st1)
      else
        let st2 := emit (DbUpdate "recentSignals" (id signal) price performance act now)
                        (advance 2 st1) in
        (* signalUpdates.create: Date.now(), Math.random(), then the call *)
        if negb (dbOk env (tick st2 + 2)) then (false, store, advance 3 st2)
        else
          let st3 := emit (DbSignalUpdatesCreate (id signal) price performance
                                                 (updateType status))
                          (advance 3 st2) in
          let (store', st4) := applyUpdate env (id signal) price performance act store st3 in
          (true, store', st4)
  end.

Fixpoint retickLoop {A} (env : Env A) (cryptos : list Crypto.Cryptocurrency)
         (todo : list LiveSignal) (store : list LiveSignal) (st : Eff)
  : list LiveSignal * Eff :=
  match todo with
  | [] => (store, st)
  | signal :: rest =>
      match retickOne env cryptos signal store st with
      | (true, store', st') => retickLoop env cryptos rest store' st'
      | (false, store', st') =>
          (store', emit (ConsoleError "Failed to update signal performance") st')
      end
  end.

Definition updateSignalPerformance {A} (env : Env A) (user : bool)
           (signals : list LiveSignal) (cryptos : list Crypto.Cryptocurrency)
           (st : Eff) : list LiveSignal * Eff :=
  if negb user || Nat.eqb (length signals) 0 || Nat.eqb (length cryptos) 0
  then (signals, st)
  else retickLoop env cryptos (filter isActive signals) signals st.

(** A sequence of retick passes, each against its own snapshot list. *)
Fixpoint reticks {A} (env : Env A) (user : bool)
         (passes : list (list Crypto.Cryptocurrency))
         (signals : list LiveSignal) (st : Eff) : list LiveSignal * Eff :=
  match passes with
  | [] => (signals, st)
  | cryptos :: later =>
      let (signals', st') := updateSignalPerformance env user signals cryptos st in
      reticks env user later signals' st'
  end.

(** *** generateNewSignals *)

(** [cryptos.sort((a, b) => |b.pct| - |a.pct|)]: a stable sort, largest
    absolute change first. *)
Definition compareFn (a b : Crypto.Cryptocurrency) : Q :=
  (Qabs (Crypto.priceChangePercentage24h b) - Qabs (Crypto.priceChangePercentage24h a))%js.

Fixpoint insertSorted (x : Crypto.Cryptocurrency) (l : list Crypto.Cryptocurrency)
  : list Crypto.Cryptocurrency :=
  match l with
  | [] => [x]
  | y :: l' => if Js.leb (compareFn x y) 0 then x :: y :: l' else y :: insertSorted x l'
  end.

Definition sort (cryptos : list Crypto.Cryptocurrency) : list Crypto.Cryptocurrency :=
  fold_right insertSorted [] cryptos.

Definition targetFor (kind : SignalType) (price r : Q) : Q :=
  match kind with
  | BUY => (price * (1 + r * Js.num 0.12 + Js.num 0.03))%js
  | _ => (price * (1 - r * Js.num 0.12 - Js.num 0.03))%js
  end.

Definition stopLossFor (kind : SignalType) (price r : Q) : Q :=
  match kind with
  | BUY => (price * (1 - r * Js.num 0.06 - Js.num 0.02))%js
  | _ => (price * (1 + r * Js.num 0.06 + Js.num 0.02))%js
  end.

(** The body of the minting loop for a snapshot that is not skipped:
    two draws, [Date.now()], a draw for the id, [new Date()], the store
    call. *)
Definition mintOne {A} (env : Env A) (technicalSignal : TechnicalSignal)
           (crypto : Crypto.Cryptocurrency) (st : Eff) : LiveSignal :=
  let t := tick st in
  let kind := signal technicalSignal in
  let targetPrice := targetFor kind (Crypto.currentPrice crypto) (random env t) in
  let stopLoss := stopLossFor kind (Crypto.currentPrice crypto) (random env (t + 1)) in
  let signalId := ("live_signal_" ++ Js.intToString (dateNow env (t + 2)) ++ "_"
                     ++ idSuffix env (random env (t + 3)))%string in
  let now := clock env (t + 4) in
  {| id := signalId;
     symbol := Crypto.symbol crypto;
     signalType := kind;
     strength := CryptoApi.strength technicalSignal;
     confidenceScore := confidence technicalSignal;
     currentPrice := Crypto.currentPrice crypto;
     targetPrice := Some targetPrice;
     stopLoss := Some stopLoss;
     reasoning := CryptoApi.reasoning technicalSignal;
     createdAt := now;
     isActive := true;
     performancePercentage := 0;
     updatedAt := now |}.

Fixpoint mintLoop {A} (env : Env A) (topCryptos : list Crypto.Cryptocurrency)
         (newSignals : list LiveSignal) (st : Eff)
  : Completion (list LiveSignal) * Eff :=
  match topCryptos with
  | [] => (Returned newSignals, st)
  | crypto :: rest =>
      let technicalSignal := generateTechnicalSignal (Crypto.toMarket 1 crypto) in
      match signal technicalSignal with
      | HOLD => mintLoop env rest newSignals st
      | _ =>
          let s := mintOne env technicalSignal crypto st in
          if dbOk env (tick st + 5)
          then mintLoop env rest (newSignals ++ [s])
                 (emit (DbCreate "recentSignals" (id s)) (advance 6 st))
          else (Thrown, advance 6 st)
      end
  end.

(** Returns the signals added to the list, the new list and the effects. *)
Definition generateNewSignals {A} (env : Env A) (user : bool)
           (cryptos : list Crypto.Cryptocurrency) (signals : list LiveSignal)
           (st : Eff) : list LiveSignal * list LiveSignal * Eff :=
  if negb user || Nat.eqb (length cryptos) 0 then ([], signals, st)
  else
    let topCryptos := firstn 6 (sort cryptos) in
    match mintLoop env topCryptos [] st with
    | (Returned newSignals, st1) =>
        (newSignals, firstn 20 (newSignals ++ signals),
         emit (Toast (GeneratedSignals (length newSignals))) st1)
    | (_, st1) =>
        ([], signals,
         emit (Toast GenerationFailed) (emit (ConsoleError "Failed to generate signals") st1))
    end.

End LiveSignalFeed.

(** ** The browse tab

    The filtering, sorting and paging of the crypto browser component. *)

Module CryptoBrowser.

Record Cryptocurrency : Type := mkCryptocurrency {
  id : string;
  symbol : string;
  name : string;
  currentPrice : Q;
  priceChange24h : Q;
  priceChangePercentage24h : Q;
  marketCap : Q;
  volume24h : Q;
  lastUpdated : string;
  image : option string;
  marketCapRank : Q
}.

Inductive SortBy : Type := market_cap | price | volume | change.
Inductive SortOrder : Type := asc | desc.
Inductive FilterBy : Type := all | gainers | losers | watchlist.

Definition itemsPerPage : nat := 20.

(** The value [aValue] / [bValue] picked by the [switch] on [sortBy]. *)
Definition sortValue (sortBy : SortBy) (c : Cryptocurrency) : Q :=
  match sortBy with
  | price => currentPrice c
  | volume => volume24h c
  | change => priceChangePercentage24h c
  | market_cap => marketCap c
  end.

Definition compareFn (sortBy : SortBy) (sortOrder : SortOrder)
           (a b : Cryptocurrency) : Q :=
  let aValue := sortValue sortBy a in
  let bValue := sortValue sortBy b in
  match sortOrder with
  | desc => (bValue - aValue)%js
  | asc => (aValue - bValue)%js
  end.

Definition matchesSearch (query : string) (crypto : Cryptocurrency) : bool :=
  Js.includes (Js.toLowerCase (name crypto)) query
  || Js.includes (Js.toLowerCase (symbol crypto)) query.

Definition matchesCategory (filterBy : FilterBy) (watched : list string)
           (crypto : Cryptocurrency) : bool :=
  match filterBy with
  | gainers => Js.gtb (priceChangePercentage24h crypto) 0
  | losers => Js.ltb (priceChangePercentage24h crypto) 0
  | watchlist => existsb (String.eqb (symbol crypto)) watched
  | all => true
  end.

(** The filter-and-sort effect: the value given to [setFilteredCryptos]. *)
Definition filterAndSort (cryptos : list Cryptocurrency) (searchQuery : string)
           (sortBy : SortBy) (sortOrder : SortOrder) (filterBy : FilterBy)
           (watched : list string) : list Cryptocurrency :=
  let filtered := cryptos in
  let filtered :=
    if Js.truthyString (Js.trim searchQuery) then
      let query := Js.toLowerCase searchQuery in
      filter (matchesSearch query) filtered
    else filtered in
  let filtered :=
    match filterBy with
    | all => filtered
    | _ => filter (matchesCategory filterBy watched) filtered
    end in
  Js.sort (compareFn sortBy sortOrder) filtered.

(** [Math.ceil(filtered.length / itemsPerPage)] *)
Definition totalPages (filtered : list Cryptocurrency) : nat :=
  Nat.div (length filtered + (itemsPerPage - 1))%nat itemsPerPage.

(** [getCurrentPageItems]; pages are numbered from 1. *)
Definition getCurrentPageItems (currentPage : nat) (filteredCryptos : list Cryptocurrency)
  : list Cryptocurrency :=
  let startIndex := ((currentPage - 1) * itemsPerPage)%nat in
  firstn itemsPerPage (skipn startIndex filteredCryptos).

Definition startItem (currentPage : nat) : nat :=
  ((currentPage - 1) * itemsPerPage + 1)%nat.

Definition endItem (currentPage totalItems : nat) : nat :=
  Nat.min (currentPage * itemsPerPage)%nat totalItems.

(** The number on the [i]-th page button. *)
Definition pageNum (currentPage totalPages i : nat) : nat :=
  (if Nat.leb totalPages 5 then i + 1
   else if Nat.leb currentPage 3 then i + 1
   else if Nat.leb (totalPages - 2) currentPage then totalPages - 4 + i
   else currentPage - 2 + i)%nat.

(** The page buttons, left to right. *)
Definition pageButtons (currentPage totalPages : nat) : list nat :=
  map (pageNum currentPage totalPages) (seq 0 (Nat.min 5 totalPages)).

End CryptoBrowser.

(** ** What a retick leaves alone

    The fields of a signal that no retick writes. *)
Definition sameIdentity (s s' : LiveSignalFeed.LiveSignal) : Prop :=
  LiveSignalFeed.id s' = LiveSignalFeed.id s /\
  LiveSignalFeed.symbol s' = LiveSignalFeed.symbol s /\
  LiveSignalFeed.signalType s' = LiveSignalFeed.signalType s /\
  LiveSignalFeed.strength s' = LiveSignalFeed.strength s /\
  LiveSignalFeed.confidenceScore s' = LiveSignalFeed.confidenceScore s /\
  LiveSignalFeed.targetPrice s' = LiveSignalFeed.targetPrice s /\
  LiveSignalFeed.stopLoss s' = LiveSignalFeed.stopLoss s /\
  LiveSignalFeed.reasoning s' = LiveSignalFeed.reasoning s /\
  LiveSignalFeed.createdAt s' = LiveSignalFeed.createdAt s.

(** ** Order of a sorted array

    [a] may stand before [b] in an array sorted with [compareFn]. *)
Definition before {X : Type} (compareFn : X -> X -> Q) (a b : X) : Prop :=
  compareFn a b <= 0.

(** ** A signal of the dashboard and the snapshot it was minted from *)
Definition mintedFrom (crypto : Crypto.Cryptocurrency) (s : Dashboard.Signal) : Prop :=
  Dashboard.symbol s = Crypto.symbol crypto /\
  Dashboard.currentPrice s = Crypto.currentPrice crypto /\
  let technicalSignal := CryptoApi.generateTechnicalSignal (Crypto.toMarket 1 crypto) in
  Dashboard.signalType s = CryptoApi.signal technicalSignal /\
  Dashboard.strength s = CryptoApi.strength technicalSignal /\
  Dashboard.confidenceScore s = CryptoApi.confidence technicalSignal /\
  Dashboard.reasoning s = CryptoApi.reasoning technicalSignal.

(** ** A signal of the live feed and the snapshot it was minted from *)
Definition liveMintedFrom (crypto : Crypto.Cryptocurrency)
           (s : LiveSignalFeed.LiveSignal) : Prop :=
  LiveSignalFeed.symbol s = Crypto.symbol crypto /\
  LiveSignalFeed.currentPrice s = Crypto.currentPrice crypto /\
  let technicalSignal := CryptoApi.generateTechnicalSignal (Crypto.toMarket 1 crypto) in
  LiveSignalFeed.signalType s = CryptoApi.signal technicalSignal /\
  LiveSignalFeed.strength s = CryptoApi.strength technicalSignal /\
  LiveSignalFeed.confidenceScore s = CryptoApi.confidence technicalSignal /\
  LiveSignalFeed.reasoning s = CryptoApi.reasoning technicalSignal.

(** The snapshots the classifier does not answer with HOLD. *)
Definition callsForSignal (crypto : Crypto.Cryptocurrency) : bool :=
  match CryptoApi.signal (CryptoApi.generateTechnicalSignal (Crypto.toMarket 1 crypto)) with
  | CryptoApi.HOLD => false
  | _ => true
  end.

(** ** What the browse tab shows

    The snapshots that pass the search box and the category filter, and
    the order the sort selectors ask for. *)
Definition passesFilters (searchQuery : string) (filterBy : CryptoBrowser.FilterBy)
           (watched : list string) (crypto : CryptoBrowser.Cryptocurrency) : bool :=
  (if Js.truthyString (Js.trim searchQuery)
   then CryptoBrowser.matchesSearch (Js.toLowerCase searchQuery) crypto
   else true)
  && CryptoBrowser.matchesCategory filterBy watched crypto.

Definition inOrder (sortBy : CryptoBrowser.SortBy) (sortOrder : CryptoBrowser.SortOrder)
           (a b : CryptoBrowser.Cryptocurrency) : Prop :=
  match sortOrder with
  | CryptoBrowser.desc => CryptoBrowser.sortValue sortBy b <= CryptoBrowser.sortValue sortBy a
  | CryptoBrowser.asc => CryptoBrowser.sortValue sortBy a <= CryptoBrowser.sortValue sortBy b
  end.

(** ** The decision table of the classifier

    Rows are tried top to bottom and the first row whose condition holds is
    selected.  [pct] is the 24h percentage change.  The table is given for
    a test [highVolume] on the volume: the specification words it as
    [volRatio > 0.1] with [volRatio] = volume / marketCap; the code
    compares the volume with the product marketCap * 0.1 it computes. *)

Module DecisionTable.

Import CryptoApi.

(** A quotient as JavaScript evaluates it: dividing by zero gives an
    infinity with the sign of the dividend, or NaN for 0 / 0. *)
Inductive Quotient : Type :=
| Finite (q : Q)
| PlusInfinity
| MinusInfinity
| NotANumber.

Definition divide (x y : Q) : Quotient :=
  if Qeq_bool y 0 then
    if Js.gtb x 0 then PlusInfinity
    else if Js.ltb x 0 then MinusInfinity
    else NotANumber
  else Finite (x / y).

(** [r > bound]; every comparison with NaN is false. *)
Definition exceeds (r : Quotient) (bound : Q) : Prop :=
  match r with
  | Finite q => bound < q
  | PlusInfinity => True
  | MinusInfinity | NotANumber => False
  end.

Definition pct (s : CoinGeckoMarket) : Q := price_change_percentage_24h s.
Definition volRatio (s : CoinGeckoMarket) : Quotient :=
  divide (total_volume s) (market_cap s).

(** The volume test of the specification, on the exact ratio. *)
Definition ratioAboveTenth (s : CoinGeckoMarket) : Prop :=
  exceeds (volRatio s) 0.1.

(** The same test with the ratio and the bound as doubles. *)
Definition roundedRatioAboveTenth (s : CoinGeckoMarket) : Prop :=
  Js.num 0.1 < (total_volume s / market_cap s)%js.

(** The volume test of the code. *)
Definition volumeAboveTenthOfCap (s : CoinGeckoMarket) : Prop :=
  (market_cap s * Js.num 0.1)%js < total_volume s.

Record Row : Type := mkRow {
  condition : CoinGeckoMarket -> Prop;
  kind : SignalType;
  strengthOf : CoinGeckoMarket -> Strength;
  confidenceOf : Z
}.

Definition table (highVolume : CoinGeckoMarket -> Prop) : list Row :=
  [ mkRow (fun s => 5 < pct s /\ highVolume s) BUY (fun _ => STRONG) 85;
    mkRow (fun s => 2 < pct s) BUY (fun _ => MODERATE) 70;
    mkRow (fun s => pct s < -5 /\ highVolume s) SELL (fun _ => STRONG) 80;
    mkRow (fun s => pct s < -2) SELL (fun _ => MODERATE) 65;
    mkRow (fun _ => True) HOLD
          (fun s => if Qlt_le_dec 1 (Qabs (pct s)) then MODERATE else WEAK) 60 ].

(** First match wins. *)
Inductive selects : list Row -> CoinGeckoMarket -> Row -> Prop :=
| selects_here : forall r rest s,
    condition r s -> selects (r :: rest) s r
| selects_later : forall r rest s r',
    ~ condition r s -> selects rest s r' -> selects (r :: rest) s r'.

End DecisionTable.

(** ** Reading a trace *)

Module Trace.

Definition isFetch (e : Event) : bool :=
  match e with Fetch _ => true | _ => false end.

(** The number of network attempts in a trace. *)
Definition attempts (tr : list Event) : nat := length (filter isFetch tr).

(** The waits of a trace, in milliseconds, in order. *)
Fixpoint sleeps (tr : list Event) : list N :=
  match tr with
  | [] => []
  | Sleep ms :: rest => ms :: sleeps rest
  | _ :: rest => sleeps rest
  end.

(** A fetch attempt fails when [fetch] rejects, the response is not [ok]
    or its body does not parse. *)
Definition failed {A} (o : FetchOutcome A) : Prop :=
  match o with
  | HttpResponse true _ (Some _) => False
  | _ => True
  end.

End Trace.

(** ** Concrete inputs used in the examples below *)

Module Sample.

(** An environment whose network is down, whose store accepts every write
    and whose random draws are all [r]. *)
Definition env (A : Type) (r : Q) : Env A :=
  {| clock := fun _ => "2024-01-01T00:00:00.000Z"%string;
     dateNow := fun _ => 1704067200000%Z;
     random := fun _ => r;
     idSuffix := fun _ => "k3j9x0q2a"%string;
     dbOk := fun _ => true;
     fetch := fun _ _ => NetworkError |}.

Definition start : Eff := mkEff 0 [].

Definition market (pct volume cap : Q) : CryptoApi.CoinGeckoMarket :=
  Crypto.toMarket 1
    (Crypto.mkCryptocurrency "bitcoin" "BTC" "Bitcoin" 100 0 pct cap volume
                             "2024-01-01T00:00:00.000Z" None).

Definition crypto (sym : string) (price pct volume cap : Q) : Crypto.Cryptocurrency :=
  Crypto.mkCryptocurrency sym sym sym price 0 pct cap volume
                          "2024-01-01T00:00:00.000Z" None.

(** An open signal with the given kind, entry price, target and stop. *)
Definition liveSignal (ident sym : string) (kind : CryptoApi.SignalType)
           (entry : Q) (target stop : option Q) : LiveSignalFeed.LiveSignal :=
  LiveSignalFeed.mkLiveSignal ident sym kind CryptoApi.MODERATE 70 entry target stop
    "" "2024-01-01T00:00:00.000Z" true 0 "2024-01-01T00:00:00.000Z".

(** A BUY signal on BTC entered at 100 with target 200 and stop 50, and
    two later snapshot lists pricing BTC at 110 and then at 121. *)
Definition btcSignal : LiveSignalFeed.LiveSignal :=
  liveSignal "live_signal_1" "BTC" CryptoApi.BUY 100 (Some 200) (Some 50).

Definition btcAt (price : Q) : list Crypto.Cryptocurrency :=
  [crypto "BTC" price 0 1 100].

(** An environment whose network fails until tick [okFrom] and then answers
    every request with [body]. *)
Definition flaky (A : Type) (okFrom : nat) (body : A) : Env A :=
  {| clock := fun _ => "2024-01-01T00:00:00.000Z"%string;
     dateNow := fun _ => 1704067200000%Z;
     random := fun _ => 0;
     idSuffix := fun _ => "k3j9x0q2a"%string;
     dbOk := fun _ => true;
     fetch := fun t _ => if Nat.ltb t okFrom then NetworkError
                         else HttpResponse true 200 (Some body) |}.

(** An environment whose store rejects every write. *)
Definition storeDown (A : Type) : Env A :=
  {| clock := fun _ => "2024-01-01T00:00:00.000Z"%string;
     dateNow := fun _ => 1704067200000%Z;
     random := fun _ => 0;
     idSuffix := fun _ => "k3j9x0q2a"%string;
     dbOk := fun _ => false;
     fetch := fun _ _ => NetworkError |}.

(** An environment whose store rejects exactly the calls made at the
    ticks [rejected]. *)
Definition storeRejecting (A : Type) (rejected : list nat) : Env A :=
  {| clock := fun _ => "2024-01-01T00:00:00.000Z"%string;
     dateNow := fun _ => 1704067200000%Z;
     random := fun _ => 0;
     idSuffix := fun _ => "k3j9x0q2a"%string;
     dbOk := fun t => negb (existsb (Nat.eqb t) rejected);
     fetch := fun _ _ => NetworkError |}.

Definition coin (sym : string) (price pct : Q) : CryptoBrowser.Cryptocurrency :=
  CryptoBrowser.mkCryptocurrency sym sym sym price 0 pct 1 1
                                 "2024-01-01T00:00:00.000Z" None 0.

End Sample.

(** A signal with its target, respectively its stop-loss, removed. *)
Definition withoutTarget (s : LiveSignalFeed.LiveSignal) : LiveSignalFeed.LiveSignal :=
  LiveSignalFeed.mkLiveSignal
    (LiveSignalFeed.id s) (LiveSignalFeed.symbol s) (LiveSignalFeed.signalType s)
    (LiveSignalFeed.strength s) (LiveSignalFeed.confidenceScore s)
    (LiveSignalFeed.currentPrice s) None (LiveSignalFeed.stopLoss s)
    (LiveSignalFeed.reasoning s) (LiveSignalFeed.createdAt s)
    (LiveSignalFeed.isActive s) (LiveSignalFeed.performancePercentage s)
    (LiveSignalFeed.updatedAt s).

Definition withoutStopLoss (s : LiveSignalFeed.LiveSignal) : LiveSignalFeed.LiveSignal :=
  LiveSignalFeed.mkLiveSignal
    (LiveSignalFeed.id s) (LiveSignalFeed.symbol s) (LiveSignalFeed.signalType s)
    (LiveSignalFeed.strength s) (LiveSignalFeed.confidenceScore s)
    (LiveSignalFeed.currentPrice s) (LiveSignalFeed.targetPrice s) None
    (LiveSignalFeed.reasoning s) (LiveSignalFeed.createdAt s)
    (LiveSignalFeed.isActive s) (LiveSignalFeed.performancePercentage s)
    (LiveSignalFeed.updatedAt s).

(** ** Sizing ranges

    The ranges in which the two minting steps place the target and the
    stop-loss of a signal entered at price [e]. *)

Module Sizing.

Import CryptoApi.

(** [x] lies between [e * lo] and [e * hi], ends included, the two
    products being computed as the code computes its own. *)
Definition within (e lo hi x : Q) : Prop :=
  (e * lo)%js <= x /\ x <= (e * hi)%js.

(** The live feed: each factor runs from its value at the draw 0 to its
    value at the draw 1. *)
Definition liveRange (kind : SignalType) (e : Q) (target stop : option Q) : Prop :=
  match kind, target, stop with
  | BUY, Some t, Some l =>
      within e (1 + Js.num 0.03)%js (1 + Js.num 0.12 + Js.num 0.03)%js t /\
      within e (1 - Js.num 0.06 - Js.num 0.02)%js (1 - Js.num 0.02)%js l
  | SELL, Some t, Some l =>
      within e (1 - Js.num 0.12 - Js.num 0.03)%js (1 - Js.num 0.03)%js t /\
      within e (1 + Js.num 0.02)%js (1 + Js.num 0.06 + Js.num 0.02)%js l
  | _, _, _ => False
  end.

(** The dashboard. *)
Definition dashboardRange (kind : SignalType) (e : Q) (target stop : option Q) : Prop :=
  match kind, target, stop with
  | BUY, Some t, Some l =>
      within e (1 + Js.num 0.05)%js (1 + Js.num 0.15 + Js.num 0.05)%js t /\
      within e (1 - Js.num 0.08 - Js.num 0.02)%js (1 - Js.num 0.02)%js l
  | SELL, Some t, Some l =>
      within e (1 - Js.num 0.15 - Js.num 0.05)%js (1 - Js.num 0.05)%js t /\
      within e (1 + Js.num 0.02)%js (1 + Js.num 0.08 + Js.num 0.02)%js l
  | HOLD, None, None => True
  | _, _, _ => False
  end.

(** The range of the specification: both ends excluded. *)
Definition specRange (kind : SignalType) (e : Q) (target stop : option Q) : Prop :=
  match kind, target, stop with
  | BUY, Some t, Some l =>
      (e * 1.03 < t /\ t < e * 1.15) /\ (e * 0.92 < l /\ l < e * 0.98)
  | SELL, Some t, Some l =>
      (e * 0.85 < t /\ t < e * 0.97) /\ (e * 1.02 < l /\ l < e * 1.08)
  | _, _, _ => False
  end.

End Sizing.

(** * Properties *)

(** ** Numbers *)

Lemma gtb_true_iff (x y : Q) : Js.gtb x y = true <-> y < x.
Proof.
  unfold Js.gtb. rewrite negb_true_iff, <- not_true_iff_false, Qle_bool_iff.
  split; [apply Qnot_le_lt | apply Qlt_not_le].
Qed.

Lemma gtb_false_iff (x y : Q) : Js.gtb x y = false <-> x <= y.
Proof. unfold Js.gtb. rewrite negb_false_iff. apply Qle_bool_iff. Qed.

Lemma ltb_true_iff (x y : Q) : Js.ltb x y = true <-> x < y.
Proof. unfold Js.ltb. apply (gtb_true_iff y x). Qed.

Lemma ltb_false_iff (x y : Q) : Js.ltb x y = false <-> y <= x.
Proof. unfold Js.ltb. apply (gtb_false_iff y x). Qed.

Lemma geb_true_iff (x y : Q) : Js.geb x y = true <-> y <= x.
Proof. apply Qle_bool_iff. Qed.

Lemma leb_true_iff (x y : Q) : Js.leb x y = true <-> x <= y.
Proof. apply Qle_bool_iff. Qed.

#[export] Instance gtb_wd : Proper (Qeq ==> Qeq ==> eq) Js.gtb.
Proof. intros x x' Hx y y' Hy. unfold Js.gtb. now rewrite Hx, Hy. Qed.

#[export] Instance ltb_wd : Proper (Qeq ==> Qeq ==> eq) Js.ltb.
Proof. intros x x' Hx y y' Hy. unfold Js.ltb. now rewrite Hx, Hy. Qed.

#[export] Instance toFixed2_wd : Proper (Qeq ==> eq) Js.toFixed2.
Proof. intros x x' Hx. unfold Js.toFixed2. now rewrite Hx. Qed.

(** *** Powers of two *)

Lemma exp2_pos (e : Z) : 0 < Js.exp2 e.
Proof. apply Qpower_0_lt. reflexivity. Qed.

Lemma exp2_add (a b : Z) : Js.exp2 (a + b) == Js.exp2 a * Js.exp2 b.
Proof. apply Qpower_plus. discriminate. Qed.

Lemma exp2_succ (e : Z) : Js.exp2 (e + 1) == 2 * Js.exp2 e.
Proof. rewrite exp2_add. change (Js.exp2 1) with 2. ring. Qed.

Lemma exp2_le (a b : Z) : (a <= b)%Z -> Js.exp2 a <= Js.exp2 b.
Proof. intros H. apply Qpower_le_compat_l; [exact H | discriminate]. Qed.

Lemma exp2_lt (a b : Z) : (a < b)%Z -> Js.exp2 a < Js.exp2 b.
Proof. intros H. apply Qpower_lt_compat_l; [exact H | reflexivity]. Qed.

Lemma exp2_inject (n : Z) : (0 <= n)%Z -> Js.exp2 n == inject_Z (2 ^ n).
Proof. intros H. unfold Js.exp2. now rewrite Zpower_Qpower. Qed.

(** *** The binade of a positive number *)

Lemma ilog2_spec (x : Q) :
  0 < x -> Js.exp2 (Js.ilog2 x) <= x /\ x < Js.exp2 (Js.ilog2 x + 1).
Proof.
  intros Hx. unfold Js.ilog2. cbv zeta.
  destruct x as [n d]. cbn [Qnum Qden].
  assert (Hn : (0 < n)%Z) by (unfold Qlt in Hx; cbn in Hx; lia).
  pose proof (Z.log2_spec n Hn) as [Hn1 Hn2].
  pose proof (Z.log2_spec (Zpos d) (Pos2Z.is_pos d)) as [Hd1 Hd2].
  pose proof (Z.log2_nonneg n) as Ha. pose proof (Z.log2_nonneg (Zpos d)) as Hb.
  set (a := Z.log2 n) in *. set (b := Z.log2 (Zpos d)) in *.
  assert (HA : Js.exp2 a <= inject_Z n /\ inject_Z n < 2 * Js.exp2 a).
  { split.
    - rewrite exp2_inject by lia. now rewrite <- Zle_Qle.
    - rewrite <- exp2_succ, exp2_inject by lia. rewrite <- Zlt_Qlt.
      now rewrite <- Z.add_1_r in Hn2. }
  assert (HB : Js.exp2 b <= inject_Z (Zpos d) /\ inject_Z (Zpos d) < 2 * Js.exp2 b).
  { split.
    - rewrite exp2_inject by lia. now rewrite <- Zle_Qle.
    - rewrite <- exp2_succ, exp2_inject by lia. rewrite <- Zlt_Qlt.
      now rewrite <- Z.add_1_r in Hd2. }
  assert (HE : Js.exp2 (a - b) * Js.exp2 b == Js.exp2 a).
  { rewrite <- exp2_add. now replace (a - b + b)%Z with a by lia. }
  assert (HX : (n # d) * inject_Z (Zpos d) == inject_Z n).
  { rewrite (Qmake_Qdiv n d). field. discriminate. }
  pose proof (exp2_pos (a - b)) as HEpos. pose proof (exp2_pos b) as HBpos.
  pose proof (exp2_pos a) as HApos.
  set (E := Js.exp2 (a - b)) in *. set (A := Js.exp2 a) in *. set (B := Js.exp2 b) in *.
  set (N := inject_Z n) in *. set (D := inject_Z (Zpos d)) in *. set (x := n # d) in *.
  assert (Hup : x < 2 * E).
  { apply Qnot_le_lt. intros Hc.
    assert (H1 : 0 <= (x - 2 * E) * D) by (apply Qmult_le_0_compat; lra).
    assert (H2 : 0 <= E * (D - B)) by (apply Qmult_le_0_compat; lra).
    lra. }
  assert (Hlow : E < 2 * x).
  { apply Qnot_le_lt. intros Hc.
    assert (H1 : 0 <= (E - 2 * x) * D) by (apply Qmult_le_0_compat; lra).
    assert (H2 : 0 < E * (2 * B - D)) by (apply Qmult_lt_0_compat; lra).
    lra. }
  destruct (Qle_bool E x) eqn:Etest.
  - apply Qle_bool_iff in Etest. split; [exact Etest |]. now rewrite exp2_succ.
  - assert (Hlt : x < E).
    { apply Qnot_le_lt. intros Hc. apply Qle_bool_iff in Hc. congruence. }
    replace (a - b - 1 + 1)%Z with (a - b)%Z by lia. split; [| exact Hlt].
    assert (H2 : 2 * Js.exp2 (a - b - 1) == E).
    { rewrite <- exp2_succ. now replace (a - b - 1 + 1)%Z with (a - b)%Z by lia. }
    lra.
Qed.

Lemma ilog2_unique (x : Q) (e : Z) :
  Js.exp2 e <= x -> x < Js.exp2 (e + 1) -> Js.ilog2 x = e.
Proof.
  intros Hlo Hhi.
  assert (Hx : 0 < x) by (pose proof (exp2_pos e); lra).
  destruct (ilog2_spec x Hx) as [Hlo' Hhi'].
  destruct (Z.lt_trichotomy (Js.ilog2 x) e) as [H | [H | H]]; [| exact H |].
  - pose proof (exp2_le (Js.ilog2 x + 1) e ltac:(lia)). lra.
  - pose proof (exp2_le (e + 1) (Js.ilog2 x) ltac:(lia)). lra.
Qed.

Lemma ilog2_wd (x y : Q) : 0 < x -> x == y -> Js.ilog2 x = Js.ilog2 y.
Proof.
  intros Hx E. destruct (ilog2_spec x Hx) as [Hlo Hhi].
  symmetry. apply ilog2_unique; lra.
Qed.

Lemma ilog2_le (x y : Q) : 0 < x -> x <= y -> (Js.ilog2 x <= Js.ilog2 y)%Z.
Proof.
  intros Hx Hxy.
  destruct (ilog2_spec x Hx) as [Hlo Hhi].
  destruct (ilog2_spec y ltac:(lra)) as [Hlo' Hhi'].
  destruct (Z_le_gt_dec (Js.ilog2 x) (Js.ilog2 y)) as [H | H]; [exact H | exfalso].
  pose proof (exp2_le (Js.ilog2 y + 1) (Js.ilog2 x) ltac:(lia)). lra.
Qed.

(** *** Rounding to the nearest integer, ties to even *)

Lemma nearestEven_cases (y : Q) :
  Js.nearestEven y = Qfloor y \/ Js.nearestEven y = (Qfloor y + 1)%Z.
Proof.
  unfold Js.nearestEven. cbv zeta.
  destruct (Qcompare _ _); [destruct (Z.even _) | |]; auto.
Qed.

Lemma nearestEven_near (y : Q) :
  y - (1 # 2) <= inject_Z (Js.nearestEven y) /\ inject_Z (Js.nearestEven y) <= y + (1 # 2).
Proof.
  pose proof (Qfloor_le y) as Hlo. pose proof (Qlt_floor y) as Hhi.
  rewrite inject_Z_plus in Hhi. change (inject_Z 1) with 1 in Hhi.
  unfold Js.nearestEven. cbv zeta.
  destruct (Qcompare (y - inject_Z (Qfloor y)) (1 # 2)) eqn:E.
  - apply Qeq_alt in E. destruct (Z.even (Qfloor y));
      rewrite ?inject_Z_plus; change (inject_Z 1) with 1; split; lra.
  - apply Qlt_alt in E. split; lra.
  - apply Qgt_alt in E. rewrite inject_Z_plus. change (inject_Z 1) with 1. split; lra.
Qed.

Lemma nearestEven_Z (k : Z) : Js.nearestEven (inject_Z k) = k.
Proof.
  unfold Js.nearestEven. cbv zeta. rewrite Qfloor_Z.
  replace (Qcompare (inject_Z k - inject_Z k) (1 # 2)) with Lt; [reflexivity |].
  symmetry. apply Qlt_alt.
  assert (H : inject_Z k - inject_Z k == 0) by ring. rewrite H. reflexivity.
Qed.

#[export] Instance nearestEven_wd : Proper (Qeq ==> eq) Js.nearestEven.
Proof.
  intros y y' E. unfold Js.nearestEven. cbv zeta.
  rewrite (Qfloor_comp _ _ E).
  now rewrite E.
Qed.

Lemma nearestEven_le (y y' : Q) : y <= y' -> (Js.nearestEven y <= Js.nearestEven y')%Z.
Proof.
  intros Hyy. pose proof (Qfloor_resp_le _ _ Hyy) as Hf.
  destruct (Z.eq_dec (Qfloor y) (Qfloor y')) as [Heq | Hne].
  - unfold Js.nearestEven. cbv zeta. rewrite <- Heq.
    destruct (Qcompare (y - inject_Z (Qfloor y)) (1 # 2)) eqn:E;
      destruct (Qcompare (y' - inject_Z (Qfloor y)) (1 # 2)) eqn:E';
      rewrite <- ?Qeq_alt, <- ?Qlt_alt, <- ?Qgt_alt in *;
      try destruct (Z.even (Qfloor y)); try lia; exfalso; lra.
  - destruct (nearestEven_cases y) as [-> | ->];
      destruct (nearestEven_cases y') as [-> | ->]; lia.
Qed.

(** *** Rounding a positive number to 53 significant bits *)

Lemma ulp_pos (x : Q) : 0 < Js.ulp x.
Proof. apply exp2_pos. Qed.

(** The significand of a positive number lies between 2^52 and 2^53. *)
Lemma significand_bounds (x : Q) :
  0 < x ->
  inject_Z (2 ^ 52) <= x / Js.ulp x /\ x / Js.ulp x < inject_Z (2 ^ 53).
Proof.
  intros Hx. destruct (ilog2_spec x Hx) as [Hlo Hhi].
  pose proof (ulp_pos x) as Hu. unfold Js.ulp in *.
  set (e := Js.ilog2 x) in *. set (u := Js.exp2 (e - 52)) in *.
  assert (E1 : Js.exp2 e == inject_Z (2 ^ 52) * u).
  { rewrite <- (exp2_inject 52) by lia. unfold u. rewrite <- exp2_add.
    now replace (52 + (e - 52))%Z with e by lia. }
  assert (E2 : Js.exp2 (e + 1) == inject_Z (2 ^ 53) * u).
  { rewrite <- (exp2_inject 53) by lia. unfold u. rewrite <- exp2_add.
    now replace (53 + (e - 52))%Z with (e + 1)%Z by lia. }
  split.
  - apply Qle_shift_div_l; [exact Hu | lra].
  - apply Qlt_shift_div_r; [exact Hu | lra].
Qed.

Lemma roundPositive_bounds (x : Q) :
  0 < x ->
  Js.exp2 (Js.ilog2 x) <= Js.roundPositive x /\
  Js.roundPositive x <= Js.exp2 (Js.ilog2 x + 1).
Proof.
  intros Hx. destruct (significand_bounds x Hx) as [Hlo Hhi].
  pose proof (ulp_pos x) as Hu. unfold Js.roundPositive, Js.ulp in *.
  set (e := Js.ilog2 x) in *. set (u := Js.exp2 (e - 52)) in *.
  assert (E1 : Js.exp2 e == inject_Z (2 ^ 52) * u).
  { rewrite <- (exp2_inject 52) by lia. unfold u. rewrite <- exp2_add.
    now replace (52 + (e - 52))%Z with e by lia. }
  assert (E2 : Js.exp2 (e + 1) == inject_Z (2 ^ 53) * u).
  { rewrite <- (exp2_inject 53) by lia. unfold u. rewrite <- exp2_add.
    now replace (53 + (e - 52))%Z with (e + 1)%Z by lia. }
  pose proof (nearestEven_le _ _ Hlo) as H1. rewrite nearestEven_Z in H1.
  pose proof (nearestEven_le _ _ (Qlt_le_weak _ _ Hhi)) as H2. rewrite nearestEven_Z in H2.
  rewrite Zle_Qle in H1, H2. rewrite E1, E2. split.
  - apply Qmult_le_compat_r; [exact H1 | lra].
  - apply Qmult_le_compat_r; [exact H2 | lra].
Qed.

Lemma roundPositive_pos (x : Q) : 0 < x -> 0 < Js.roundPositive x.
Proof.
  intros Hx. destruct (roundPositive_bounds x Hx) as [Hlo _].
  pose proof (exp2_pos (Js.ilog2 x)). lra.
Qed.

Lemma roundPositive_wd (x y : Q) :
  0 < x -> x == y -> Js.roundPositive x == Js.roundPositive y.
Proof.
  intros Hx E. unfold Js.roundPositive, Js.ulp.
  rewrite <- (ilog2_wd x y Hx E). set (u := Js.exp2 (Js.ilog2 x - 52)).
  assert (H : Js.nearestEven (x / u) = Js.nearestEven (y / u)).
  { apply nearestEven_wd. now rewrite E. }
  rewrite H. reflexivity.
Qed.

Lemma roundPositive_le (x y : Q) :
  0 < x -> x <= y -> Js.roundPositive x <= Js.roundPositive y.
Proof.
  intros Hx Hxy. assert (Hy : 0 < y) by lra.
  pose proof (ilog2_le x y Hx Hxy) as He.
  destruct (Z.eq_dec (Js.ilog2 x) (Js.ilog2 y)) as [Heq | Hne].
  - unfold Js.roundPositive, Js.ulp. rewrite <- Heq.
    pose proof (exp2_pos (Js.ilog2 x - 52)) as Hu.
    set (u := Js.exp2 (Js.ilog2 x - 52)) in *.
    apply Qmult_le_compat_r; [| lra].
    rewrite <- Zle_Qle. apply nearestEven_le.
    apply Qmult_le_compat_r; [exact Hxy |].
    apply Qlt_le_weak, Qinv_lt_0_compat, Hu.
  - destruct (roundPositive_bounds x Hx) as [_ Hhi].
    destruct (roundPositive_bounds y Hy) as [Hlo _].
    pose proof (exp2_le (Js.ilog2 x + 1) (Js.ilog2 y) ltac:(lia)). lra.
Qed.

(** The error of rounding is at most half a unit in the last place, which
    is at most 2^-53 times the number. *)
Lemma roundPositive_near (x : Q) :
  0 < x ->
  x * (1 - Js.exp2 (-53)) <= Js.roundPositive x /\
  Js.roundPositive x <= x * (1 + Js.exp2 (-53)).
Proof.
  intros Hx. destruct (ilog2_spec x Hx) as [Hlo _].
  pose proof (ulp_pos x) as Hu.
  destruct (nearestEven_near (x / Js.ulp x)) as [Hn1 Hn2].
  unfold Js.roundPositive. unfold Js.ulp in *.
  set (e := Js.ilog2 x) in *. set (u := Js.exp2 (e - 52)) in *.
  set (m := inject_Z (Js.nearestEven (x / u))) in *.
  assert (Ex : x / u * u == x) by (field; lra).
  assert (Eu : u == 2 * (Js.exp2 e * Js.exp2 (-53))).
  { rewrite <- exp2_add, <- exp2_succ. unfold u. now replace (e + -53 + 1)%Z with (e - 52)%Z by lia. }
  assert (H53 : 0 < Js.exp2 (-53)) by apply exp2_pos.
  assert (Hux : u <= 2 * (x * Js.exp2 (-53))).
  { rewrite Eu. apply Qmult_le_l; [reflexivity |]. apply Qmult_le_compat_r; lra. }
  assert (H1 : (x / u - (1 # 2)) * u <= m * u) by (apply Qmult_le_compat_r; lra).
  assert (H2 : m * u <= (x / u + (1 # 2)) * u) by (apply Qmult_le_compat_r; lra).
  split; lra.
Qed.

(** *** Rounding *)

Lemma round_positive (x : Q) : 0 < x -> Js.round x == Js.roundPositive x.
Proof.
  intros Hx. unfold Js.round. destruct (Qcompare x 0) eqn:C.
  - apply Qeq_alt in C. lra.
  - apply Qlt_alt in C. lra.
  - apply Qred_correct.
Qed.

Lemma round_negative (x : Q) : x < 0 -> Js.round x == - Js.roundPositive (- x).
Proof.
  intros Hx. unfold Js.round. destruct (Qcompare x 0) eqn:C.
  - apply Qeq_alt in C. lra.
  - apply Qred_correct.
  - apply Qgt_alt in C. lra.
Qed.

Lemma round_zero (x : Q) : x == 0 -> Js.round x = 0.
Proof.
  intros Hx. unfold Js.round. destruct (Qcompare x 0) eqn:C; [reflexivity | |].
  - apply Qlt_alt in C. lra.
  - apply Qgt_alt in C. lra.
Qed.

#[export] Instance round_wd : Proper (Qeq ==> eq) Js.round.
Proof.
  intros x y E. unfold Js.round.
  replace (Qcompare y 0) with (Qcompare x 0) by (now rewrite E).
  destruct (Qcompare x 0) eqn:C; [reflexivity | |]; apply Qred_complete.
  - apply Qlt_alt in C. apply Qopp_comp, roundPositive_wd; [lra | now rewrite E].
  - apply Qgt_alt in C. now apply roundPositive_wd.
Qed.

Lemma round_opp (x : Q) : Js.round (- x) == - Js.round x.
Proof.
  destruct (Q_dec x 0) as [[H | H] | H].
  - rewrite (round_positive (- x)) by lra. rewrite (round_negative x H). ring.
  - rewrite (round_negative (- x)) by lra. rewrite (round_positive x H).
    apply Qopp_comp, roundPositive_wd; [lra | apply Qopp_involutive].
  - rewrite (round_zero x H), (round_zero (- x)) by lra. reflexivity.
Qed.

Lemma round_pos (x : Q) : 0 < x -> 0 < Js.round x.
Proof. intros Hx. rewrite (round_positive x Hx). now apply roundPositive_pos. Qed.

Lemma round_neg (x : Q) : x < 0 -> Js.round x < 0.
Proof.
  intros Hx. rewrite (round_negative x Hx).
  pose proof (roundPositive_pos (- x) ltac:(lra)). lra.
Qed.

(** Rounding is monotone. *)
Lemma round_le (x y : Q) : x <= y -> Js.round x <= Js.round y.
Proof.
  intros Hxy.
  destruct (Q_dec x 0) as [[Hx | Hx] | Hx]; destruct (Q_dec y 0) as [[Hy | Hy] | Hy];
    try (exfalso; lra).
  - rewrite (round_negative x Hx), (round_negative y Hy).
    pose proof (roundPositive_le (- y) (- x) ltac:(lra) ltac:(lra)). lra.
  - pose proof (round_neg x Hx). pose proof (round_pos y Hy). lra.
  - pose proof (round_neg x Hx). rewrite (round_zero y Hy). lra.
  - rewrite (round_positive x Hx), (round_positive y Hy). now apply roundPositive_le.
  - rewrite (round_zero x Hx). pose proof (round_pos y Hy). lra.
  - rewrite (round_zero x Hx), (round_zero y Hy). lra.
Qed.

(** Rounding keeps the sign: there is no underflow to zero. *)
Lemma round_sign (x : Q) :
  (0 < Js.round x <-> 0 < x) /\ (Js.round x < 0 <-> x < 0) /\ (Js.round x == 0 <-> x == 0).
Proof.
  destruct (Q_dec x 0) as [[H | H] | H].
  - pose proof (round_neg x H). repeat split; intros; lra.
  - pose proof (round_pos x H). repeat split; intros; lra.
  - rewrite (round_zero x H). repeat split; intros; lra.
Qed.

(** The relative error of rounding is at most 2^-53. *)
Lemma round_near (x : Q) :
  0 <= x ->
  x * (1 - Js.exp2 (-53)) <= Js.round x /\ Js.round x <= x * (1 + Js.exp2 (-53)).
Proof.
  intros Hx. destruct (Qle_lt_or_eq _ _ Hx) as [H | H].
  - rewrite (round_positive x H). now apply roundPositive_near.
  - rewrite (round_zero x) by lra. rewrite <- H. split; lra.
Qed.

(** A rounded number is a fixed point of rounding. *)
Lemma roundPositive_idempotent (x : Q) :
  0 < x -> Js.roundPositive (Js.roundPositive x) == Js.roundPositive x.
Proof.
  intros Hx. destruct (significand_bounds x Hx) as [Hlo Hhi].
  pose proof (ulp_pos x) as Hu.
  pose proof (nearestEven_le _ _ Hlo) as H1. rewrite nearestEven_Z in H1.
  pose proof (nearestEven_le _ _ (Qlt_le_weak _ _ Hhi)) as H2. rewrite nearestEven_Z in H2.
  unfold Js.roundPositive at 2 3. unfold Js.ulp in *.
  set (e := Js.ilog2 x) in *. set (u := Js.exp2 (e - 52)) in *.
  set (m := Js.nearestEven (x / u)) in *.
  assert (E1 : Js.exp2 e == inject_Z (2 ^ 52) * u).
  { rewrite <- (exp2_inject 52) by lia. unfold u. rewrite <- exp2_add.
    now replace (52 + (e - 52))%Z with e by lia. }
  assert (E2 : Js.exp2 (e + 1) == inject_Z (2 ^ 53) * u).
  { rewrite <- (exp2_inject 53) by lia. unfold u. rewrite <- exp2_add.
    now replace (53 + (e - 52))%Z with (e + 1)%Z by lia. }
  destruct (Z.eq_dec m (2 ^ 53)) as [Htop | Htop].
  - assert (Ey : inject_Z m * u == Js.exp2 (e + 1)) by (rewrite Htop; lra).
    assert (Hlog : Js.ilog2 (inject_Z m * u) = (e + 1)%Z).
    { apply ilog2_unique; rewrite Ey; [lra |]. apply exp2_lt. lia. }
    unfold Js.roundPositive, Js.ulp. rewrite Hlog.
    replace (e + 1 - 52)%Z with (e - 52 + 1)%Z by lia.
    assert (E3 : Js.exp2 (e - 52 + 1) == 2 * u) by apply exp2_succ.
    assert (Hq : inject_Z m * u / Js.exp2 (e - 52 + 1) == inject_Z (2 ^ 52)).
    { rewrite E3, Htop. change (inject_Z (2 ^ 53)) with (2 * inject_Z (2 ^ 52)).
      generalize (inject_Z (2 ^ 52)). intros c. field. lra. }
    rewrite (nearestEven_wd _ _ Hq), nearestEven_Z, E3, Htop.
    change (inject_Z (2 ^ 53)) with (2 * inject_Z (2 ^ 52)). ring.
  - assert (Hm : (m < 2 ^ 53)%Z) by lia.
    rewrite Zle_Qle in H1. rewrite Zlt_Qlt in Hm.
    assert (Hlog : Js.ilog2 (inject_Z m * u) = e).
    { apply ilog2_unique.
      - rewrite E1. apply Qmult_le_compat_r; lra.
      - rewrite E2. apply Qmult_lt_r; lra. }
    unfold Js.roundPositive, Js.ulp. rewrite Hlog. fold u.
    assert (Hq : inject_Z m * u / u == inject_Z m) by (field; lra).
    now rewrite (nearestEven_wd _ _ Hq), nearestEven_Z.
Qed.

Lemma round_idempotent (x : Q) : Js.round (Js.round x) == Js.round x.
Proof.
  destruct (Q_dec x 0) as [[H | H] | H].
  - pose proof (round_neg x H) as Hr. pose proof (round_negative x H) as Ex.
    assert (E : - Js.round x == Js.roundPositive (- x)) by (rewrite Ex; ring).
    assert (Hp : 0 < - Js.round x) by lra.
    rewrite (round_negative _ Hr), (roundPositive_wd _ _ Hp E).
    rewrite roundPositive_idempotent by lra. lra.
  - pose proof (round_pos x H) as Hr. pose proof (round_positive x H) as Ex.
    rewrite (round_positive _ Hr), (roundPositive_wd _ _ Hr Ex).
    rewrite roundPositive_idempotent by exact H. now symmetry.
  - rewrite (round_zero x H). reflexivity.
Qed.

(** *** The four operations *)

#[export] Instance add_wd : Proper (Qeq ==> Qeq ==> eq) Js.add.
Proof. intros x x' Hx y y' Hy. unfold Js.add. apply round_wd. now rewrite Hx, Hy. Qed.

#[export] Instance sub_wd : Proper (Qeq ==> Qeq ==> eq) Js.sub.
Proof. intros x x' Hx y y' Hy. unfold Js.sub. apply round_wd. now rewrite Hx, Hy. Qed.

#[export] Instance mul_wd : Proper (Qeq ==> Qeq ==> eq) Js.mul.
Proof. intros x x' Hx y y' Hy. unfold Js.mul. apply round_wd. now rewrite Hx, Hy. Qed.

#[export] Instance div_wd : Proper (Qeq ==> Qeq ==> eq) Js.div.
Proof. intros x x' Hx y y' Hy. unfold Js.div. apply round_wd. now rewrite Hx, Hy. Qed.

Lemma add_le (a a' b b' : Q) : a <= a' -> b <= b' -> (a + b)%js <= (a' + b')%js.
Proof. intros Ha Hb. apply round_le. lra. Qed.

Lemma sub_le (a a' b b' : Q) : a <= a' -> b' <= b -> (a - b)%js <= (a' - b')%js.
Proof. intros Ha Hb. apply round_le. lra. Qed.

Lemma mul_le_l (c a b : Q) : 0 <= c -> a <= b -> (c * a)%js <= (c * b)%js.
Proof.
  intros Hc Hab. apply round_le.
  rewrite (Qmult_comm c a), (Qmult_comm c b). now apply Qmult_le_compat_r.
Qed.

Lemma mul_le_r (c a b : Q) : 0 <= c -> a <= b -> (a * c)%js <= (b * c)%js.
Proof. intros Hc Hab. apply round_le. now apply Qmult_le_compat_r. Qed.

Lemma div_le_l (c a b : Q) : 0 < c -> a <= b -> (a / c)%js <= (b / c)%js.
Proof.
  intros Hc Hab. apply round_le. apply Qmult_le_compat_r; [exact Hab |].
  apply Qlt_le_weak, Qinv_lt_0_compat, Hc.
Qed.

Lemma div_le_r (a c c' : Q) : 0 <= a -> 0 < c -> c <= c' -> (a / c')%js <= (a / c)%js.
Proof.
  intros Ha Hc Hcc. apply round_le.
  assert (E : a / c - a / c' == a * (c' - c) / (c * c')) by (field; split; lra).
  assert (Hprod : 0 < c * c') by (apply Qmult_lt_0_compat; lra).
  assert (Hnum : 0 <= a * (c' - c)) by (apply Qmult_le_0_compat; lra).
  assert (H : 0 <= a * (c' - c) / (c * c')) by (apply Qle_shift_div_l; [exact Hprod | lra]).
  lra.
Qed.

Lemma round_nonneg (x : Q) : 0 <= x -> 0 <= Js.round x.
Proof. intros Hx. change 0 with (Js.round 0). now apply round_le. Qed.

Lemma round_nonpos (x : Q) : x <= 0 -> Js.round x <= 0.
Proof. intros Hx. change 0 with (Js.round 0). now apply round_le. Qed.

(** The sign of a difference is the sign of the exact difference. *)
Lemma sub_le_0 (a b : Q) : (a - b)%js <= 0 <-> a <= b.
Proof.
  unfold Js.sub. destruct (round_sign (a - b)) as (Hpos & Hneg & Hzero). split.
  - intros H. apply Qnot_lt_le. intros Hc. assert (0 < Js.round (a - b)) by (apply Hpos; lra). lra.
  - intros H. apply round_nonpos. lra.
Qed.

Lemma sub_gt_0 (a b : Q) : 0 < (a - b)%js <-> b < a.
Proof.
  unfold Js.sub. destruct (round_sign (a - b)) as (Hpos & _). rewrite Hpos. split; intros; lra.
Qed.

(** ** The classifier *)

(** C1, as the code has it: on every snapshot the classifier returns the
    kind, strength and confidence of the row of the five-row decision
    table that is selected top to bottom, first match winning, the volume
    test of the STRONG rows being the code's: the volume exceeds the
    product marketCap * 0.1 as the code computes it. *)
Theorem classify_decision_table (crypto : CryptoApi.CoinGeckoMarket) :
  exists row,
    DecisionTable.selects (DecisionTable.table DecisionTable.volumeAboveTenthOfCap)
                          crypto row /\
    CryptoApi.signal (CryptoApi.generateTechnicalSignal crypto) = DecisionTable.kind row /\
    CryptoApi.strength (CryptoApi.generateTechnicalSignal crypto)
      = DecisionTable.strengthOf row crypto /\
    CryptoApi.confidence (CryptoApi.generateTechnicalSignal crypto)
      = DecisionTable.confidenceOf row.
Proof.
  unfold CryptoApi.generateTechnicalSignal, DecisionTable.table. cbv zeta.
  set (p := CryptoApi.price_change_percentage_24h crypto).
  set (v := CryptoApi.total_volume crypto).
  set (m := CryptoApi.market_cap crypto).
  destruct (Js.gtb v (m * Js.num 0.1)%js) eqn:Evol.
  all: destruct (Js.gtb p 5) eqn:E5; cbn [andb].
  all: try destruct (Js.gtb p 2) eqn:E2.
  all: try destruct (Js.ltb p (-5)) eqn:E5'; cbn [andb].
  all: try destruct (Js.ltb p (-2)) eqn:E2'.
  all: rewrite ?gtb_true_iff, ?gtb_false_iff, ?ltb_true_iff, ?ltb_false_iff in *.
  all: try (exfalso; lra).
  all: eexists; split;
    [ repeat (first
        [ apply DecisionTable.selects_here; cbn;
          unfold DecisionTable.pct, DecisionTable.volumeAboveTenthOfCap; fold p v m;
          first [ exact I | split; [lra | exact Evol] | lra ]
        | apply DecisionTable.selects_later;
          [ cbn; unfold DecisionTable.pct, DecisionTable.volumeAboveTenthOfCap;
            fold p v m; lra | ] ])
    | cbn; repeat split ].
  all: unfold DecisionTable.pct; fold p.
  all: destruct (Qlt_le_dec 1 (Qabs p)) as [Ha | Ha];
    [ apply gtb_true_iff in Ha | apply gtb_false_iff in Ha ]; now rewrite Ha.
Qed.

(** C1, as stated, fails.  A snapshot that gained 6% with a market cap of
    111132815699 and a volume of 11113281569.900002 has a ratio
    volume / marketCap above 0.1, exactly and also when the quotient and
    the bound are doubles, so the table of the specification selects its
    first row, BUY/STRONG/85; the product marketCap * 0.1 rounds to the
    volume itself, and the classifier answers BUY/MODERATE/70. *)
Lemma volume_ratio_counterexample :
  let s := Sample.market 6 (Js.num 11113281569.900002) 111132815699 in
  DecisionTable.ratioAboveTenth s /\
  DecisionTable.roundedRatioAboveTenth s /\
  (exists row,
      DecisionTable.selects (DecisionTable.table DecisionTable.ratioAboveTenth) s row /\
      DecisionTable.kind row = CryptoApi.BUY /\
      DecisionTable.strengthOf row s = CryptoApi.STRONG /\
      DecisionTable.confidenceOf row = 85%Z) /\
  CryptoApi.signal (CryptoApi.generateTechnicalSignal s) = CryptoApi.BUY /\
  CryptoApi.strength (CryptoApi.generateTechnicalSignal s) = CryptoApi.MODERATE /\
  CryptoApi.confidence (CryptoApi.generateTechnicalSignal s) = 70%Z.
Proof.
  cbv zeta.
  assert (Hratio : DecisionTable.ratioAboveTenth
                     (Sample.market 6 (Js.num 11113281569.900002) 111132815699))
    by (vm_compute; reflexivity).
  split; [exact Hratio |]. split; [vm_compute; reflexivity |]. split.
  - eexists. split.
    + apply DecisionTable.selects_here. split; [vm_compute; reflexivity | exact Hratio].
    + repeat split.
  - vm_compute. repeat split.
Qed.

(** C9: the classifier is deterministic in its three numeric inputs: two
    snapshots with equal 24h percentage change, volume and market cap get
    the same kind, strength, confidence and reasoning string, whatever
    their other fields. *)
Theorem classify_deterministic (c1 c2 : CryptoApi.CoinGeckoMarket) :
  CryptoApi.price_change_percentage_24h c1 == CryptoApi.price_change_percentage_24h c2 ->
  CryptoApi.total_volume c1 == CryptoApi.total_volume c2 ->
  CryptoApi.market_cap c1 == CryptoApi.market_cap c2 ->
  CryptoApi.generateTechnicalSignal c1 = CryptoApi.generateTechnicalSignal c2.
Proof.
  intros Hp Hv Hm. unfold CryptoApi.generateTechnicalSignal. cbv zeta.
  repeat rewrite Hp. repeat rewrite Hv. repeat rewrite Hm. reflexivity.
Qed.

Lemma classify_deterministic_witness :
  CryptoApi.generateTechnicalSignal (Sample.market (12 # 2) 20 100)
  = CryptoApi.generateTechnicalSignal
      (Crypto.toMarket 7 (Sample.crypto "ETH" 2650 6 (40 # 2) (200 # 2))).
Proof.
  apply (classify_deterministic (Sample.market (12 # 2) 20 100)
           (Crypto.toMarket 7 (Sample.crypto "ETH" 2650 6 (40 # 2) (200 # 2))));
    reflexivity.
Defined.

(** ** The market-data service *)

Section Retry.

Context {A : Type} (env : Env A).
Hypothesis offline : forall t url, Trace.failed (fetch env t url).

Lemma attempts_app (tr tr' : list Event) :
  Trace.attempts (tr ++ tr') = (Trace.attempts tr + Trace.attempts tr')%nat.
Proof. unfold Trace.attempts. now rewrite filter_app, length_app. Qed.

Lemma sleeps_app (tr tr' : list Event) :
  Trace.sleeps (tr ++ tr') = (Trace.sleeps tr ++ Trace.sleeps tr')%list.
Proof.
  induction tr as [| e tr IH]; [reflexivity |].
  destruct e; cbn; now rewrite IH.
Qed.

(** One failed iteration: what it adds to the trace, and whether the loop
    goes on. *)
Lemma fetchAttempts_failed_step (url : string) (retries k i : nat) (st : Eff) :
  CryptoApi.fetchAttempts env url retries (S k) i st =
    let st2 := emit (ConsoleError "API request failed")
                    (emit (Fetch url) (advance 1 st)) in
    if Nat.eqb i (retries - 1) then (Thrown, st2)
    else CryptoApi.fetchAttempts env url retries k (S i)
           (emit (Sleep (Js.pow2 i * 1000)) st2).
Proof.
  cbn [CryptoApi.fetchAttempts]. pose proof (offline (tick st) url) as Hf.
  destruct (fetch env (tick st) url) as [| [|] status [body |]];
    cbn in Hf; [reflexivity | contradiction | reflexivity ..].
Qed.

(** With the network down the loop makes every remaining attempt, waits
    [2^j] seconds after attempt [j] except after the last one, and
    throws. *)
Lemma fetchAttempts_offline (url : string) (retries : nat) :
  forall remaining i st,
    (remaining + i = retries)%nat -> (0 < remaining)%nat ->
    let r := CryptoApi.fetchAttempts env url retries remaining i st in
    fst r = Thrown /\
    tick (snd r) = (tick st + remaining)%nat /\
    Trace.attempts (events (snd r)) = (Trace.attempts (events st) + remaining)%nat /\
    Trace.sleeps (events (snd r)) =
      (Trace.sleeps (events st)
         ++ map (fun j => (Js.pow2 j * 1000)%N) (seq i (remaining - 1)))%list.
Proof.
  induction remaining as [| k IH]; intros i st Hsum Hpos; [lia |].
  cbv zeta. rewrite fetchAttempts_failed_step. cbv zeta.
  destruct (Nat.eqb i (retries - 1)) eqn:Elast.
  - apply Nat.eqb_eq in Elast. assert (k = 0)%nat by lia. subst k.
    cbn [fst snd emit advance tick events seq map Nat.sub].
    rewrite !attempts_app, !sleeps_app. cbn. rewrite app_nil_r.
    repeat split; lia.
  - apply Nat.eqb_neq in Elast. assert (Hk : (0 < k)%nat) by lia.
    destruct (IH (S i)
                (emit (Sleep (Js.pow2 i * 1000))
                   (emit (ConsoleError "API request failed")
                      (emit (Fetch url) (advance 1 st))))
                ltac:(lia) Hk) as (Hres & Htick & Hatt & Hsl).
    repeat split.
    + exact Hres.
    + rewrite Htick. cbn. lia.
    + rewrite Hatt. cbn [emit advance events tick].
      rewrite !attempts_app. cbn. lia.
    + rewrite Hsl. cbn [emit advance events tick].
      rewrite !sleeps_app. cbn [Trace.sleeps].
      replace (S k - 1)%nat with (S (k - 1)) by lia.
      cbn [seq map]. rewrite !app_nil_r, <- app_assoc. reflexivity.
Qed.

End Retry.

(** C8, as the code has it: when every fetch attempt fails,
    [getTopCryptocurrencies] makes exactly 3 attempts, waits 1s and then 2s
    between them (there is no wait after the last attempt), and returns the
    built-in sample of exactly 5 assets instead of throwing or returning an
    empty list. *)
Theorem getTopCryptocurrencies_offline
        (env : Env (list CryptoApi.CoinGeckoMarket)) (limit : nat) (st : Eff) :
  (forall t url, Trace.failed (fetch env t url)) ->
  let r := CryptoApi.getTopCryptocurrencies env limit st in
  Trace.attempts (events (snd r)) = (Trace.attempts (events st) + 3)%nat /\
  Trace.sleeps (events (snd r)) = (Trace.sleeps (events st) ++ [1000; 2000]%N)%list /\
  exists data st1,
    fst r = Returned data /\
    data = fst (CryptoApi.getFallbackData env st1) /\
    length data = 5%nat /\
    map CryptoApi.symbol data = ["btc"; "eth"; "bnb"; "sol"; "ada"]%string.
Proof.
  intros offline.
  assert (Hretry : forall url,
    let r := CryptoApi.fetchWithRetry env url 3 st in
    fst r = Thrown /\
    Trace.attempts (events (snd r)) = (Trace.attempts (events st) + 3)%nat /\
    Trace.sleeps (events (snd r)) = (Trace.sleeps (events st) ++ [1000; 2000]%N)%list).
  { intros url.
    destruct (fetchAttempts_offline env offline url 3 3 0 st eq_refl ltac:(lia))
      as (Hres & _ & Hatt & Hsl).
    unfold CryptoApi.fetchWithRetry. cbv zeta. auto. }
  assert (Hfallback : forall st1,
    Trace.attempts (events st1) = (Trace.attempts (events st) + 3)%nat ->
    Trace.sleeps (events st1) = (Trace.sleeps (events st) ++ [1000; 2000]%N)%list ->
    let r := (let (data, st2) :=
                CryptoApi.getFallbackData env
                  (emit (ConsoleError "Failed to fetch top cryptocurrencies") st1) in
              (Returned data, st2)) in
    Trace.attempts (events (snd r)) = (Trace.attempts (events st) + 3)%nat /\
    Trace.sleeps (events (snd r)) = (Trace.sleeps (events st) ++ [1000; 2000]%N)%list /\
    exists data st1,
      fst r = Returned data /\
      data = fst (CryptoApi.getFallbackData env st1) /\
      length data = 5%nat /\
      map CryptoApi.symbol data = ["btc"; "eth"; "bnb"; "sol"; "ada"]%string).
  { intros st1 Hatt Hsl. cbn [CryptoApi.getFallbackData fst snd emit advance events tick].
    rewrite attempts_app, sleeps_app, Hatt, Hsl. cbn [Trace.attempts Trace.sleeps].
    split; [cbn; lia |]. split; [now rewrite app_nil_r |].
    eexists. exists (emit (ConsoleError "Failed to fetch top cryptocurrencies") st1).
    split; [reflexivity |]. split; [reflexivity |]. split; reflexivity. }
  unfold CryptoApi.getTopCryptocurrencies. cbv zeta.
  destruct (Nat.leb limit 250) eqn:Hsmall.
  - destruct (Hretry (CryptoApi.marketsUrl limit 1)) as (Hres & Hatt & Hsl).
    destruct (CryptoApi.fetchWithRetry env (CryptoApi.marketsUrl limit 1) 3 st)
      as [c st1]. cbn [fst snd] in *. subst c. now apply Hfallback.
  - apply Nat.leb_gt in Hsmall.
    assert (Hpages : exists k, Nat.div (limit + 249) 250 = S k).
    { destruct (Nat.div (limit + 249) 250) eqn:E; [| eauto].
      apply Nat.div_small_iff in E; lia. }
    destruct Hpages as [k ->]. cbn [CryptoApi.fetchPages].
    destruct (Hretry (CryptoApi.marketsUrl 250 1)) as (Hres & Hatt & Hsl).
    destruct (CryptoApi.fetchWithRetry env (CryptoApi.marketsUrl 250 1) 3 st)
      as [c st1]. cbn [fst snd] in *. subst c. now apply Hfallback.
Qed.

Lemma getTopCryptocurrencies_offline_witness :
  let env := Sample.env (list CryptoApi.CoinGeckoMarket) 0 in
  let r := CryptoApi.getTopCryptocurrencies env 20 Sample.start in
  Trace.attempts (events (snd r)) = 3%nat /\
  Trace.sleeps (events (snd r)) = [1000; 2000]%N /\
  exists data st1,
    fst r = Returned data /\
    data = fst (CryptoApi.getFallbackData env st1) /\
    length data = 5%nat /\
    map CryptoApi.symbol data = ["btc"; "eth"; "bnb"; "sol"; "ada"]%string.
Proof.
  apply (getTopCryptocurrencies_offline (Sample.env _ 0) 20 Sample.start).
  intros t url. exact I.
Defined.

(** C8, as stated, fails: with the network down the waits of
    [getTopCryptocurrencies 20] are 1s and 2s, not 1s, 2s and 4s. *)
Lemma backoff_waits_counterexample :
  let r := CryptoApi.getTopCryptocurrencies (Sample.env _ 0) 20 Sample.start in
  Trace.attempts (events (snd r)) = 3%nat /\
  Trace.sleeps (events (snd r)) = [1000; 2000]%N /\
  Trace.sleeps (events (snd r)) <> [1000; 2000; 4000]%N.
Proof. cbv zeta. split; [reflexivity |]. split; [reflexivity | discriminate]. Qed.

(** ** The retick pass *)

Section Retick.

Import LiveSignalFeed.

Context {A : Type} (env : Env A) (cryptos : list Crypto.Cryptocurrency).

(** *** Rewriting the list by id *)

Lemma applyUpdate_ids sid price performance act prev st :
  map id (fst (applyUpdate env sid price performance act prev st)) = map id prev.
Proof.
  revert st. induction prev as [| s rest IH]; intros st; [reflexivity |].
  cbn [applyUpdate]. destruct (String.eqb (id s) sid).
  - specialize (IH (advance 1 st)).
    destruct (applyUpdate env sid price performance act rest (advance 1 st)).
    cbn in *. now rewrite IH.
  - specialize (IH st).
    destruct (applyUpdate env sid price performance act rest st).
    cbn in *. now rewrite IH.
Qed.

Lemma applyUpdate_events sid price performance act prev st :
  events (snd (applyUpdate env sid price performance act prev st)) = events st.
Proof.
  revert st. induction prev as [| s rest IH]; intros st; [reflexivity |].
  cbn [applyUpdate]. destruct (String.eqb (id s) sid).
  - specialize (IH (advance 1 st)).
    destruct (applyUpdate env sid price performance act rest (advance 1 st)).
    exact IH.
  - specialize (IH st).
    destruct (applyUpdate env sid price performance act rest st).
    exact IH.
Qed.

(** An entry with another id is left as it is. *)
Lemma applyUpdate_other sid price performance act prev st i x :
  nth_error prev i = Some x -> id x <> sid ->
  nth_error (fst (applyUpdate env sid price performance act prev st)) i = Some x.
Proof.
  revert st i. induction prev as [| s rest IH]; intros st i Hi Hid.
  - destruct i; discriminate.
  - cbn [applyUpdate]. destruct (String.eqb (id s) sid) eqn:E.
    + specialize (IH (advance 1 st)).
      destruct (applyUpdate env sid price performance act rest (advance 1 st)).
      destruct i as [| i]; cbn in *.
      * injection Hi as ->. apply String.eqb_eq in E. contradiction.
      * now apply IH.
    + specialize (IH st).
      destruct (applyUpdate env sid price performance act rest st).
      destruct i as [| i]; cbn in *; [exact Hi | now apply IH].
Qed.

(** An entry with the id gets the four new fields and keeps the rest. *)
Lemma applyUpdate_self sid price performance act prev st i x :
  nth_error prev i = Some x -> id x = sid ->
  exists n,
    (tick st <= n)%nat /\
    nth_error (fst (applyUpdate env sid price performance act prev st)) i
    = Some (withUpdate x price performance act (clock env n)).
Proof.
  revert st i. induction prev as [| s rest IH]; intros st i Hi Hid.
  - destruct i; discriminate.
  - cbn [applyUpdate]. destruct (String.eqb (id s) sid) eqn:E.
    + specialize (IH (advance 1 st)).
      destruct (applyUpdate env sid price performance act rest (advance 1 st)).
      destruct i as [| i]; cbn in *.
      * injection Hi as ->. exists (tick st). split; [lia | reflexivity].
      * destruct (IH i Hi Hid) as (n & Hn & H). exists n. split; [lia | exact H].
    + specialize (IH st).
      destruct (applyUpdate env sid price performance act rest st).
      destruct i as [| i]; cbn in *.
      * injection Hi as ->. apply String.eqb_neq in E. contradiction.
      * now apply IH.
Qed.


(** *** One iteration *)

Lemma retickOne_ids signal store st :
  map id (snd (fst (retickOne env cryptos signal store st))) = map id store.
Proof.
  unfold retickOne. destruct (findCrypto cryptos (symbol signal)); [| reflexivity].
  cbv zeta. repeat match goal with
  | |- context [if ?b then _ else _] => destruct b; [reflexivity |]
  end.
  match goal with
  | |- context [applyUpdate ?e ?a ?b ?c ?d ?l ?s] =>
      pose proof (applyUpdate_ids a b c d l s) as H;
      destruct (applyUpdate e a b c d l s)
  end.
  exact H.
Qed.

Lemma retickOne_other signal store st i x :
  nth_error store i = Some x ->
  (findCrypto cryptos (symbol signal) <> None -> id signal <> id x) ->
  nth_error (snd (fst (retickOne env cryptos signal store st))) i = Some x.
Proof.
  intros Hi Hid. unfold retickOne.
  destruct (findCrypto cryptos (symbol signal)); [| exact Hi].
  cbv zeta. repeat match goal with
  | |- context [if ?b then _ else _] => destruct b; [exact Hi |]
  end.
  match goal with
  | |- context [applyUpdate ?e ?a ?b ?c ?d ?l ?s] =>
      pose proof (applyUpdate_other a b c d l s i x Hi) as H;
      destruct (applyUpdate e a b c d l s)
  end.
  apply H. intros E. apply Hid; [discriminate | now symmetry].
Qed.




Lemma retickOne_skip signal store st :
  findCrypto cryptos (symbol signal) = None ->
  retickOne env cryptos signal store st = (true, store, st).
Proof. intros Hfind. unfold retickOne. now rewrite Hfind. Qed.

End Retick.

Section RetickPass.

Import LiveSignalFeed.

Context {A : Type} (env : Env A).

(** *** The loop *)

Lemma retickLoop_ids cryptos todo store st :
  map id (fst (retickLoop env cryptos todo store st)) = map id store.
Proof.
  revert store st. induction todo as [| signal rest IH]; intros store st;
    [reflexivity |].
  cbn [retickLoop]. pose proof (retickOne_ids env cryptos signal store st) as H.
  destruct (retickOne env cryptos signal store st) as [[[|] store'] st'];
    cbn [fst snd] in *; [now rewrite IH | exact H].
Qed.

(** Frame: an entry whose id is the id of no processed signal is left as
    it is, whether or not the pass is cut short by a store failure. *)
Lemma retickLoop_other cryptos todo store st i x :
  nth_error store i = Some x ->
  (forall a, In a todo -> findCrypto cryptos (symbol a) <> None -> id a <> id x) ->
  nth_error (fst (retickLoop env cryptos todo store st)) i = Some x.
Proof.
  revert store st. induction todo as [| signal rest IH]; intros store st Hi Hid;
    [exact Hi |].
  cbn [retickLoop].
  pose proof (retickOne_other env cryptos signal store st i x Hi
                (Hid signal (or_introl eq_refl))) as H.
  destruct (retickOne env cryptos signal store st) as [[[|] store'] st'];
    cbn [fst snd] in *; [| exact H].
  apply IH; [exact H |]. intros a Ha. apply Hid. now right.
Qed.



(** *** The pass *)

Lemma NoDup_map_filter {X Y} (f : X -> Y) (p : X -> bool) (l : list X) :
  NoDup (map f l) -> NoDup (map f (filter p l)).
Proof.
  induction l as [| x l IH]; cbn; intros H; [constructor |].
  apply NoDup_cons_iff in H as [Hx Hl]. destruct (p x); cbn; [| now apply IH].
  constructor; [| now apply IH].
  intros Hin. apply Hx. apply in_map_iff in Hin as (y & Hy & Hyin).
  apply filter_In in Hyin as [Hyin _]. rewrite <- Hy. now apply in_map.
Qed.

Lemma NoDup_map_nth_error {X Y} (f : X -> Y) (l : list X) i x y :
  NoDup (map f l) -> nth_error l i = Some x -> In y l -> f y = f x -> y = x.
Proof.
  revert i. induction l as [| z l IH]; intros i Hnd Hi Hy E; [contradiction |].
  cbn in Hnd. apply NoDup_cons_iff in Hnd as [Hz Hl].
  destruct i as [| i]; cbn in Hi.
  - injection Hi as ->. destruct Hy as [-> | Hy]; [reflexivity |].
    exfalso. apply Hz. rewrite <- E. now apply in_map.
  - destruct Hy as [-> | Hy].
    + exfalso. apply Hz. rewrite E. apply in_map. eapply nth_error_In; eauto.
    + eapply IH; eauto.
Qed.

Lemma updateSignalPerformance_ids user signals cryptos st :
  map id (fst (updateSignalPerformance env user signals cryptos st)) = map id signals.
Proof.
  unfold updateSignalPerformance.
  destruct (negb user || Nat.eqb (length signals) 0 || Nat.eqb (length cryptos) 0);
    [reflexivity | apply retickLoop_ids].
Qed.

(** An entry is untouched by a pass unless it is itself open and has a
    matching snapshot (identifiers being unique). *)
Lemma updateSignalPerformance_untouched user signals cryptos st i s :
  NoDup (map id signals) ->
  nth_error signals i = Some s ->
  isActive s = false \/ findCrypto cryptos (symbol s) = None ->
  nth_error (fst (updateSignalPerformance env user signals cryptos st)) i = Some s.
Proof.
  intros Hnd Hi Hs. unfold updateSignalPerformance.
  destruct (negb user || Nat.eqb (length signals) 0 || Nat.eqb (length cryptos) 0);
    [exact Hi |].
  apply retickLoop_other; [exact Hi |].
  intros a Ha Hfound E. apply filter_In in Ha as [Ha Hact].
  assert (a = s) by (eapply NoDup_map_nth_error; eauto). subst a.
  destruct Hs as [Hs | Hs]; [congruence | contradiction].
Qed.

End RetickPass.

(** *** The closing checks *)


Lemma truthy_zero (q : Q) : q == 0 -> Js.truthy (Some q) = false.
Proof. intros H. cbn. apply negb_false_iff. now apply Qeq_bool_iff. Qed.



Lemma statusOf_hold (s : LiveSignalFeed.LiveSignal) (price : Q) :
  LiveSignalFeed.signalType s = CryptoApi.HOLD ->
  LiveSignalFeed.statusOf s price = LiveSignalFeed.active.
Proof.
  intros Hk. unfold LiveSignalFeed.statusOf, LiveSignalFeed.isKind. rewrite Hk.
  now rewrite !andb_false_r.
Qed.




(** C4: an open signal whose symbol has no entry in the snapshot list is
    left entirely unchanged by a retick pass (every field, at the same
    position of a list with unique ids), and the loop goes on with the
    remaining signals. *)
Theorem retick_skips_unmatched {A} (env : Env A) (user : bool)
        (signals : list LiveSignalFeed.LiveSignal) (cryptos : list Crypto.Cryptocurrency)
        (st : Eff) (i : nat) (s : LiveSignalFeed.LiveSignal) :
  NoDup (map LiveSignalFeed.id signals) ->
  nth_error signals i = Some s ->
  LiveSignalFeed.isActive s = true ->
  LiveSignalFeed.findCrypto cryptos (LiveSignalFeed.symbol s) = None ->
  nth_error (fst (LiveSignalFeed.updateSignalPerformance env user signals cryptos st)) i
    = Some s /\
  forall rest store st',
    LiveSignalFeed.retickLoop env cryptos (s :: rest) store st'
    = LiveSignalFeed.retickLoop env cryptos rest store st'.
Proof.
  intros Hnd Hi _ Hfind. split.
  - apply updateSignalPerformance_untouched; auto.
  - intros rest store st'. cbn [LiveSignalFeed.retickLoop].
    now rewrite retickOne_skip.
Qed.

Lemma retick_skips_unmatched_witness :
  nth_error
    (fst (LiveSignalFeed.updateSignalPerformance (Sample.env unit 0) true
            [Sample.liveSignal "live_signal_0" "DOGE" CryptoApi.SELL 1 (Some (1 # 2)) (Some 2);
             Sample.btcSignal]
            (Sample.btcAt 250) Sample.start)) 0
  = Some (Sample.liveSignal "live_signal_0" "DOGE" CryptoApi.SELL 1 (Some (1 # 2)) (Some 2)).
Proof.
  apply (proj1 (retick_skips_unmatched (Sample.env unit 0) true
                  [Sample.liveSignal "live_signal_0" "DOGE" CryptoApi.SELL 1
                                     (Some (1 # 2)) (Some 2);
                   Sample.btcSignal]
                  (Sample.btcAt 250) Sample.start 0
                  (Sample.liveSignal "live_signal_0" "DOGE" CryptoApi.SELL 1
                                     (Some (1 # 2)) (Some 2))
                  ltac:(repeat constructor; cbn; intuition discriminate)
                  ltac:(reflexivity) ltac:(reflexivity) ltac:(reflexivity))).
Defined.

(** C5: a closed signal never reopens.  Through every sequence of retick
    passes, from any list with unique ids, a signal that is closed before
    is closed after (it is not touched at all). *)
Theorem closed_signals_never_reopen {A} (env : Env A) (user : bool)
        (passes : list (list Crypto.Cryptocurrency)) :
  forall (signals : list LiveSignalFeed.LiveSignal) (st : Eff)
         (i : nat) (s : LiveSignalFeed.LiveSignal),
    NoDup (map LiveSignalFeed.id signals) ->
    nth_error signals i = Some s ->
    LiveSignalFeed.isActive s = false ->
    exists s',
      nth_error (fst (LiveSignalFeed.reticks env user passes signals st)) i = Some s' /\
      LiveSignalFeed.isActive s' = false /\ s' = s.
Proof.
  induction passes as [| cryptos later IH]; intros signals st i s Hnd Hi Hclosed.
  - exists s. auto.
  - cbn [LiveSignalFeed.reticks].
    pose proof (updateSignalPerformance_ids env user signals cryptos st) as Hids.
    pose proof (updateSignalPerformance_untouched env user signals cryptos st i s
                  Hnd Hi (or_introl Hclosed)) as Hkeep.
    destruct (LiveSignalFeed.updateSignalPerformance env user signals cryptos st)
      as [signals' st'].
    cbn [fst] in *. apply IH; [now rewrite Hids | exact Hkeep | exact Hclosed].
Qed.

Lemma closed_signals_never_reopen_witness :
  exists s',
    nth_error
      (fst (LiveSignalFeed.reticks (Sample.env unit 0) true
              [Sample.btcAt 250; Sample.btcAt 120; Sample.btcAt 40]
              [LiveSignalFeed.withUpdate Sample.btcSignal 210 110 false "2024-01-02";
               Sample.liveSignal "live_signal_2" "BTC" CryptoApi.SELL 100 (Some 90) (Some 130)]
              Sample.start)) 0
    = Some s' /\
    LiveSignalFeed.isActive s' = false /\
    s' = LiveSignalFeed.withUpdate Sample.btcSignal 210 110 false "2024-01-02".
Proof.
  apply (closed_signals_never_reopen (Sample.env unit 0) true
           [Sample.btcAt 250; Sample.btcAt 120; Sample.btcAt 40]
           [LiveSignalFeed.withUpdate Sample.btcSignal 210 110 false "2024-01-02";
            Sample.liveSignal "live_signal_2" "BTC" CryptoApi.SELL 100 (Some 90) (Some 130)]
           Sample.start 0
           (LiveSignalFeed.withUpdate Sample.btcSignal 210 110 false "2024-01-02")).
  - repeat constructor; cbn; intuition discriminate.
  - reflexivity.
  - reflexivity.
Defined.

(** *** Zero bounds *)

Lemma statusOf_zero_target (s : LiveSignalFeed.LiveSignal) (price target : Q) :
  LiveSignalFeed.targetPrice s = Some target -> target == 0 ->
  LiveSignalFeed.statusOf s price <> LiveSignalFeed.hit_target /\
  LiveSignalFeed.statusOf s price = LiveSignalFeed.statusOf (withoutTarget s) price.
Proof.
  intros Ht Hz. unfold LiveSignalFeed.statusOf, LiveSignalFeed.isKind.
  cbn [withoutTarget LiveSignalFeed.targetPrice LiveSignalFeed.stopLoss
       LiveSignalFeed.signalType].
  rewrite Ht, (truthy_zero _ Hz). cbn [andb Js.truthy].
  split; [| reflexivity].
  repeat match goal with
  | |- context [if ?b then _ else _] => destruct b
  end; discriminate.
Qed.

Lemma statusOf_zero_stop (s : LiveSignalFeed.LiveSignal) (price stop : Q) :
  LiveSignalFeed.stopLoss s = Some stop -> stop == 0 ->
  LiveSignalFeed.statusOf s price <> LiveSignalFeed.hit_stop_loss /\
  LiveSignalFeed.statusOf s price = LiveSignalFeed.statusOf (withoutStopLoss s) price.
Proof.
  intros Hl Hz. unfold LiveSignalFeed.statusOf, LiveSignalFeed.isKind.
  cbn [withoutStopLoss LiveSignalFeed.targetPrice LiveSignalFeed.stopLoss
       LiveSignalFeed.signalType].
  rewrite Hl, (truthy_zero _ Hz). cbn [andb Js.truthy].
  split; [| reflexivity].
  repeat match goal with
  | |- context [if ?b then _ else _] => destruct b
  end; discriminate.
Qed.

Section RetickLog.

Import LiveSignalFeed.

Context {A : Type} (env : Env A) (cryptos : list Crypto.Cryptocurrency).

Lemma toastsOf_toasts signal price e :
  In e (toastsOf signal price) -> exists kind, e = Toast kind.
Proof.
  unfold toastsOf. cbv zeta. rewrite in_app_iff. intros [H | H].
  - destruct (statusOf signal price); [contradiction | |];
      destruct (isActive signal); try contradiction;
      destruct H as [<- | []]; eauto.
  - repeat match type of H with
    | In _ (if ?b then _ else _) => destruct b
    end; try contradiction.
    destruct H as [<- | []]; eauto.
Qed.

(** An update logged by one iteration is logged for the signal of the
    iteration, with the type of the status computed for it. *)
Lemma retickOne_logged signal store st sid price performance reason :
  In (DbSignalUpdatesCreate sid price performance reason)
     (events (snd (retickOne env cryptos signal store st))) ->
  In (DbSignalUpdatesCreate sid price performance reason) (events st) \/
  (sid = id signal /\ reason = updateType (statusOf signal price)).
Proof.
  unfold retickOne. destruct (findCrypto cryptos (symbol signal)); [| now left].
  cbv zeta.
  assert (Htoast : forall tr,
    In (DbSignalUpdatesCreate sid price performance reason)
       (tr ++ toastsOf signal (Crypto.currentPrice c)) ->
    In (DbSignalUpdatesCreate sid price performance reason) tr).
  { intros tr H. apply in_app_iff in H as [H | H]; [exact H |].
    apply toastsOf_toasts in H as [kind H]. discriminate. }
  match goal with
  | |- context [if ?b then _ else _] => destruct b
  end.
  { cbn [snd advance events tick]. intros H. left. now apply Htoast. }
  match goal with
  | |- context [if ?b then _ else _] => destruct b
  end.
  { cbn [snd emit advance events tick]. rewrite in_app_iff.
    intros [H | [H | []]]; [left; now apply Htoast | discriminate]. }
  match goal with
  | |- context [applyUpdate ?e ?a ?b ?c ?d ?l ?s] =>
      pose proof (applyUpdate_events e a b c d l s) as Hev;
      destruct (applyUpdate e a b c d l s)
  end.
  cbn [fst snd] in *. rewrite Hev. cbn [emit advance events tick].
  intros H. apply in_app_iff in H as [H | H];
    [apply in_app_iff in H as [H | H] |].
  - left. now apply Htoast.
  - destruct H as [H | []]. discriminate.
  - destruct H as [H | []]. injection H as <- <- <- <-. now right.
Qed.

Lemma retickLoop_logged todo store st sid price performance reason :
  In (DbSignalUpdatesCreate sid price performance reason)
     (events (snd (retickLoop env cryptos todo store st))) ->
  In (DbSignalUpdatesCreate sid price performance reason) (events st) \/
  exists a, In a todo /\ sid = id a /\ reason = updateType (statusOf a price).
Proof.
  revert store st. induction todo as [| signal rest IH]; intros store st H;
    [now left |].
  cbn [retickLoop] in H.
  pose proof (retickOne_logged signal store st sid price performance reason) as Hone.
  destruct (retickOne env cryptos signal store st) as [[[|] store'] st'];
    cbn [fst snd] in *.
  - apply IH in H as [H | (a & Ha & Hid & Hr)].
    + apply Hone in H as [H | [Hid Hr]]; [now left |].
      right. exists signal. split; [now left | auto].
    + right. exists a. split; [now right | auto].
  - cbn [emit events] in H. apply in_app_iff in H as [H | [H | []]]; [| discriminate].
    apply Hone in H as [H | [Hid Hr]]; [now left |].
    right. exists signal. split; [now left | auto].
Qed.

End RetickLog.

(** C10: a target or stop-loss of exactly 0 is treated as absent.  For a
    signal whose target is 0, at every current price the closing checks
    never take the hit-target branch and decide exactly as for the same
    signal without a target, and no retick pass (over a list with unique
    ids) logs a hit-target close for it; likewise for a stop-loss of 0 and
    the hit-stop-loss branch. *)
Theorem zero_bound_is_absent {A} (env : Env A) (user : bool)
        (signals : list LiveSignalFeed.LiveSignal) (cryptos : list Crypto.Cryptocurrency)
        (st : Eff) (i : nat) (s : LiveSignalFeed.LiveSignal) :
  NoDup (map LiveSignalFeed.id signals) ->
  nth_error signals i = Some s ->
  let r := LiveSignalFeed.updateSignalPerformance env user signals cryptos st in
  (forall target, LiveSignalFeed.targetPrice s = Some target -> target == 0 ->
     forall price,
       LiveSignalFeed.statusOf s price <> LiveSignalFeed.hit_target /\
       LiveSignalFeed.statusOf s price = LiveSignalFeed.statusOf (withoutTarget s) price /\
       forall performance,
         In (DbSignalUpdatesCreate (LiveSignalFeed.id s) price performance "hit_target")
            (events (snd r)) ->
         In (DbSignalUpdatesCreate (LiveSignalFeed.id s) price performance "hit_target")
            (events st)) /\
  (forall stop, LiveSignalFeed.stopLoss s = Some stop -> stop == 0 ->
     forall price,
       LiveSignalFeed.statusOf s price <> LiveSignalFeed.hit_stop_loss /\
       LiveSignalFeed.statusOf s price = LiveSignalFeed.statusOf (withoutStopLoss s) price /\
       forall performance,
         In (DbSignalUpdatesCreate (LiveSignalFeed.id s) price performance "hit_stop_loss")
            (events (snd r)) ->
         In (DbSignalUpdatesCreate (LiveSignalFeed.id s) price performance "hit_stop_loss")
            (events st)).
Proof.
  intros Hnd Hi. cbv zeta.
  assert (Hlogged : forall price performance reason,
    In (DbSignalUpdatesCreate (LiveSignalFeed.id s) price performance reason)
       (events (snd (LiveSignalFeed.updateSignalPerformance env user signals cryptos st))) ->
    In (DbSignalUpdatesCreate (LiveSignalFeed.id s) price performance reason) (events st) \/
    reason = LiveSignalFeed.updateType (LiveSignalFeed.statusOf s price)).
  { intros price performance reason. unfold LiveSignalFeed.updateSignalPerformance.
    destruct (negb user || Nat.eqb (length signals) 0 || Nat.eqb (length cryptos) 0);
      [now left |].
    intros H. apply retickLoop_logged in H as [H | (a & Ha & Hid & Hr)]; [now left |].
    apply filter_In in Ha as [Ha _].
    assert (a = s) by (eapply NoDup_map_nth_error; eauto). subst a. now right. }
  split.
  - intros target Ht Hz price.
    destruct (statusOf_zero_target s price target Ht Hz) as [Hne Heq].
    split; [exact Hne |]. split; [exact Heq |].
    intros performance H. apply Hlogged in H as [H | H]; [exact H |].
    destruct (LiveSignalFeed.statusOf s price); try discriminate. contradiction.
  - intros stop Hl Hz price.
    destruct (statusOf_zero_stop s price stop Hl Hz) as [Hne Heq].
    split; [exact Hne |]. split; [exact Heq |].
    intros performance H. apply Hlogged in H as [H | H]; [exact H |].
    destruct (LiveSignalFeed.statusOf s price); try discriminate. contradiction.
Qed.

Lemma zero_bound_is_absent_witness :
  LiveSignalFeed.statusOf
    (Sample.liveSignal "live_signal_3" "BTC" CryptoApi.BUY 100 (Some 0) (Some 50)) 250
  <> LiveSignalFeed.hit_target /\
  LiveSignalFeed.statusOf
    (Sample.liveSignal "live_signal_4" "BTC" CryptoApi.SELL 100 (Some 90) (Some 0)) 250
  <> LiveSignalFeed.hit_stop_loss.
Proof.
  split.
  - apply (proj1 (zero_bound_is_absent (Sample.env unit 0) true
                    [Sample.liveSignal "live_signal_3" "BTC" CryptoApi.BUY 100
                                       (Some 0) (Some 50)]
                    (Sample.btcAt 250) Sample.start 0
                    (Sample.liveSignal "live_signal_3" "BTC" CryptoApi.BUY 100
                                       (Some 0) (Some 50))
                    ltac:(repeat constructor; cbn; tauto) ltac:(reflexivity))
                 0 ltac:(reflexivity) ltac:(reflexivity) 250).
  - apply (proj2 (zero_bound_is_absent (Sample.env unit 0) true
                    [Sample.liveSignal "live_signal_4" "BTC" CryptoApi.SELL 100
                                       (Some 90) (Some 0)]
                    (Sample.btcAt 250) Sample.start 0
                    (Sample.liveSignal "live_signal_4" "BTC" CryptoApi.SELL 100
                                       (Some 90) (Some 0))
                    ltac:(repeat constructor; cbn; tauto) ltac:(reflexivity))
                 0 ltac:(reflexivity) ltac:(reflexivity) 250).
Defined.

(** C2 fails on the code.  The signal has a single price field: it holds
    the entry price at creation and every pass overwrites it with the
    current price, so the next pass measures performance from the previous
    tick.  A BUY entered at 100 and reticked at 110 and then at 121 ends
    with price field 121 and performance 10, where (121 - 100) / 100 * 100
    is 21. *)
Theorem entry_price_overwritten_by_retick :
  let env := Sample.env unit 0 in
  let after1 := fst (LiveSignalFeed.updateSignalPerformance env true
                       [Sample.btcSignal] (Sample.btcAt 110) Sample.start) in
  let after2 := fst (LiveSignalFeed.reticks env true
                       [Sample.btcAt 110; Sample.btcAt 121]
                       [Sample.btcSignal] Sample.start) in
  LiveSignalFeed.currentPrice Sample.btcSignal = 100 /\
  map LiveSignalFeed.currentPrice after1 = [110] /\
  map LiveSignalFeed.currentPrice after2 = [121] /\
  Forall (fun s => LiveSignalFeed.performancePercentage s == 10) after2 /\
  Forall (fun s => ~ LiveSignalFeed.performancePercentage s
                     == (121 - 100) / 100 * 100) after2.
Proof.
  cbv zeta. split; [reflexivity |].
  split; [vm_compute; reflexivity |]. split; [vm_compute; reflexivity |]. split.
  - vm_compute. constructor; [reflexivity | constructor].
  - vm_compute. constructor; [discriminate | constructor].
Qed.

(** ** Minting *)

Section Minting.

Context {A : Type} (env : Env A).

(** Whatever holds of every signal built by the loop body of the live
    feed, for a classification that is not HOLD, holds of every signal the
    loop returns. *)
Lemma live_mintLoop_all (P : LiveSignalFeed.LiveSignal -> Prop) :
  (forall crypto st,
      let technicalSignal :=
        CryptoApi.generateTechnicalSignal (Crypto.toMarket 1 crypto) in
      CryptoApi.signal technicalSignal <> CryptoApi.HOLD ->
      P (LiveSignalFeed.mintOne env technicalSignal crypto st)) ->
  forall topCryptos newSignals st minted st',
    Forall P newSignals ->
    LiveSignalFeed.mintLoop env topCryptos newSignals st = (Returned minted, st') ->
    Forall P minted.
Proof.
  intros Hbody. induction topCryptos as [| crypto rest IH];
    intros newSignals st minted st' Hacc Hrun; cbn [LiveSignalFeed.mintLoop] in Hrun.
  - now injection Hrun as <- _.
  - specialize (Hbody crypto st). cbv zeta in Hbody, Hrun.
    destruct (CryptoApi.signal
                (CryptoApi.generateTechnicalSignal (Crypto.toMarket 1 crypto))) eqn:Hk.
    3: exact (IH newSignals st minted st' Hacc Hrun).
    all: destruct (dbOk env (tick st + 5)); [| discriminate].
    all: eapply IH; [| exact Hrun].
    all: apply Forall_app; split; [exact Hacc |].
    all: constructor; [| constructor].
    all: apply Hbody; discriminate.
Qed.

Lemma generateNewSignals_all (P : LiveSignalFeed.LiveSignal -> Prop) user cryptos signals st :
  (forall crypto st,
      let technicalSignal :=
        CryptoApi.generateTechnicalSignal (Crypto.toMarket 1 crypto) in
      CryptoApi.signal technicalSignal <> CryptoApi.HOLD ->
      P (LiveSignalFeed.mintOne env technicalSignal crypto st)) ->
  Forall P (fst (fst (LiveSignalFeed.generateNewSignals env user cryptos signals st))).
Proof.
  intros Hbody. unfold LiveSignalFeed.generateNewSignals.
  destruct (negb user || Nat.eqb (length cryptos) 0); [constructor |]. cbv zeta.
  destruct (LiveSignalFeed.mintLoop env (firstn 6 (LiveSignalFeed.sort cryptos)) [] st)
    as [[minted | |] st'] eqn:Hrun; cbn [fst]; try constructor.
  eapply live_mintLoop_all; eauto.
Qed.

(** The dashboard keeps every signal its loop body builds. *)
Lemma dashboard_mintLoop_all (P : Dashboard.Signal -> Prop) :
  (forall i crypto st, P (fst (Dashboard.mintOne env i crypto st))) ->
  forall topCryptos i newSignals st,
    Forall P newSignals ->
    Forall P (fst (Dashboard.mintLoop env i topCryptos newSignals st)).
Proof.
  intros Hbody. induction topCryptos as [| crypto rest IH];
    intros i newSignals st Hacc; cbn [Dashboard.mintLoop]; [exact Hacc |].
  specialize (Hbody i crypto st).
  destruct (Dashboard.mintOne env i crypto st) as [s st1]. cbn [fst] in Hbody.
  apply IH. apply Forall_app. split; [exact Hacc | now constructor].
Qed.

Lemma generateSignals_all (P : Dashboard.Signal -> Prop) user cryptos signals st :
  (forall i crypto st, P (fst (Dashboard.mintOne env i crypto st))) ->
  Forall P (fst (fst (Dashboard.generateSignals env user cryptos signals st))).
Proof.
  intros Hbody. unfold Dashboard.generateSignals.
  destruct (negb user); [constructor |]. cbv zeta.
  pose proof (dashboard_mintLoop_all P Hbody
                (firstn (Nat.min 5 (length (firstn 8 cryptos))) (firstn 8 cryptos))
                0%nat [] st (Forall_nil _)) as H.
  destruct (Dashboard.mintLoop env 0
              (firstn (Nat.min 5 (length (firstn 8 cryptos))) (firstn 8 cryptos)) [] st).
  exact H.
Qed.

End Minting.

(** C6, as the code has it: every signal minted by the live feed's
    [generateNewSignals] has kind BUY or SELL, for every snapshot list and
    every run; the dashboard's [generateSignals] keeps HOLD results as well,
    and its signals carry a target and a stop-loss exactly when their kind
    is not HOLD. *)
Theorem live_feed_never_mints_hold {A} (env : Env A) (user : bool)
        (cryptos : list Crypto.Cryptocurrency) (st : Eff) :
  (forall signals,
      Forall (fun s => LiveSignalFeed.signalType s = CryptoApi.BUY \/
                       LiveSignalFeed.signalType s = CryptoApi.SELL)
             (fst (fst (LiveSignalFeed.generateNewSignals env user cryptos signals st)))) /\
  (forall signals,
      Forall (fun s => match Dashboard.signalType s with
                       | CryptoApi.HOLD =>
                           Dashboard.targetPrice s = None /\ Dashboard.stopLoss s = None
                       | _ =>
                           Dashboard.targetPrice s <> None /\ Dashboard.stopLoss s <> None
                       end)
             (fst (fst (Dashboard.generateSignals env user cryptos signals st)))).
Proof.
  split; intros signals.
  - apply generateNewSignals_all. intros crypto st0. cbv zeta.
    cbn [LiveSignalFeed.mintOne LiveSignalFeed.signalType].
    destruct (CryptoApi.signal _); [now left | now right | congruence].
  - apply generateSignals_all. intros i crypto st0.
    unfold Dashboard.mintOne. cbv zeta.
    cbn [fst Dashboard.signalType Dashboard.targetPrice Dashboard.stopLoss].
    destruct (CryptoApi.signal _); cbn; split; congruence.
Qed.

(** C6, as stated, fails: the dashboard's [generateSignals] mints a HOLD
    signal for a snapshot that moved by 1.05%. *)
Lemma dashboard_mints_hold_counterexample :
  exists s,
    In s (fst (fst (Dashboard.generateSignals (Sample.env unit 0) true
                      [Sample.crypto "BTC" 43250 1.05 18500000000 847500000000]
                      [] Sample.start))) /\
    Dashboard.signalType s = CryptoApi.HOLD.
Proof. eexists. split; [left; reflexivity | reflexivity]. Qed.

(** *** Sizing

    Every rounded operation is monotone, so a factor [1 + r * c + d] or
    [1 - r * c - d] lies between its values at the draws 0 and 1. *)

Lemma factor_up (r c d : Q) :
  0 <= r -> r <= 1 -> 0 <= c ->
  (1 + 0 * c + d)%js <= (1 + r * c + d)%js /\
  (1 + r * c + d)%js <= (1 + 1 * c + d)%js.
Proof.
  intros Hr0 Hr1 Hc. split; apply add_le; try lra; apply add_le; try lra;
    now apply mul_le_r.
Qed.

Lemma factor_down (r c d : Q) :
  0 <= r -> r <= 1 -> 0 <= c ->
  (1 - 1 * c - d)%js <= (1 - r * c - d)%js /\
  (1 - r * c - d)%js <= (1 - 0 * c - d)%js.
Proof.
  intros Hr0 Hr1 Hc. split; apply sub_le; try lra; apply sub_le; try lra;
    now apply mul_le_r.
Qed.

Lemma within_up (e r c d lo hi : Q) :
  0 <= e -> 0 <= r -> r <= 1 -> 0 <= c ->
  (1 + 0 * c + d)%js = lo -> (1 + 1 * c + d)%js = hi ->
  Sizing.within e lo hi (e * (1 + r * c + d))%js.
Proof.
  intros He Hr0 Hr1 Hc <- <-. destruct (factor_up r c d Hr0 Hr1 Hc) as [Hlo Hhi].
  split; now apply mul_le_l.
Qed.

Lemma within_down (e r c d lo hi : Q) :
  0 <= e -> 0 <= r -> r <= 1 -> 0 <= c ->
  (1 - 1 * c - d)%js = lo -> (1 - 0 * c - d)%js = hi ->
  Sizing.within e lo hi (e * (1 - r * c - d))%js.
Proof.
  intros He Hr0 Hr1 Hc <- <-. destruct (factor_down r c d Hr0 Hr1 Hc) as [Hlo Hhi].
  split; now apply mul_le_l.
Qed.

(** C7, as the code has it: with every draw in [0,1) and a positive entry
    price [e], the target and the stop-loss of a minted signal lie between
    the values of the code's expressions at the draws 0 and 1, the ends
    included, every sum and product being rounded as the code rounds it.
    Live feed, BUY: target between e * (1 + 0.03) and e * (1 + 0.12 +
    0.03), stop-loss between e * (1 - 0.06 - 0.02) and e * (1 - 0.02);
    SELL: target between e * (1 - 0.12 - 0.03) and e * (1 - 0.03),
    stop-loss between e * (1 + 0.02) and e * (1 + 0.06 + 0.02).  The
    dashboard's [generateSignals] uses 0.15 and 0.05 for the target and
    0.08 and 0.02 for the stop-loss. *)
Theorem minted_target_and_stop_ranges {A} (env : Env A) (user : bool)
        (cryptos : list Crypto.Cryptocurrency) (st : Eff) :
  (forall n, 0 <= random env n /\ random env n < 1) ->
  (forall signals,
      Forall (fun s => 0 < LiveSignalFeed.currentPrice s ->
                       Sizing.liveRange (LiveSignalFeed.signalType s)
                         (LiveSignalFeed.currentPrice s)
                         (LiveSignalFeed.targetPrice s) (LiveSignalFeed.stopLoss s))
             (fst (fst (LiveSignalFeed.generateNewSignals env user cryptos signals st)))) /\
  (forall signals,
      Forall (fun s => 0 < Dashboard.currentPrice s ->
                       Sizing.dashboardRange (Dashboard.signalType s)
                         (Dashboard.currentPrice s)
                         (Dashboard.targetPrice s) (Dashboard.stopLoss s))
             (fst (fst (Dashboard.generateSignals env user cryptos signals st)))).
Proof.
  intros Hdraw.
  assert (Hup : forall e n c d lo hi,
    0 < e -> 0 <= c -> (1 + 0 * c + d)%js = lo -> (1 + 1 * c + d)%js = hi ->
    Sizing.within e lo hi (e * (1 + random env n * c + d))%js).
  { intros e n c d lo hi He Hc Hlo Hhi. destruct (Hdraw n) as [H0 H1].
    apply within_up; auto; lra. }
  assert (Hdown : forall e n c d lo hi,
    0 < e -> 0 <= c -> (1 - 1 * c - d)%js = lo -> (1 - 0 * c - d)%js = hi ->
    Sizing.within e lo hi (e * (1 - random env n * c - d))%js).
  { intros e n c d lo hi He Hc Hlo Hhi. destruct (Hdraw n) as [H0 H1].
    apply within_down; auto; lra. }
  split; intros signals.
  - apply generateNewSignals_all. intros crypto st0. cbv zeta. intros Hkind.
    cbn [LiveSignalFeed.mintOne LiveSignalFeed.signalType LiveSignalFeed.currentPrice
         LiveSignalFeed.targetPrice LiveSignalFeed.stopLoss].
    intros He.
    destruct (CryptoApi.signal _); [| | congruence];
      cbn [Sizing.liveRange LiveSignalFeed.targetFor LiveSignalFeed.stopLossFor].
    + split; [apply Hup | apply Hdown];
        first [exact He | vm_compute; discriminate | vm_compute; reflexivity].
    + split; [apply Hdown | apply Hup];
        first [exact He | vm_compute; discriminate | vm_compute; reflexivity].
  - apply generateSignals_all. intros i crypto st0.
    unfold Dashboard.mintOne. cbv zeta.
    cbn [fst Dashboard.signalType Dashboard.currentPrice
         Dashboard.targetPrice Dashboard.stopLoss].
    intros He.
    destruct (CryptoApi.signal _);
      cbn [Sizing.dashboardRange Dashboard.targetFor Dashboard.stopLossFor
           Dashboard.drawsFor advance tick]; [| | exact I].
    + split; [apply Hup | apply Hdown];
        first [exact He | vm_compute; discriminate | vm_compute; reflexivity].
    + split; [apply Hdown | apply Hup];
        first [exact He | vm_compute; discriminate | vm_compute; reflexivity].
Qed.

Lemma minted_target_and_stop_ranges_witness :
  let env := Sample.env unit (1 # 2) in
  let cryptos := [Sample.crypto "BTC" 100 6 20 100; Sample.crypto "ETH" 50 (-3) 1 100] in
  (forall signals,
      Forall (fun s => 0 < LiveSignalFeed.currentPrice s ->
                       Sizing.liveRange (LiveSignalFeed.signalType s)
                         (LiveSignalFeed.currentPrice s)
                         (LiveSignalFeed.targetPrice s) (LiveSignalFeed.stopLoss s))
             (fst (fst (LiveSignalFeed.generateNewSignals env true cryptos signals
                          Sample.start)))) /\
  (forall signals,
      Forall (fun s => 0 < Dashboard.currentPrice s ->
                       Sizing.dashboardRange (Dashboard.signalType s)
                         (Dashboard.currentPrice s)
                         (Dashboard.targetPrice s) (Dashboard.stopLoss s))
             (fst (fst (Dashboard.generateSignals env true cryptos signals
                          Sample.start)))).
Proof.
  cbv zeta.
  apply (minted_target_and_stop_ranges (Sample.env unit (1 # 2)) true
           [Sample.crypto "BTC" 100 6 20 100; Sample.crypto "ETH" 50 (-3) 1 100]
           Sample.start).
  intros n. cbn. split; [discriminate | reflexivity].
Defined.

(** C7, as stated, fails.  With the draw 0 the live feed mints a BUY at
    entry 100 whose target is exactly 103 and whose stop-loss is exactly
    98, the excluded ends of the stated ranges; and with the draw 0.9 the
    dashboard mints a BUY at entry 100 whose target is 118.5, above 115. *)
Lemma minted_ranges_counterexample :
  (exists s,
      In s (fst (fst (LiveSignalFeed.generateNewSignals (Sample.env unit 0) true
                        [Sample.crypto "BTC" 100 6 20 100] [] Sample.start))) /\
      LiveSignalFeed.signalType s = CryptoApi.BUY /\
      LiveSignalFeed.currentPrice s = 100 /\
      LiveSignalFeed.targetPrice s = Some 103 /\
      LiveSignalFeed.stopLoss s = Some 98 /\
      ~ Sizing.specRange (LiveSignalFeed.signalType s) (LiveSignalFeed.currentPrice s)
          (LiveSignalFeed.targetPrice s) (LiveSignalFeed.stopLoss s)) /\
  (exists s,
      In s (fst (fst (Dashboard.generateSignals (Sample.env unit (Js.num 0.9)) true
                        [Sample.crypto "BTC" 100 6 20 100] [] Sample.start))) /\
      Dashboard.signalType s = CryptoApi.BUY /\
      Dashboard.currentPrice s = 100 /\
      Dashboard.targetPrice s = Some (Js.num 118.5) /\
      ~ Sizing.specRange (Dashboard.signalType s) (Dashboard.currentPrice s)
          (Dashboard.targetPrice s) (Dashboard.stopLoss s)).
Proof.
  split; vm_compute; eexists; (split; [left; reflexivity |]);
    repeat (split; [reflexivity |]).
  - intros [[Hlow _] _]. discriminate.
  - intros [[_ Hhigh] _]. discriminate.
Qed.

(** * Further properties of the code *)

(** ** Technical analysis helpers *)

Lemma Qdiv_nonneg (a b : Q) : 0 <= a -> 0 < b -> 0 <= a / b.
Proof. intros Ha Hb. apply Qle_shift_div_l; [exact Hb | lra]. Qed.

Lemma period_positive (period : nat) :
  (0 < period)%nat -> 0 < inject_Z (Z.of_nat period).
Proof.
  intros H. change 0 with (inject_Z 0). rewrite <- Zlt_Qlt. lia.
Qed.

Lemma js_constants :
  Js.round 1 = 1 /\ (100 / 1)%js = 100 /\ (100 - 100)%js = 0 /\ (100 - 0)%js = 100.
Proof. vm_compute. repeat split. Qed.

(** The sums of the loop are never negative. *)
Lemma rsiSums_nonneg (prices : list Q) :
  forall remaining i gains losses,
    0 <= gains -> 0 <= losses ->
    0 <= fst (CryptoApi.rsiSums prices remaining i gains losses) /\
    0 <= snd (CryptoApi.rsiSums prices remaining i gains losses).
Proof.
  induction remaining as [| k IH]; intros i gains losses Hg Hl; cbn [CryptoApi.rsiSums].
  - now split.
  - cbv zeta.
    set (change := (CryptoApi.priceAt prices i - CryptoApi.priceAt prices (i - 1))%js).
    destruct (Js.gtb change 0) eqn:Eup.
    + apply gtb_true_iff in Eup. apply IH; [apply round_nonneg; lra | exact Hl].
    + apply gtb_false_iff in Eup. apply IH; [exact Hg | apply round_nonneg; lra].
Qed.

(** X1: for a positive period the RSI is a percentage: it lies between 0
    and 100 on every price series, short or long. *)
Theorem calculateRSI_range (prices : list Q) (period : nat) :
  (0 < period)%nat ->
  0 <= CryptoApi.calculateRSI prices period /\
  CryptoApi.calculateRSI prices period <= 100.
Proof.
  intros Hperiod. unfold CryptoApi.calculateRSI.
  destruct (Nat.ltb (length prices) (period + 1)); [split; lra |].
  pose proof (rsiSums_nonneg prices period 1 0 0 ltac:(lra) ltac:(lra)) as [Hg Hl].
  destruct (CryptoApi.rsiSums prices period 1 0 0) as [gains losses].
  cbn [fst snd] in Hg, Hl. cbv zeta.
  pose proof (period_positive period Hperiod) as Hp.
  set (n := inject_Z (Z.of_nat period)) in *.
  assert (HavgGain : 0 <= (gains / n)%js) by (apply round_nonneg, Qdiv_nonneg; assumption).
  assert (HavgLoss0 : 0 <= (losses / n)%js) by (apply round_nonneg, Qdiv_nonneg; assumption).
  set (avgGain := (gains / n)%js) in *. set (avgLoss := (losses / n)%js) in *.
  destruct (Qeq_bool avgLoss 0) eqn:Ezero; [split; lra |].
  apply Qeq_bool_neq in Ezero.
  assert (HavgLoss : 0 < avgLoss) by lra.
  assert (Hrs : 0 <= (avgGain / avgLoss)%js)
    by (apply round_nonneg, Qdiv_nonneg; assumption).
  set (rs := (avgGain / avgLoss)%js) in *.
  destruct js_constants as (E1 & E2 & E3 & E4).
  assert (Hden : 1 <= (1 + rs)%js).
  { pose proof (round_le 1 (1 + rs) ltac:(lra)) as H. now rewrite E1 in H. }
  set (d := (1 + rs)%js) in *.
  assert (Hlow : 0 <= (100 / d)%js) by (apply round_nonneg, Qdiv_nonneg; lra).
  assert (Hhigh : (100 / d)%js <= 100).
  { pose proof (div_le_r 100 1 d ltac:(lra) ltac:(lra) Hden) as H. now rewrite E2 in H. }
  set (q := (100 / d)%js) in *. split.
  - pose proof (sub_le 100 100 100 q ltac:(lra) Hhigh) as H. now rewrite E3 in H.
  - pose proof (sub_le 100 100 q 0 ltac:(lra) Hlow) as H. now rewrite E4 in H.
Qed.

Lemma calculateRSI_range_witness :
  0 <= CryptoApi.calculateRSI [10; 12; 11; 13] 3 /\
  CryptoApi.calculateRSI [10; 12; 11; 13] 3 <= 100.
Proof. apply (calculateRSI_range [10; 12; 11; 13] 3). lia. Defined.

Lemma rsiSums_app (prices later : list Q) :
  forall remaining i gains losses,
    (1 <= i)%nat -> (i + remaining <= length prices)%nat ->
    CryptoApi.rsiSums (prices ++ later) remaining i gains losses
    = CryptoApi.rsiSums prices remaining i gains losses.
Proof.
  induction remaining as [| k IH]; intros i gains losses Hi Hlen;
    cbn [CryptoApi.rsiSums]; [reflexivity |].
  unfold CryptoApi.priceAt. rewrite !app_nth1 by lia.
  cbv zeta. destruct (Js.gtb _ 0); apply IH; lia.
Qed.

(** X2: the RSI reads only the first [period + 1] prices of the series:
    prices appended after them never change the result. *)
Theorem calculateRSI_reads_oldest_window (prices later : list Q) (period : nat) :
  (period + 1 <= length prices)%nat ->
  CryptoApi.calculateRSI (prices ++ later) period = CryptoApi.calculateRSI prices period.
Proof.
  intros Hlen. unfold CryptoApi.calculateRSI.
  replace (Nat.ltb (length (prices ++ later)) (period + 1)) with false
    by (symmetry; apply Nat.ltb_ge; rewrite length_app; lia).
  replace (Nat.ltb (length prices) (period + 1)) with false
    by (symmetry; apply Nat.ltb_ge; lia).
  rewrite rsiSums_app by lia. reflexivity.
Qed.

Lemma calculateRSI_reads_oldest_window_witness :
  CryptoApi.calculateRSI ([10; 12; 11; 13] ++ [40; 2; 99]) 3
  = CryptoApi.calculateRSI [10; 12; 11; 13] 3.
Proof.
  apply (calculateRSI_reads_oldest_window [10; 12; 11; 13] [40; 2; 99] 3). cbn. lia.
Defined.

(** Without a drop the sum of the losses stays 0. *)
Lemma rsiSums_no_drop (prices : list Q) :
  forall remaining i gains losses,
    (forall j, (i <= j < i + remaining)%nat ->
               CryptoApi.priceAt prices (j - 1) <= CryptoApi.priceAt prices j) ->
    losses == 0 ->
    snd (CryptoApi.rsiSums prices remaining i gains losses) == 0.
Proof.
  induction remaining as [| k IH]; intros i gains losses Hup Hzero;
    cbn [CryptoApi.rsiSums].
  - exact Hzero.
  - cbv zeta. pose proof (Hup i ltac:(lia)) as Hi.
    assert (Hchange : 0 <= (CryptoApi.priceAt prices i - CryptoApi.priceAt prices (i - 1))%js)
      by (apply round_nonneg; lra).
    set (change := (CryptoApi.priceAt prices i - CryptoApi.priceAt prices (i - 1))%js) in *.
    destruct (Js.gtb change 0) eqn:Eup.
    + apply IH; [| exact Hzero]. intros j Hj. apply Hup. lia.
    + apply gtb_false_iff in Eup. apply IH.
      * intros j Hj. apply Hup. lia.
      * unfold Js.sub. rewrite round_zero; [reflexivity | lra].
Qed.

(** X3: when no price of the window is below the one before it (a flat
    series included), the RSI is exactly 100. *)
Theorem calculateRSI_no_drop (prices : list Q) (period : nat) :
  (0 < period)%nat ->
  (period + 1 <= length prices)%nat ->
  (forall i, (1 <= i <= period)%nat ->
             CryptoApi.priceAt prices (i - 1) <= CryptoApi.priceAt prices i) ->
  CryptoApi.calculateRSI prices period = 100.
Proof.
  intros Hperiod Hlen Hup. unfold CryptoApi.calculateRSI.
  replace (Nat.ltb (length prices) (period + 1)) with false
    by (symmetry; apply Nat.ltb_ge; lia).
  pose proof (rsiSums_no_drop prices period 1 0 0
                ltac:(intros j Hj; apply Hup; lia) ltac:(reflexivity)) as Hl.
  destruct (CryptoApi.rsiSums prices period 1 0 0) as [gains losses].
  cbn [snd] in Hl. cbv zeta.
  replace (Qeq_bool (losses / inject_Z (Z.of_nat period))%js 0) with true; [reflexivity |].
  symmetry. apply Qeq_bool_iff. unfold Js.div.
  rewrite round_zero; [reflexivity |]. rewrite Hl. unfold Qdiv. ring.
Qed.

Lemma calculateRSI_no_drop_witness :
  CryptoApi.calculateRSI [7; 7; 7; 7] 3 = 100.
Proof.
  apply (calculateRSI_no_drop [7; 7; 7; 7] 3); [lia | cbn; lia |].
  intros i Hi. destruct i as [| [| [| [| i]]]]; try lia; discriminate.
Defined.

(** Adding up is monotone. *)
Lemma fold_sum_le (l l' : list Q) :
  Forall2 Qle l l' ->
  forall acc acc', acc <= acc' ->
    fold_left (fun acc price => (acc + price)%js) l acc
    <= fold_left (fun acc price => (acc + price)%js) l' acc'.
Proof.
  induction 1 as [| p p' l l' Hp Hl IH]; intros acc acc' Hacc; cbn [fold_left].
  - exact Hacc.
  - apply IH. now apply add_le.
Qed.

Lemma Forall2_skipn {X Y} (R : X -> Y -> Prop) (n : nat) :
  forall l l', Forall2 R l l' -> Forall2 R (skipn n l) (skipn n l').
Proof.
  induction n as [| n IH]; intros l l' H; [exact H |].
  destruct H; cbn; [constructor | now apply IH].
Qed.

Lemma Forall2_nth_error {X Y} (R : X -> Y -> Prop) (l : list X) (l' : list Y) :
  Forall2 R l l' ->
  forall i, match nth_error l i, nth_error l' i with
            | Some x, Some y => R x y
            | None, None => True
            | _, _ => False
            end.
Proof.
  induction 1 as [| x y l l' Hxy Hl IH]; intros [| i]; cbn; auto.
  apply IH.
Qed.

Lemma sliceLast_length (period : nat) (prices : list Q) :
  (0 < period)%nat -> (period <= length prices)%nat ->
  length (CryptoApi.sliceLast period prices) = period.
Proof.
  intros Hp Hlen. unfold CryptoApi.sliceLast.
  replace (Nat.eqb period 0) with false by (symmetry; apply Nat.eqb_neq; lia).
  rewrite length_skipn. lia.
Qed.

(** X5: the moving average is monotone.  Over a positive period, a series
    whose prices are each at least those of another series, position by
    position, has a moving average at least as high: raising a price
    never lowers the average. *)
Theorem calculateMovingAverage_monotone (prices prices' : list Q) (period : nat) :
  (0 < period)%nat ->
  Forall2 Qle prices prices' ->
  CryptoApi.calculateMovingAverage prices period
  <= CryptoApi.calculateMovingAverage prices' period.
Proof.
  intros Hperiod Hle. unfold CryptoApi.calculateMovingAverage.
  rewrite <- (Forall2_length Hle).
  destruct (Nat.ltb (length prices) period).
  - pose proof (Forall2_nth_error _ _ _ Hle (length prices - 1)) as Hlast.
    destruct (nth_error prices (length prices - 1)) as [last |];
      destruct (nth_error prices' (length prices - 1)) as [last' |];
      try contradiction; [| lra].
    destruct (Qeq_bool last 0) eqn:E;
      [apply Qeq_bool_iff in E | apply Qeq_bool_neq in E];
      (destruct (Qeq_bool last' 0) eqn:E';
       [apply Qeq_bool_iff in E' | apply Qeq_bool_neq in E']); lra.
  - cbv zeta. apply div_le_l; [now apply period_positive |].
    apply fold_sum_le; [| lra]. unfold CryptoApi.sliceLast.
    rewrite <- (Forall2_length Hle).
    destruct (Nat.eqb period 0); [exact Hle | now apply Forall2_skipn].
Qed.

Lemma calculateMovingAverage_monotone_witness :
  CryptoApi.calculateMovingAverage [100; Js.num 0.1; Js.num 0.1; Js.num 0.1] 3
  <= CryptoApi.calculateMovingAverage [100; Js.num 0.1; Js.num 0.2; Js.num 0.1] 3.
Proof.
  apply (calculateMovingAverage_monotone
           [100; Js.num 0.1; Js.num 0.1; Js.num 0.1]
           [100; Js.num 0.1; Js.num 0.2; Js.num 0.1] 3); [lia |].
  repeat constructor; vm_compute; discriminate.
Defined.

(** X6: a moving average over a positive period depends only on the last
    [period] prices: whatever comes before them is never read. *)
Theorem calculateMovingAverage_reads_newest_window
        (older window : list Q) (period : nat) :
  (0 < period)%nat ->
  length window = period ->
  CryptoApi.calculateMovingAverage (older ++ window) period
  = CryptoApi.calculateMovingAverage window period.
Proof.
  intros Hperiod Hlen. unfold CryptoApi.calculateMovingAverage, CryptoApi.sliceLast.
  rewrite length_app, Hlen.
  replace (Nat.ltb (length older + period) period) with false
    by (symmetry; apply Nat.ltb_ge; lia).
  rewrite Nat.ltb_irrefl.
  replace (Nat.eqb period 0) with false by (symmetry; apply Nat.eqb_neq; lia).
  replace (length older + period - period)%nat with (length older + 0)%nat by lia.
  rewrite skipn_app, Nat.sub_diag, skipn_all2 by lia.
  replace (length older + 0 - length older)%nat with 0%nat by lia.
  reflexivity.
Qed.

Lemma calculateMovingAverage_reads_newest_window_witness :
  CryptoApi.calculateMovingAverage ([100; 50] ++ [2; 3; 4]) 3
  = CryptoApi.calculateMovingAverage [2; 3; 4] 3.
Proof.
  apply (calculateMovingAverage_reads_newest_window [100; 50] [2; 3; 4] 3);
    [lia | reflexivity].
Defined.

(** ** Requests *)

Section Requests.

Context {A : Type} (env : Env A).

Lemma fetchAttempts_success_step (url : string) (retries k i : nat) (st : Eff)
      (status : nat) (body : A) :
  fetch env (tick st) url = HttpResponse true status (Some body) ->
  CryptoApi.fetchAttempts env url retries (S k) i st
  = (Returned body, emit (Fetch url) (advance 1 st)).
Proof. intros H. cbn [CryptoApi.fetchAttempts]. now rewrite H. Qed.

Lemma fetchAttempts_failure_step (url : string) (retries k i : nat) (st : Eff) :
  Trace.failed (fetch env (tick st) url) ->
  CryptoApi.fetchAttempts env url retries (S k) i st =
    let st2 := emit (ConsoleError "API request failed")
                    (emit (Fetch url) (advance 1 st)) in
    if Nat.eqb i (retries - 1) then (Thrown, st2)
    else CryptoApi.fetchAttempts env url retries k (S i)
           (emit (Sleep (Js.pow2 i * 1000)) st2).
Proof.
  intros Hf. cbn [CryptoApi.fetchAttempts].
  destruct (fetch env (tick st) url) as [| [|] status [body |]];
    cbn in Hf; [reflexivity | contradiction | reflexivity ..].
Qed.

Lemma failed_or_body (o : FetchOutcome A) :
  Trace.failed o \/ exists status body, o = HttpResponse true status (Some body).
Proof. destruct o as [| [|] status [body |]]; cbn; eauto. Qed.

(** After [failures] failed attempts the next one succeeds. *)
Lemma fetchAttempts_first_success (url : string) (retries : nat)
      (status : nat) (body : A) :
  forall failures remaining i st,
    (remaining + i = retries)%nat -> (failures < remaining)%nat ->
    (forall j, (j < failures)%nat -> Trace.failed (fetch env (tick st + j) url)) ->
    fetch env (tick st + failures) url = HttpResponse true status (Some body) ->
    let r := CryptoApi.fetchAttempts env url retries remaining i st in
    fst r = Returned body /\
    tick (snd r) = (tick st + failures + 1)%nat /\
    Trace.attempts (events (snd r)) = (Trace.attempts (events st) + failures + 1)%nat /\
    Trace.sleeps (events (snd r)) =
      (Trace.sleeps (events st)
         ++ map (fun j => (Js.pow2 j * 1000)%N) (seq i failures))%list.
Proof.
  induction failures as [| f IH]; intros remaining i st Hsum Hlt Hfail Hok; cbv zeta.
  - destruct remaining as [| k]; [lia |]. rewrite Nat.add_0_r in Hok.
    rewrite (fetchAttempts_success_step url retries k i st status body Hok).
    cbn [fst snd emit advance tick events seq map].
    rewrite attempts_app, sleeps_app. cbn. rewrite !app_nil_r. repeat split; lia.
  - destruct remaining as [| k]; [lia |].
    pose proof (Hfail 0%nat ltac:(lia)) as H0. rewrite Nat.add_0_r in H0.
    rewrite (fetchAttempts_failure_step url retries k i st H0). cbv zeta.
    replace (Nat.eqb i (retries - 1)) with false
      by (symmetry; apply Nat.eqb_neq; lia).
    set (st' := emit (Sleep (Js.pow2 i * 1000))
                  (emit (ConsoleError "API request failed")
                     (emit (Fetch url) (advance 1 st)))).
    assert (Htick : tick st' = (tick st + 1)%nat) by reflexivity.
    destruct (IH k (S i) st' ltac:(lia) ltac:(lia)) as (Hres & Ht & Hatt & Hsl).
    + intros j Hj. rewrite Htick.
      replace (tick st + 1 + j)%nat with (tick st + S j)%nat by lia.
      apply Hfail. lia.
    + rewrite Htick. now replace (tick st + 1 + f)%nat with (tick st + S f)%nat by lia.
    + repeat split.
      * exact Hres.
      * rewrite Ht, Htick. lia.
      * rewrite Hatt. subst st'. cbn [emit advance events tick].
        rewrite !attempts_app. cbn. lia.
      * rewrite Hsl. subst st'. cbn [emit advance events tick].
        rewrite !sleeps_app. cbn [Trace.sleeps seq map].
        rewrite !app_nil_r, <- app_assoc. reflexivity.
Qed.

(** A throw ends the loop only on its last iteration. *)
Lemma fetchAttempts_thrown (url : string) (retries : nat) :
  forall remaining i st,
    (remaining + i = retries)%nat ->
    let r := CryptoApi.fetchAttempts env url retries remaining i st in
    fst r = Thrown ->
    Trace.attempts (events (snd r)) = (Trace.attempts (events st) + remaining)%nat /\
    Trace.sleeps (events (snd r)) =
      (Trace.sleeps (events st)
         ++ map (fun j => (Js.pow2 j * 1000)%N) (seq i (remaining - 1)))%list.
Proof.
  induction remaining as [| k IH]; intros i st Hsum; cbv zeta.
  - cbn. discriminate.
  - destruct (failed_or_body (fetch env (tick st) url)) as [Hf | (status & body & Hok)].
    + rewrite (fetchAttempts_failure_step url retries k i st Hf). cbv zeta.
      destruct (Nat.eqb i (retries - 1)) eqn:Elast.
      * apply Nat.eqb_eq in Elast. assert (k = 0)%nat by lia. subst k. intros _.
        cbn [fst snd emit advance tick events seq map Nat.sub].
        rewrite !attempts_app, !sleeps_app. cbn. rewrite app_nil_r. split; [lia | reflexivity].
      * apply Nat.eqb_neq in Elast. intros Hthrown.
        destruct (IH (S i) _ ltac:(lia) Hthrown) as [Hatt Hsl]. split.
        -- rewrite Hatt. cbn [emit advance events tick]. rewrite !attempts_app. cbn. lia.
        -- rewrite Hsl. cbn [emit advance events tick].
           rewrite !sleeps_app. cbn [Trace.sleeps].
           replace (S k - 1)%nat with (S (k - 1)) by lia.
           cbn [seq map]. rewrite !app_nil_r, <- app_assoc. reflexivity.
    + rewrite (fetchAttempts_success_step url retries k i st status body Hok).
      cbn. discriminate.
Qed.

(** With at least one iteration the loop settles: it returns a body or
    throws. *)
Lemma fetchAttempts_settles (url : string) (retries : nat) :
  forall remaining i st,
    (remaining + i = retries)%nat -> (0 < remaining)%nat ->
    fst (CryptoApi.fetchAttempts env url retries remaining i st) <> Undefined.
Proof.
  induction remaining as [| k IH]; intros i st Hsum Hpos; [lia |].
  destruct (failed_or_body (fetch env (tick st) url)) as [Hf | (status & body & Hok)].
  - rewrite (fetchAttempts_failure_step url retries k i st Hf). cbv zeta.
    destruct (Nat.eqb i (retries - 1)) eqn:Elast; [cbn; discriminate |].
    apply Nat.eqb_neq in Elast. apply IH; lia.
  - rewrite (fetchAttempts_success_step url retries k i st status body Hok).
    cbn. discriminate.
Qed.

End Requests.

(** X7: [fetchWithRetry] returns the body of the first attempt that
    succeeds: after [failures] failed attempts (fewer than [retries]) and a
    successful one it has made [failures + 1] requests and waited 1s, 2s,
    4s, ... once after each failure. *)
Theorem fetchWithRetry_first_success {A} (env : Env A) (url : string)
        (retries failures : nat) (st : Eff) (status : nat) (body : A) :
  (failures < retries)%nat ->
  (forall j, (j < failures)%nat -> Trace.failed (fetch env (tick st + j) url)) ->
  fetch env (tick st + failures) url = HttpResponse true status (Some body) ->
  let r := CryptoApi.fetchWithRetry env url retries st in
  fst r = Returned body /\
  Trace.attempts (events (snd r)) = (Trace.attempts (events st) + failures + 1)%nat /\
  Trace.sleeps (events (snd r)) =
    (Trace.sleeps (events st)
       ++ map (fun j => (Js.pow2 j * 1000)%N) (seq 0 failures))%list.
Proof.
  intros Hlt Hfail Hok. cbv zeta. unfold CryptoApi.fetchWithRetry.
  destruct (fetchAttempts_first_success env url retries status body failures retries 0 st
              ltac:(lia) Hlt Hfail Hok) as (Hres & _ & Hatt & Hsl).
  auto.
Qed.

Lemma fetchWithRetry_first_success_witness :
  let r := CryptoApi.fetchWithRetry (Sample.flaky string 2 "body"%string) "u" 3
             Sample.start in
  fst r = Returned "body"%string /\
  Trace.attempts (events (snd r)) = 3%nat /\
  Trace.sleeps (events (snd r)) = [1000; 2000]%N.
Proof.
  apply (fetchWithRetry_first_success (Sample.flaky string 2 "body"%string) "u" 3 2
           Sample.start 200 "body"%string).
  - lia.
  - intros j Hj. destruct j as [| [| j]]; [exact I | exact I | lia].
  - reflexivity.
Defined.

(** X8: with a positive number of retries [fetchWithRetry] either returns a
    body or throws, and it throws only after it has made all [retries]
    requests, having waited 1s, 2s, ... after each but the last. *)
Theorem fetchWithRetry_throws_when_exhausted {A} (env : Env A) (url : string)
        (retries : nat) (st : Eff) :
  (0 < retries)%nat ->
  let r := CryptoApi.fetchWithRetry env url retries st in
  fst r <> Undefined /\
  (fst r = Thrown ->
   Trace.attempts (events (snd r)) = (Trace.attempts (events st) + retries)%nat /\
   Trace.sleeps (events (snd r)) =
     (Trace.sleeps (events st)
        ++ map (fun j => (Js.pow2 j * 1000)%N) (seq 0 (retries - 1)))%list).
Proof.
  intros Hpos. cbv zeta. unfold CryptoApi.fetchWithRetry. split.
  - apply fetchAttempts_settles; lia.
  - apply (fetchAttempts_thrown env url retries retries 0 st). lia.
Qed.

Lemma fetchWithRetry_throws_when_exhausted_witness :
  let r := CryptoApi.fetchWithRetry (Sample.env unit 0) "u" 4 Sample.start in
  fst r <> Undefined /\
  (fst r = Thrown ->
   Trace.attempts (events (snd r)) = 4%nat /\
   Trace.sleeps (events (snd r)) = [1000; 2000; 4000]%N).
Proof.
  apply (fetchWithRetry_throws_when_exhausted (Sample.env unit 0) "u" 4 Sample.start).
  lia.
Defined.

Lemma fetchWithRetry_settles_aux {A} (env : Env A) (url : string) (st : Eff) :
  fst (CryptoApi.fetchWithRetry env url 3 st) <> Undefined /\
  (fst (CryptoApi.fetchWithRetry env url 3 st) = Thrown ->
   Trace.attempts (events (snd (CryptoApi.fetchWithRetry env url 3 st)))
     = (Trace.attempts (events st) + 3)%nat /\
   Trace.sleeps (events (snd (CryptoApi.fetchWithRetry env url 3 st)))
     = (Trace.sleeps (events st) ++ [1000; 2000]%N)%list).
Proof.
  unfold CryptoApi.fetchWithRetry. split.
  - apply fetchAttempts_settles; lia.
  - apply (fetchAttempts_thrown env url 3 3 0 st). lia.
Qed.

Lemma fetchPages_settles (env : Env (list CryptoApi.CoinGeckoMarket)) (limit : nat) :
  forall remaining page results st,
    fst (CryptoApi.fetchPages env limit remaining page results st) <> Undefined.
Proof.
  induction remaining as [| k IH]; intros page results st; cbn [CryptoApi.fetchPages].
  - cbn. discriminate.
  - destruct (CryptoApi.fetchWithRetry env (CryptoApi.marketsUrl 250 page) 3 st)
      as [[pageResults | |] st1]; try (cbn; discriminate).
    destruct (Nat.leb limit (length (results ++ pageResults))); [cbn; discriminate |].
    apply IH.
Qed.

(** X9: [getTopCryptocurrencies] never throws and never comes back empty
    handed: whatever the network does it returns a list, and for a limit
    above 250 the list has at most [limit] entries. *)
Theorem getTopCryptocurrencies_always_returns
        (env : Env (list CryptoApi.CoinGeckoMarket)) (limit : nat) (st : Eff) :
  exists data,
    fst (CryptoApi.getTopCryptocurrencies env limit st) = Returned data /\
    ((250 < limit)%nat -> (length data <= limit)%nat).
Proof.
  unfold CryptoApi.getTopCryptocurrencies. cbv zeta.
  destruct (Nat.leb limit 250) eqn:Hsmall.
  - apply Nat.leb_le in Hsmall.
    pose proof (proj1 (fetchWithRetry_settles_aux env (CryptoApi.marketsUrl limit 1) st))
      as Hdef.
    destruct (CryptoApi.fetchWithRetry env (CryptoApi.marketsUrl limit 1) 3 st)
      as [[body | |] st1]; cbn [fst] in *.
    + exists body. split; [reflexivity | lia].
    + contradiction.
    + eexists. split; [reflexivity | lia].
  - apply Nat.leb_gt in Hsmall.
    pose proof (fetchPages_settles env limit (Nat.div (limit + 249) 250) 1 [] st) as Hdef.
    destruct (CryptoApi.fetchPages env limit (Nat.div (limit + 249) 250) 1 [] st)
      as [[results | |] st1]; cbn [fst] in *.
    + exists (firstn limit results). split; [reflexivity |].
      intros _. rewrite length_firstn. lia.
    + contradiction.
    + eexists. split; [reflexivity |]. intros _. cbn. lia.
Qed.

(** The shape shared by the three single-request getters. *)
Lemma getter_settles {A} (st : Eff) (what : string) (r : Completion A * Eff) :
  fst r <> Undefined ->
  (fst r = Thrown ->
   Trace.attempts (events (snd r)) = (Trace.attempts (events st) + 3)%nat /\
   Trace.sleeps (events (snd r)) = (Trace.sleeps (events st) ++ [1000; 2000]%N)%list) ->
  let g := match r with
           | (Returned body, st1) => (Returned (Some body), st1)
           | (Undefined, st1) => (Undefined, st1)
           | (Thrown, st1) => (Returned None, emit (ConsoleError what) st1)
           end in
  exists answer,
    fst g = Returned answer /\
    (answer = None ->
     Trace.attempts (events (snd g)) = (Trace.attempts (events st) + 3)%nat /\
     Trace.sleeps (events (snd g)) = (Trace.sleeps (events st) ++ [1000; 2000]%N)%list).
Proof.
  intros Hdef Hthrown. cbv zeta. destruct r as [[body | |] st1]; cbn [fst snd] in *.
  - exists (Some body). split; [reflexivity | discriminate].
  - contradiction.
  - exists None. split; [reflexivity |]. intros _.
    destruct (Hthrown eq_refl) as [Hatt Hsl].
    cbn [emit events]. rewrite attempts_app, sleeps_app, Hatt, Hsl. cbn.
    rewrite app_nil_r. split; [lia | reflexivity].
Qed.

(** X10: [getGlobalMarketData], [getCryptocurrencyById] and
    [getMarketChart] never throw: each returns the body or [null], and
    [null] only after three failed requests separated by waits of 1s and
    2s. *)
Theorem market_getters_never_throw {A} (env : Env A) (id : string) (days : nat)
        (st : Eff) :
  let settled (g : Completion (option A) * Eff) :=
    exists answer,
      fst g = Returned answer /\
      (answer = None ->
       Trace.attempts (events (snd g)) = (Trace.attempts (events st) + 3)%nat /\
       Trace.sleeps (events (snd g))
         = (Trace.sleeps (events st) ++ [1000; 2000]%N)%list) in
  settled (CryptoApi.getGlobalMarketData env st) /\
  settled (CryptoApi.getCryptocurrencyById env id st) /\
  settled (CryptoApi.getMarketChart env id days st).
Proof.
  cbv zeta.
  unfold CryptoApi.getGlobalMarketData, CryptoApi.getCryptocurrencyById,
    CryptoApi.getMarketChart. cbv zeta.
  repeat split;
    match goal with
    | |- context [CryptoApi.fetchWithRetry env ?url 3 st] =>
        destruct (fetchWithRetry_settles_aux env url st) as [Hdef Hthrown];
        exact (getter_settles st _ (CryptoApi.fetchWithRetry env url 3 st) Hdef Hthrown)
    end.
Qed.

(** ** More on the retick pass *)

Section RetickMore.

Import LiveSignalFeed.

Context {A : Type} (env : Env A).

Lemma sameIdentity_refl s : sameIdentity s s.
Proof. unfold sameIdentity. tauto. Qed.

Lemma sameIdentity_trans s1 s2 s3 :
  sameIdentity s1 s2 -> sameIdentity s2 s3 -> sameIdentity s1 s3.
Proof. unfold sameIdentity. intuition congruence. Qed.

Lemma Forall2_sameIdentity_refl l : Forall2 sameIdentity l l.
Proof. induction l; constructor; auto using sameIdentity_refl. Qed.

Lemma Forall2_sameIdentity_trans l1 : forall l2 l3,
  Forall2 sameIdentity l1 l2 -> Forall2 sameIdentity l2 l3 -> Forall2 sameIdentity l1 l3.
Proof.
  induction l1 as [| a l1 IH]; intros l2 l3 H12 H23; inversion H12; subst;
    inversion H23; subst; constructor; eauto using sameIdentity_trans.
Qed.

Lemma applyUpdate_identity sid price performance act prev st :
  Forall2 sameIdentity prev (fst (applyUpdate env sid price performance act prev st)).
Proof.
  revert st. induction prev as [| s rest IH]; intros st; [constructor |].
  cbn [applyUpdate]. destruct (String.eqb (id s) sid).
  - specialize (IH (advance 1 st)).
    destruct (applyUpdate env sid price performance act rest (advance 1 st)).
    constructor; [unfold sameIdentity; cbn; tauto | exact IH].
  - specialize (IH st).
    destruct (applyUpdate env sid price performance act rest st).
    constructor; [apply sameIdentity_refl | exact IH].
Qed.

Lemma retickOne_identity cryptos signal store st :
  Forall2 sameIdentity store (snd (fst (retickOne env cryptos signal store st))).
Proof.
  unfold retickOne.
  destruct (findCrypto cryptos (symbol signal)); [| apply Forall2_sameIdentity_refl].
  cbv zeta. repeat match goal with
  | |- context [if ?b then _ else _] => destruct b; [apply Forall2_sameIdentity_refl |]
  end.
  match goal with
  | |- context [applyUpdate ?e ?a ?b ?c ?d ?l ?s] =>
      pose proof (applyUpdate_identity a b c d l s) as H;
      destruct (applyUpdate e a b c d l s)
  end.
  exact H.
Qed.

Lemma retickLoop_identity cryptos todo : forall store st,
  Forall2 sameIdentity store (fst (retickLoop env cryptos todo store st)).
Proof.
  induction todo as [| signal rest IH]; intros store st;
    [apply Forall2_sameIdentity_refl |].
  cbn [retickLoop]. pose proof (retickOne_identity cryptos signal store st) as H.
  destruct (retickOne env cryptos signal store st) as [[[|] store'] st'];
    cbn [fst snd] in *; [| exact H].
  eapply Forall2_sameIdentity_trans; [exact H | apply IH].
Qed.

Lemma updateSignalPerformance_identity user signals cryptos st :
  Forall2 sameIdentity signals
          (fst (updateSignalPerformance env user signals cryptos st)).
Proof.
  unfold updateSignalPerformance.
  destruct (negb user || Nat.eqb (length signals) 0 || Nat.eqb (length cryptos) 0);
    [apply Forall2_sameIdentity_refl | apply retickLoop_identity].
Qed.

(** One iteration either leaves an entry as it is or rewrites it, and then
    it has the id of the iteration's signal. *)
Lemma retickOne_entry cryptos signal store st i x :
  nth_error store i = Some x ->
  let r := retickOne env cryptos signal store st in
  nth_error (snd (fst r)) i = Some x \/
  (id x = id signal /\ fst (fst r) = true /\
   exists crypto n,
     findCrypto cryptos (symbol signal) = Some crypto /\
     nth_error (snd (fst r)) i
     = Some (withUpdate x (Crypto.currentPrice crypto)
               (performanceOf signal (Crypto.currentPrice crypto))
               (isActiveOf (statusOf signal (Crypto.currentPrice crypto)))
               (clock env n))).
Proof.
  intros Hi. cbv zeta. unfold retickOne.
  destruct (findCrypto cryptos (symbol signal)) as [crypto |]; [| now left].
  cbv zeta. repeat match goal with
  | |- context [if ?b then _ else _] => destruct b; [now left |]
  end.
  destruct (String.eqb (id x) (id signal)) eqn:E.
  - apply String.eqb_eq in E.
    match goal with
    | |- context [applyUpdate ?e ?a ?b ?c ?d ?l ?s] =>
        pose proof (applyUpdate_self e a b c d l s i x Hi E) as (n & _ & Hn);
        destruct (applyUpdate e a b c d l s)
    end.
    right. cbn [fst snd] in *. split; [exact E |]. split; [reflexivity |].
    exists crypto, n. split; [reflexivity | exact Hn].
  - apply String.eqb_neq in E.
    match goal with
    | |- context [applyUpdate ?e ?a ?b ?c ?d ?l ?s] =>
        pose proof (applyUpdate_other e a b c d l s i x Hi E) as Hn;
        destruct (applyUpdate e a b c d l s)
    end.
    left. exact Hn.
Qed.

Lemma retickLoop_entry cryptos todo : forall store st i s,
  NoDup (map id todo) ->
  (forall a, In a todo -> id a = id s -> a = s) ->
  nth_error store i = Some s ->
  let r := retickLoop env cryptos todo store st in
  nth_error (fst r) i = Some s \/
  (In s todo /\
   exists crypto n,
     findCrypto cryptos (symbol s) = Some crypto /\
     nth_error (fst r) i
     = Some (withUpdate s (Crypto.currentPrice crypto)
               (performanceOf s (Crypto.currentPrice crypto))
               (isActiveOf (statusOf s (Crypto.currentPrice crypto)))
               (clock env n))).
Proof.
  induction todo as [| a rest IH]; intros store st i s Hnd Huniq Hi; cbv zeta;
    [now left |].
  cbn [map] in Hnd. apply NoDup_cons_iff in Hnd as [Hfresh Hnd].
  cbn [retickLoop].
  pose proof (retickOne_entry cryptos a store st i s Hi) as Hone. cbv zeta in Hone.
  destruct (retickOne env cryptos a store st) as [[ok store'] st'].
  cbn [fst snd] in *. destruct Hone as [Hkeep | (Hid & Hok & crypto & n & Hfind & Hn)].
  - destruct ok; [| now left].
    destruct (IH store' st' i s Hnd (fun b Hb => Huniq b (or_intror Hb)) Hkeep)
      as [H | (Hin & H)]; [now left | right].
    split; [now right | exact H].
  - subst ok. symmetry in Hid. pose proof (Huniq a (or_introl eq_refl) Hid) as ->.
    right. split; [now left |]. exists crypto, n. split; [exact Hfind |].
    apply retickLoop_other; [exact Hn |].
    intros b Hb _ E. apply Hfresh. cbn in E. rewrite <- E. now apply in_map.
Qed.

End RetickMore.

Lemma retick_keeps_open_hold {A} (env : Env A) (user : bool)
      (signals : list LiveSignalFeed.LiveSignal) (cryptos : list Crypto.Cryptocurrency)
      (st : Eff) (i : nat) (s : LiveSignalFeed.LiveSignal) :
  NoDup (map LiveSignalFeed.id signals) ->
  nth_error signals i = Some s ->
  LiveSignalFeed.signalType s = CryptoApi.HOLD ->
  LiveSignalFeed.isActive s = true ->
  exists s',
    nth_error (fst (LiveSignalFeed.updateSignalPerformance env user signals cryptos st)) i
    = Some s' /\
    LiveSignalFeed.signalType s' = CryptoApi.HOLD /\
    LiveSignalFeed.isActive s' = true.
Proof.
  intros Hnd Hi Hkind Hact. unfold LiveSignalFeed.updateSignalPerformance.
  destruct (negb user || Nat.eqb (length signals) 0 || Nat.eqb (length cryptos) 0);
    [now exists s |].
  destruct (retickLoop_entry env cryptos (filter LiveSignalFeed.isActive signals)
              signals st i s (NoDup_map_filter _ _ _ Hnd))
    as [H | (_ & crypto & n & _ & H)].
  - intros a Ha E. apply filter_In in Ha as [Ha _].
    eapply NoDup_map_nth_error; eauto.
  - exact Hi.
  - now exists s.
  - eexists. split; [exact H |]. split; [exact Hkind |].
    cbn [LiveSignalFeed.withUpdate LiveSignalFeed.isActive].
    now rewrite (statusOf_hold s _ Hkind).
Qed.

(** X11: what a retick pass can do to an entry, whatever the store does.
    In a list with unique ids the entry at a position is either left
    exactly as it is, or it was open with a snapshot of its symbol and gets
    that snapshot's price, the performance and open flag computed from its
    own fields, and a fresh timestamp. *)
Theorem retick_entry {A} (env : Env A) (user : bool)
        (signals : list LiveSignalFeed.LiveSignal) (cryptos : list Crypto.Cryptocurrency)
        (st : Eff) (i : nat) (s : LiveSignalFeed.LiveSignal) :
  NoDup (map LiveSignalFeed.id signals) ->
  nth_error signals i = Some s ->
  let post := fst (LiveSignalFeed.updateSignalPerformance env user signals cryptos st) in
  nth_error post i = Some s \/
  (LiveSignalFeed.isActive s = true /\
   exists crypto n,
     LiveSignalFeed.findCrypto cryptos (LiveSignalFeed.symbol s) = Some crypto /\
     nth_error post i
     = Some (LiveSignalFeed.withUpdate s (Crypto.currentPrice crypto)
               (LiveSignalFeed.performanceOf s (Crypto.currentPrice crypto))
               (LiveSignalFeed.isActiveOf
                  (LiveSignalFeed.statusOf s (Crypto.currentPrice crypto)))
               (clock env n))).
Proof.
  intros Hnd Hi. cbv zeta. unfold LiveSignalFeed.updateSignalPerformance.
  destruct (negb user || Nat.eqb (length signals) 0 || Nat.eqb (length cryptos) 0);
    [now left |].
  destruct (retickLoop_entry env cryptos (filter LiveSignalFeed.isActive signals)
              signals st i s (NoDup_map_filter _ _ _ Hnd)) as [H | (Hin & H)].
  - intros a Ha E. apply filter_In in Ha as [Ha _].
    eapply NoDup_map_nth_error; eauto.
  - exact Hi.
  - now left.
  - right. apply filter_In in Hin as [_ Hact]. split; [exact Hact | exact H].
Qed.

Lemma retick_entry_witness :
  let post := fst (LiveSignalFeed.updateSignalPerformance (Sample.storeDown unit) true
                     [Sample.btcSignal] (Sample.btcAt 250) Sample.start) in
  nth_error post 0 = Some Sample.btcSignal \/
  (LiveSignalFeed.isActive Sample.btcSignal = true /\
   exists crypto n,
     LiveSignalFeed.findCrypto (Sample.btcAt 250) "BTC" = Some crypto /\
     nth_error post 0
     = Some (LiveSignalFeed.withUpdate Sample.btcSignal (Crypto.currentPrice crypto)
               (LiveSignalFeed.performanceOf Sample.btcSignal (Crypto.currentPrice crypto))
               (LiveSignalFeed.isActiveOf
                  (LiveSignalFeed.statusOf Sample.btcSignal (Crypto.currentPrice crypto)))
               (clock (Sample.storeDown unit) n))).
Proof.
  apply (retick_entry (Sample.storeDown unit) true [Sample.btcSignal] (Sample.btcAt 250)
           Sample.start 0 Sample.btcSignal).
  - repeat constructor; cbn; tauto.
  - reflexivity.
Defined.

(** X12: no sequence of retick passes ever changes a signal's id, symbol,
    kind, strength, confidence, target, stop-loss, reasoning or creation
    time, and none adds, removes or reorders signals. *)
Theorem reticks_keep_identity {A} (env : Env A) (user : bool)
        (passes : list (list Crypto.Cryptocurrency)) :
  forall (signals : list LiveSignalFeed.LiveSignal) (st : Eff),
    Forall2 sameIdentity signals (fst (LiveSignalFeed.reticks env user passes signals st)).
Proof.
  induction passes as [| cryptos later IH]; intros signals st;
    cbn [LiveSignalFeed.reticks]; [apply Forall2_sameIdentity_refl |].
  pose proof (updateSignalPerformance_identity env user signals cryptos st) as H.
  destruct (LiveSignalFeed.updateSignalPerformance env user signals cryptos st)
    as [signals' st'].
  cbn [fst] in H. eapply Forall2_sameIdentity_trans; [exact H | apply IH].
Qed.

(** X13: a HOLD signal never closes.  Through every sequence of retick
    passes over a list with unique ids, an open HOLD signal is still an
    open HOLD signal at its position. *)
Theorem hold_signals_stay_open {A} (env : Env A) (user : bool)
        (passes : list (list Crypto.Cryptocurrency)) :
  forall (signals : list LiveSignalFeed.LiveSignal) (st : Eff)
         (i : nat) (s : LiveSignalFeed.LiveSignal),
    NoDup (map LiveSignalFeed.id signals) ->
    nth_error signals i = Some s ->
    LiveSignalFeed.signalType s = CryptoApi.HOLD ->
    LiveSignalFeed.isActive s = true ->
    exists s',
      nth_error (fst (LiveSignalFeed.reticks env user passes signals st)) i = Some s' /\
      LiveSignalFeed.signalType s' = CryptoApi.HOLD /\
      LiveSignalFeed.isActive s' = true.
Proof.
  induction passes as [| cryptos later IH]; intros signals st i s Hnd Hi Hkind Hact.
  - exists s. auto.
  - cbn [LiveSignalFeed.reticks].
    pose proof (updateSignalPerformance_ids env user signals cryptos st) as Hids.
    destruct (retick_keeps_open_hold env user signals cryptos st i s Hnd Hi Hkind Hact)
      as (s1 & Hi1 & Hkind1 & Hact1).
    destruct (LiveSignalFeed.updateSignalPerformance env user signals cryptos st)
      as [signals' st'].
    cbn [fst] in *. rewrite <- Hids in Hnd. eapply IH; eauto.
Qed.

Lemma hold_signals_stay_open_witness :
  exists s',
    nth_error
      (fst (LiveSignalFeed.reticks (Sample.env unit 0) true
              [Sample.btcAt 250; Sample.btcAt 1]
              [Sample.liveSignal "live_signal_5" "BTC" CryptoApi.HOLD 100 (Some 110) (Some 90)]
              Sample.start)) 0
    = Some s' /\
    LiveSignalFeed.signalType s' = CryptoApi.HOLD /\
    LiveSignalFeed.isActive s' = true.
Proof.
  apply (hold_signals_stay_open (Sample.env unit 0) true
           [Sample.btcAt 250; Sample.btcAt 1]
           [Sample.liveSignal "live_signal_5" "BTC" CryptoApi.HOLD 100 (Some 110) (Some 90)]
           Sample.start 0
           (Sample.liveSignal "live_signal_5" "BTC" CryptoApi.HOLD 100 (Some 110) (Some 90))).
  - repeat constructor; cbn; tauto.
  - reflexivity.
  - reflexivity.
  - reflexivity.
Defined.

(** X14: a rejected store write ends the pass.  When the store rejects one
    of the two writes made for a signal (the update of its row, then the
    log entry), the loop stops there: the signal's entry is not rewritten,
    the signals after it are not evaluated at all, whatever their prices
    and whatever the store would have answered for them, and the failure
    is reported once.  So a pass whose first open signal meets a rejected
    write leaves the list exactly as it was. *)
Theorem retick_store_failure_ends_pass {A} (env : Env A)
        (cryptos : list Crypto.Cryptocurrency)
        (s : LiveSignalFeed.LiveSignal) (rest : list LiveSignalFeed.LiveSignal)
        (crypto : Crypto.Cryptocurrency) (st : Eff) :
  LiveSignalFeed.findCrypto cryptos (LiveSignalFeed.symbol s) = Some crypto ->
  dbOk env (tick st + 1) = false \/ dbOk env (tick st + 4) = false ->
  (forall store,
      let r := LiveSignalFeed.retickLoop env cryptos (s :: rest) store st in
      fst r = store /\
      r = LiveSignalFeed.retickLoop env cryptos [s] store st /\
      exists before,
        events (snd r)
        = (before ++ [ConsoleError "Failed to update signal performance"])%list) /\
  (forall signals,
      filter LiveSignalFeed.isActive signals = s :: rest ->
      fst (LiveSignalFeed.updateSignalPerformance env true signals cryptos st) = signals).
Proof.
  intros Hfind Hrejected.
  assert (Hloop : forall store,
    let r := LiveSignalFeed.retickLoop env cryptos (s :: rest) store st in
    fst r = store /\
    r = LiveSignalFeed.retickLoop env cryptos [s] store st /\
    exists before,
      events (snd r)
      = (before ++ [ConsoleError "Failed to update signal performance"])%list).
  { intros store. cbv zeta. cbn [LiveSignalFeed.retickLoop].
    unfold LiveSignalFeed.retickOne. rewrite Hfind. cbv zeta. cbn [tick].
    destruct (dbOk env (tick st + 1)) eqn:Efirst; cbn [negb].
    - destruct Hrejected as [H | H]; [discriminate |].
      cbn [emit advance tick].
      replace (tick st + 2 + 2)%nat with (tick st + 4)%nat by lia.
      rewrite H. cbn [negb fst snd]. repeat split. eexists. reflexivity.
    - cbn [fst snd]. repeat split. eexists. reflexivity. }
  split; [exact Hloop |].
  intros signals Hopen. unfold LiveSignalFeed.updateSignalPerformance.
  replace (Nat.eqb (length signals) 0) with false
    by (destruct signals; [discriminate | reflexivity]).
  replace (Nat.eqb (length cryptos) 0) with false
    by (destruct cryptos; [discriminate | reflexivity]).
  cbn [negb orb]. rewrite Hopen. apply Hloop.
Qed.

Lemma retick_store_failure_ends_pass_witness :
  let signals :=
    [Sample.btcSignal;
     Sample.liveSignal "live_signal_2" "ETH" CryptoApi.SELL 100 (Some 90) (Some 130)] in
  let cryptos := [Sample.crypto "BTC" 250 0 1 100; Sample.crypto "ETH" 80 0 1 100] in
  fst (LiveSignalFeed.updateSignalPerformance (Sample.storeRejecting unit [1%nat]) true
         signals cryptos Sample.start)
  = signals.
Proof.
  cbv zeta.
  apply (proj2 (retick_store_failure_ends_pass (Sample.storeRejecting unit [1%nat])
                  [Sample.crypto "BTC" 250 0 1 100; Sample.crypto "ETH" 80 0 1 100]
                  Sample.btcSignal
                  [Sample.liveSignal "live_signal_2" "ETH" CryptoApi.SELL 100
                                     (Some 90) (Some 130)]
                  (Sample.crypto "BTC" 250 0 1 100) Sample.start
                  ltac:(reflexivity) ltac:(left; reflexivity))).
  reflexivity.
Defined.

(** ** Sorting *)

Section Sorting.

Context {X : Type} (compareFn : X -> X -> Q).

Hypothesis before_total : forall a b, before compareFn a b \/ before compareFn b a.
Hypothesis before_trans : forall a b c, before compareFn a b -> before compareFn b c -> before compareFn a c.

Lemma insertSorted_perm (x : X) (l : list X) :
  Permutation (Js.insertSorted compareFn x l) (x :: l).
Proof.
  induction l as [| y l IH]; cbn [Js.insertSorted]; [reflexivity |].
  destruct (Js.leb (compareFn x y) 0); [reflexivity |].
  rewrite IH. apply perm_swap.
Qed.

Lemma sort_perm (l : list X) : Permutation (Js.sort compareFn l) l.
Proof.
  induction l as [| x l IH]; cbn; [constructor |].
  fold (Js.sort compareFn l). rewrite insertSorted_perm. now constructor.
Qed.

Lemma insertSorted_sorted (x : X) (l : list X) :
  StronglySorted (before compareFn) l -> StronglySorted (before compareFn) (Js.insertSorted compareFn x l).
Proof.
  induction l as [| y l IH]; intros Hs; cbn [Js.insertSorted].
  - repeat constructor.
  - apply StronglySorted_inv in Hs as [Hl Hy].
    destruct (Js.leb (compareFn x y) 0) eqn:E.
    + apply leb_true_iff in E. constructor; [constructor; assumption |].
      constructor; [exact E |].
      eapply Forall_impl; [| exact Hy]. intros z Hz. eapply before_trans; eauto.
    + assert (Hyx : before compareFn y x).
      { destruct (before_total x y) as [H | H]; [| exact H].
        apply leb_true_iff in H. congruence. }
      constructor; [now apply IH |].
      eapply Permutation_Forall; [symmetry; apply insertSorted_perm |].
      now constructor.
Qed.

Lemma sort_sorted (l : list X) : StronglySorted (before compareFn) (Js.sort compareFn l).
Proof.
  induction l as [| x l IH]; cbn; [constructor |].
  fold (Js.sort compareFn l). now apply insertSorted_sorted.
Qed.

Lemma sorted_split (l1 l2 : list X) :
  StronglySorted (before compareFn) (l1 ++ l2) ->
  forall a b, In a l1 -> In b l2 -> before compareFn a b.
Proof.
  induction l1 as [| x l1 IH]; intros Hs a b Ha Hb; [contradiction |].
  cbn in Hs. apply StronglySorted_inv in Hs as [Hrest Hx].
  destruct Ha as [-> | Ha]; [| now apply IH].
  rewrite Forall_forall in Hx. apply Hx. apply in_or_app. now right.
Qed.

End Sorting.

Lemma live_sort_is_sort (cryptos : list Crypto.Cryptocurrency) :
  LiveSignalFeed.sort cryptos = Js.sort LiveSignalFeed.compareFn cryptos.
Proof.
  unfold LiveSignalFeed.sort, Js.sort. induction cryptos as [| c l IH]; [reflexivity |].
  cbn [fold_right]. rewrite IH. generalize (fold_right (Js.insertSorted LiveSignalFeed.compareFn) [] l).
  intros sorted. induction sorted as [| y sorted IHs]; [reflexivity |].
  cbn [LiveSignalFeed.insertSorted Js.insertSorted]. now rewrite IHs.
Qed.

Lemma live_before (a b : Crypto.Cryptocurrency) :
  before LiveSignalFeed.compareFn a b <->
  Qabs (Crypto.priceChangePercentage24h b) <= Qabs (Crypto.priceChangePercentage24h a).
Proof. unfold before, LiveSignalFeed.compareFn. apply sub_le_0. Qed.

Lemma live_sort_sorted (cryptos : list Crypto.Cryptocurrency) :
  StronglySorted (before LiveSignalFeed.compareFn) (LiveSignalFeed.sort cryptos).
Proof.
  rewrite live_sort_is_sort. apply sort_sorted.
  - intros a b. rewrite !live_before.
    destruct (Qlt_le_dec (Qabs (Crypto.priceChangePercentage24h a))
                         (Qabs (Crypto.priceChangePercentage24h b)));
      [right | left]; lra.
  - intros a b c. rewrite !live_before. lra.
Qed.

(** ** More on minting *)

Section MintingMore.

Context {A : Type} (env : Env A).

(** As [live_mintLoop_all], for a property that needs to know the snapshot
    is one of the list. *)
Lemma live_mintLoop_from (P : LiveSignalFeed.LiveSignal -> Prop) :
  forall topCryptos,
    (forall crypto st,
        In crypto topCryptos ->
        CryptoApi.signal (CryptoApi.generateTechnicalSignal (Crypto.toMarket 1 crypto))
          <> CryptoApi.HOLD ->
        P (LiveSignalFeed.mintOne env
             (CryptoApi.generateTechnicalSignal (Crypto.toMarket 1 crypto)) crypto st)) ->
    forall newSignals st minted st',
      Forall P newSignals ->
      LiveSignalFeed.mintLoop env topCryptos newSignals st = (Returned minted, st') ->
      Forall P minted.
Proof.
  induction topCryptos as [| crypto rest IH];
    intros Hbody newSignals st minted st' Hacc Hrun; cbn [LiveSignalFeed.mintLoop] in Hrun.
  - now injection Hrun as <- _.
  - pose proof (Hbody crypto st (or_introl eq_refl)) as Hhere.
    assert (Hrest : forall c st0,
               In c rest ->
               CryptoApi.signal (CryptoApi.generateTechnicalSignal (Crypto.toMarket 1 c))
                 <> CryptoApi.HOLD ->
               P (LiveSignalFeed.mintOne env
                    (CryptoApi.generateTechnicalSignal (Crypto.toMarket 1 c)) c st0))
      by (intros c st0 Hc; apply Hbody; now right).
    cbv zeta in Hrun.
    destruct (CryptoApi.signal
                (CryptoApi.generateTechnicalSignal (Crypto.toMarket 1 crypto))) eqn:Hk.
    3: exact (IH Hrest newSignals st minted st' Hacc Hrun).
    all: destruct (dbOk env (tick st + 5)); [| discriminate].
    all: eapply (IH Hrest); [| exact Hrun].
    all: apply Forall_app; split; [exact Hacc |].
    all: constructor; [| constructor].
    all: apply Hhere; discriminate.
Qed.

(** The loop adds at most one signal per snapshot. *)
Lemma live_mintLoop_length :
  forall topCryptos newSignals st minted st',
    LiveSignalFeed.mintLoop env topCryptos newSignals st = (Returned minted, st') ->
    (length minted <= length newSignals + length topCryptos)%nat.
Proof.
  induction topCryptos as [| crypto rest IH]; intros newSignals st minted st' Hrun;
    cbn [LiveSignalFeed.mintLoop] in Hrun.
  - injection Hrun as <- _. lia.
  - cbv zeta in Hrun.
    destruct (CryptoApi.signal
                (CryptoApi.generateTechnicalSignal (Crypto.toMarket 1 crypto))).
    3: apply IH in Hrun; cbn [length]; lia.
    all: destruct (dbOk env (tick st + 5)); [| discriminate].
    all: apply IH in Hrun; rewrite length_app in Hrun; cbn [length] in *; lia.
Qed.

Lemma mintOne_from (technicalSignal : CryptoApi.TechnicalSignal)
      (crypto : Crypto.Cryptocurrency) (st : Eff) :
  technicalSignal = CryptoApi.generateTechnicalSignal (Crypto.toMarket 1 crypto) ->
  liveMintedFrom crypto (LiveSignalFeed.mintOne env technicalSignal crypto st).
Proof. intros ->. unfold liveMintedFrom. cbn. repeat split. Qed.

(** While the store accepts the writes, the loop mints one signal for
    each snapshot that calls for one, in order. *)
Lemma live_mintLoop_each :
  (forall n, dbOk env n = true) ->
  forall topCryptos from newSignals st,
    Forall2 liveMintedFrom from newSignals ->
    exists minted st',
      LiveSignalFeed.mintLoop env topCryptos newSignals st = (Returned minted, st') /\
      Forall2 liveMintedFrom (from ++ filter callsForSignal topCryptos) minted.
Proof.
  intros Hok. induction topCryptos as [| crypto rest IH]; intros from newSignals st Hacc;
    cbn [LiveSignalFeed.mintLoop filter].
  - exists newSignals, st. split; [reflexivity | now rewrite app_nil_r].
  - cbv zeta. unfold callsForSignal at 1.
    pose proof (mintOne_from _ crypto st eq_refl) as Hone.
    destruct (CryptoApi.signal
                (CryptoApi.generateTechnicalSignal (Crypto.toMarket 1 crypto))).
    3: now apply IH.
    all: rewrite Hok.
    all: replace (from ++ crypto :: filter callsForSignal rest)%list
           with ((from ++ [crypto]) ++ filter callsForSignal rest)%list
           by (now rewrite <- app_assoc).
    all: apply IH; apply Forall2_app; [exact Hacc | now constructor].
Qed.

(** The [k]-th write is made five ticks into the [k]-th minting: when it is
    the first one rejected, the loop throws, having created [k] rows. *)
Lemma live_mintLoop_rejected :
  forall topCryptos newSignals st k,
    (k < length (filter callsForSignal topCryptos))%nat ->
    (forall j, (j < k)%nat -> dbOk env (tick st + 6 * j + 5) = true) ->
    dbOk env (tick st + 6 * k + 5) = false ->
    exists created st',
      LiveSignalFeed.mintLoop env topCryptos newSignals st = (Thrown, st') /\
      events st'
      = (events st ++ map (fun s => DbCreate "recentSignals" (LiveSignalFeed.id s)) created)%list /\
      Forall2 liveMintedFrom (firstn k (filter callsForSignal topCryptos)) created.
Proof.
  induction topCryptos as [| crypto rest IH]; intros newSignals st k Hk Haccepted Hrejected;
    cbn [LiveSignalFeed.mintLoop filter] in *; [cbn in Hk; lia |].
  cbv zeta. unfold callsForSignal at 1. unfold callsForSignal at 1 in Hk.
  pose proof (mintOne_from _ crypto st eq_refl) as Hone.
  destruct (CryptoApi.signal
              (CryptoApi.generateTechnicalSignal (Crypto.toMarket 1 crypto))).
  3: now apply IH.
  all: destruct k as [| k].
  all: try (replace (tick st + 6 * 0 + 5)%nat with (tick st + 5)%nat in Hrejected by lia;
            rewrite Hrejected; exists [], (advance 6 st);
            split; [reflexivity |]; split; [cbn; now rewrite app_nil_r | constructor]).
  all: pose proof (Haccepted 0%nat ltac:(lia)) as Hfirst;
    replace (tick st + 6 * 0 + 5)%nat with (tick st + 5)%nat in Hfirst by lia;
    rewrite Hfirst.
  all: match goal with
       | |- context [LiveSignalFeed.mintLoop env _ ?acc ?st1] =>
           destruct (IH acc st1 k) as (created & st' & Hrun & Hev & Hfrom);
           [ cbn [length] in Hk; lia
           | intros j Hj; cbn [emit advance tick];
             replace (tick st + 6 + 6 * j + 5)%nat with (tick st + 6 * S j + 5)%nat by lia;
             apply Haccepted; lia
           | cbn [emit advance tick];
             replace (tick st + 6 + 6 * k + 5)%nat with (tick st + 6 * S k + 5)%nat by lia;
             exact Hrejected
           | ]
       end.
  all: eexists (_ :: created), st'; split; [exact Hrun |]; split;
    [ rewrite Hev; cbn [emit advance events map]; now rewrite <- app_assoc
    | cbn [firstn]; constructor; [exact Hone | exact Hfrom] ].
Qed.

End MintingMore.

(** X15: the live feed mints from the biggest movers.  The snapshots are
    reordered (nothing lost, nothing added) by absolute 24h change, largest
    first, so that none of the first six moved less than a snapshot left
    out; and while the store accepts the writes, the signals minted by
    [generateNewSignals] are, in that order, one for each of these six that
    the classifier does not answer with HOLD. *)
Theorem generateNewSignals_takes_top_movers {A} (env : Env A)
        (cryptos : list Crypto.Cryptocurrency) (signals : list LiveSignalFeed.LiveSignal)
        (st : Eff) :
  (forall n, dbOk env n = true) ->
  let sorted := LiveSignalFeed.sort cryptos in
  let minted := fst (fst (LiveSignalFeed.generateNewSignals env true cryptos signals st)) in
  Permutation sorted cryptos /\
  (forall chosen skipped,
      In chosen (firstn 6 sorted) -> In skipped (skipn 6 sorted) ->
      Qabs (Crypto.priceChangePercentage24h skipped)
        <= Qabs (Crypto.priceChangePercentage24h chosen)) /\
  Forall2 liveMintedFrom (filter callsForSignal (firstn 6 sorted)) minted.
Proof.
  intros Hok. cbv zeta. split; [| split].
  - rewrite live_sort_is_sort. apply sort_perm.
  - intros chosen skipped Hc Hs.
    pose proof (live_sort_sorted cryptos) as Hsorted.
    rewrite <- (firstn_skipn 6 (LiveSignalFeed.sort cryptos)) in Hsorted.
    apply live_before.
    exact (sorted_split LiveSignalFeed.compareFn _ _ Hsorted chosen skipped Hc Hs).
  - unfold LiveSignalFeed.generateNewSignals. cbn [negb orb].
    destruct (Nat.eqb (length cryptos) 0) eqn:Eempty.
    + apply Nat.eqb_eq, length_zero_iff_nil in Eempty. subst cryptos. constructor.
    + cbv zeta.
      destruct (live_mintLoop_each env Hok (firstn 6 (LiveSignalFeed.sort cryptos))
                  [] [] st (Forall2_nil _)) as (minted & st' & Hrun & Hfrom).
      rewrite Hrun. exact Hfrom.
Qed.

Lemma generateNewSignals_takes_top_movers_witness :
  let cryptos :=
    [Sample.crypto "A" 1 1 1 1; Sample.crypto "B" 1 (-7) 1 1;
     Sample.crypto "C" 1 3 1 1; Sample.crypto "D" 1 (-3) 1 1;
     Sample.crypto "E" 1 7 1 1; Sample.crypto "F" 1 5 1 1;
     Sample.crypto "G" 1 (1 # 2) 1 1; Sample.crypto "H" 1 2 1 1] in
  Forall2 liveMintedFrom
    (filter callsForSignal (firstn 6 (LiveSignalFeed.sort cryptos)))
    (fst (fst (LiveSignalFeed.generateNewSignals (Sample.env unit 0) true cryptos []
                 Sample.start))).
Proof.
  cbv zeta.
  apply (proj2 (proj2 (generateNewSignals_takes_top_movers (Sample.env unit 0)
                         [Sample.crypto "A" 1 1 1 1; Sample.crypto "B" 1 (-7) 1 1;
                          Sample.crypto "C" 1 3 1 1; Sample.crypto "D" 1 (-3) 1 1;
                          Sample.crypto "E" 1 7 1 1; Sample.crypto "F" 1 5 1 1;
                          Sample.crypto "G" 1 (1 # 2) 1 1; Sample.crypto "H" 1 2 1 1]
                         [] Sample.start ltac:(intros n; reflexivity)))).
Defined.

(** X16: where a live signal comes from.  Every signal minted by
    [generateNewSignals] is open, has performance 0 and equal creation and
    update times, and is built from a snapshot of the given list: it has
    that snapshot's symbol and price, and the kind, strength, confidence
    and reasoning the classifier gives for it. *)
Theorem generateNewSignals_provenance {A} (env : Env A) (user : bool)
        (cryptos : list Crypto.Cryptocurrency) (signals : list LiveSignalFeed.LiveSignal)
        (st : Eff) :
  Forall (fun s =>
            LiveSignalFeed.isActive s = true /\
            LiveSignalFeed.performancePercentage s = 0 /\
            LiveSignalFeed.updatedAt s = LiveSignalFeed.createdAt s /\
            exists crypto,
              In crypto cryptos /\
              LiveSignalFeed.symbol s = Crypto.symbol crypto /\
              LiveSignalFeed.currentPrice s = Crypto.currentPrice crypto /\
              let technicalSignal :=
                CryptoApi.generateTechnicalSignal (Crypto.toMarket 1 crypto) in
              LiveSignalFeed.signalType s = CryptoApi.signal technicalSignal /\
              LiveSignalFeed.strength s = CryptoApi.strength technicalSignal /\
              LiveSignalFeed.confidenceScore s = CryptoApi.confidence technicalSignal /\
              LiveSignalFeed.reasoning s = CryptoApi.reasoning technicalSignal)
         (fst (fst (LiveSignalFeed.generateNewSignals env user cryptos signals st))).
Proof.
  unfold LiveSignalFeed.generateNewSignals.
  destruct (negb user || Nat.eqb (length cryptos) 0); [constructor |]. cbv zeta.
  destruct (LiveSignalFeed.mintLoop env (firstn 6 (LiveSignalFeed.sort cryptos)) [] st)
    as [[minted | |] st'] eqn:Hrun; cbn [fst]; try constructor.
  eapply live_mintLoop_from; [| constructor | exact Hrun].
  intros crypto st0 Hin _. cbn. repeat split.
  exists crypto. repeat split.
  apply (Permutation_in crypto (l := LiveSignalFeed.sort cryptos)).
  - rewrite live_sort_is_sort. apply sort_perm.
  - rewrite <- (firstn_skipn 6 (LiveSignalFeed.sort cryptos)).
    apply in_or_app. now left.
Qed.

(** X17: the live signal list stays bounded.  When the list holds at most
    20 signals, after [generateNewSignals] it still holds at most 20; at
    most 6 signals are minted; and the minted ones are the head of the new
    list, in the order they were minted. *)
Theorem generateNewSignals_bounds {A} (env : Env A) (user : bool)
        (cryptos : list Crypto.Cryptocurrency) (signals : list LiveSignalFeed.LiveSignal)
        (st : Eff) :
  (length signals <= 20)%nat ->
  let minted := fst (fst (LiveSignalFeed.generateNewSignals env user cryptos signals st)) in
  let after := snd (fst (LiveSignalFeed.generateNewSignals env user cryptos signals st)) in
  (length after <= 20)%nat /\
  (length minted <= 6)%nat /\
  firstn (length minted) after = minted.
Proof.
  intros Hlen. cbv zeta. unfold LiveSignalFeed.generateNewSignals.
  destruct (negb user || Nat.eqb (length cryptos) 0);
    [cbn; repeat split; lia |]. cbv zeta.
  destruct (LiveSignalFeed.mintLoop env (firstn 6 (LiveSignalFeed.sort cryptos)) [] st)
    as [[minted | |] st'] eqn:Hrun; cbn [fst snd]; try (cbn; repeat split; lia).
  apply live_mintLoop_length in Hrun. cbn [length] in Hrun.
  assert (Hsix : (length minted <= 6)%nat).
  { pose proof (firstn_le_length 6 (LiveSignalFeed.sort cryptos)). lia. }
  repeat split.
  - rewrite length_firstn. lia.
  - exact Hsix.
  - rewrite firstn_firstn. replace (Nat.min (length minted) 20) with (length minted) by lia.
    rewrite firstn_app, Nat.sub_diag, firstn_all. cbn. now rewrite app_nil_r.
Qed.

Lemma generateNewSignals_bounds_witness :
  let r := LiveSignalFeed.generateNewSignals (Sample.env unit 0) true
             [Sample.crypto "BTC" 100 6 20 100] [Sample.btcSignal] Sample.start in
  (length (snd (fst r)) <= 20)%nat /\
  (length (fst (fst r)) <= 6)%nat /\
  firstn (length (fst (fst r))) (snd (fst r)) = fst (fst r).
Proof.
  apply (generateNewSignals_bounds (Sample.env unit 0) true
           [Sample.crypto "BTC" 100 6 20 100] [Sample.btcSignal] Sample.start).
  cbn. lia.
Defined.

(** X18: minting is all or nothing for the list, not for the store.  The
    live feed writes one row per snapshot that calls for a signal, among
    the six biggest movers.  When the [k]-th of these writes is the first
    one the store rejects, [generateNewSignals] adds no signal to the list
    and reports the failure, although the [k] rows written before are in
    the store. *)
Theorem generateNewSignals_store_failure {A} (env : Env A)
        (cryptos : list Crypto.Cryptocurrency) (signals : list LiveSignalFeed.LiveSignal)
        (st : Eff) (k : nat) :
  let candidates := filter callsForSignal (firstn 6 (LiveSignalFeed.sort cryptos)) in
  (k < length candidates)%nat ->
  (forall j, (j < k)%nat -> dbOk env (tick st + 6 * j + 5) = true) ->
  dbOk env (tick st + 6 * k + 5) = false ->
  let r := LiveSignalFeed.generateNewSignals env true cryptos signals st in
  fst (fst r) = [] /\
  snd (fst r) = signals /\
  exists created,
    Forall2 liveMintedFrom (firstn k candidates) created /\
    events (snd r)
    = (events st
         ++ map (fun s => DbCreate "recentSignals" (LiveSignalFeed.id s)) created
         ++ [ConsoleError "Failed to generate signals"; Toast GenerationFailed])%list.
Proof.
  cbv zeta. intros Hk Haccepted Hrejected. unfold LiveSignalFeed.generateNewSignals.
  replace (Nat.eqb (length cryptos) 0) with false.
  2: { destruct cryptos; [cbn in Hk; lia | reflexivity]. }
  cbn [negb orb]. cbv zeta.
  destruct (live_mintLoop_rejected env (firstn 6 (LiveSignalFeed.sort cryptos)) [] st k
              Hk Haccepted Hrejected) as (created & st' & Hrun & Hev & Hfrom).
  rewrite Hrun. cbn [fst snd]. split; [reflexivity |]. split; [reflexivity |].
  exists created. split; [exact Hfrom |].
  cbn [emit events]. rewrite Hev, <- !app_assoc. reflexivity.
Qed.

Lemma generateNewSignals_store_failure_witness :
  let cryptos := [Sample.crypto "BTC" 100 6 20 100; Sample.crypto "ETH" 50 (-3) 1 100] in
  let r := LiveSignalFeed.generateNewSignals (Sample.storeRejecting unit [11%nat]) true
             cryptos [Sample.btcSignal] Sample.start in
  fst (fst r) = [] /\
  snd (fst r) = [Sample.btcSignal] /\
  exists created,
    Forall2 liveMintedFrom
      (firstn 1 (filter callsForSignal (firstn 6 (LiveSignalFeed.sort cryptos)))) created /\
    events (snd r)
    = (events Sample.start
         ++ map (fun s => DbCreate "recentSignals" (LiveSignalFeed.id s)) created
         ++ [ConsoleError "Failed to generate signals"; Toast GenerationFailed])%list.
Proof.
  cbv zeta.
  apply (generateNewSignals_store_failure (Sample.storeRejecting unit [11%nat])
           [Sample.crypto "BTC" 100 6 20 100; Sample.crypto "ETH" 50 (-3) 1 100]
           [Sample.btcSignal] Sample.start 1).
  - vm_compute. lia.
  - intros j Hj. assert (j = 0)%nat by lia. subst j. reflexivity.
  - reflexivity.
Defined.

(** ** The dashboard *)

Lemma dashboard_mintLoop_each {A} (env : Env A) :
  forall topCryptos i from newSignals st,
    Forall2 mintedFrom from newSignals ->
    Forall2 mintedFrom (from ++ topCryptos)
            (fst (Dashboard.mintLoop env i topCryptos newSignals st)).
Proof.
  induction topCryptos as [| crypto rest IH]; intros i from newSignals st Hacc;
    cbn [Dashboard.mintLoop].
  - now rewrite app_nil_r.
  - assert (Hone : mintedFrom crypto (fst (Dashboard.mintOne env i crypto st))).
    { unfold mintedFrom, Dashboard.mintOne. cbn. repeat split. }
    destruct (Dashboard.mintOne env i crypto st) as [s st1]. cbn [fst] in Hone.
    replace (from ++ crypto :: rest)%list with ((from ++ [crypto]) ++ rest)%list
      by (now rewrite <- app_assoc).
    apply IH. apply Forall2_app; [exact Hacc | now constructor].
Qed.

Lemma first_five (X : Type) (l : list X) :
  firstn (Nat.min 5 (length (firstn 8 l))) (firstn 8 l) = firstn 5 l.
Proof.
  rewrite firstn_firstn, length_firstn.
  destruct (Nat.le_gt_cases 5 (length l)) as [H | H].
  - f_equal. lia.
  - replace (Nat.min (Nat.min 5 (Nat.min 8 (length l))) 8) with (length l) by lia.
    now rewrite firstn_all, firstn_all2 by lia.
Qed.

(** X19: the dashboard mints one signal for each of the first five
    snapshots, in their order and whatever the store answers: each has its
    snapshot's symbol and price and the classifier's kind, strength,
    confidence and reasoning for it, and the minted signals are the head of
    the new list. *)
Theorem generateSignals_one_per_snapshot {A} (env : Env A)
        (cryptos : list Crypto.Cryptocurrency) (signals : list Dashboard.Signal)
        (st : Eff) :
  let minted := fst (fst (Dashboard.generateSignals env true cryptos signals st)) in
  let after := snd (fst (Dashboard.generateSignals env true cryptos signals st)) in
  Forall2 mintedFrom (firstn 5 cryptos) minted /\
  firstn (length minted) after = minted.
Proof.
  cbv zeta. unfold Dashboard.generateSignals. cbn [negb]. cbv zeta.
  rewrite first_five.
  pose proof (dashboard_mintLoop_each env (firstn 5 cryptos) 0%nat [] [] st
                (Forall2_nil _)) as Heach.
  destruct (Dashboard.mintLoop env 0 (firstn 5 cryptos) [] st) as [minted st1].
  cbn [fst snd] in *. split; [exact Heach |].
  assert (Hfive : (length minted <= 5)%nat).
  { apply Forall2_length in Heach. rewrite app_nil_l in Heach.
    pose proof (firstn_le_length 5 cryptos). lia. }
  rewrite firstn_firstn. replace (Nat.min (length minted) 15) with (length minted) by lia.
  rewrite firstn_app, Nat.sub_diag, firstn_all. cbn. now rewrite app_nil_r.
Qed.

(** *** The watchlist *)

Lemma includes_true_iff (watchlist : list string) (symbol : string) :
  Dashboard.includes watchlist symbol = true <-> In symbol watchlist.
Proof.
  unfold Dashboard.includes. rewrite existsb_exists. split.
  - intros (x & Hx & E). apply String.eqb_eq in E. now subst.
  - intros H. exists symbol. split; [exact H | apply String.eqb_refl].
Qed.

Lemma includes_filter (watchlist : list string) (symbol other : string) :
  Dashboard.includes (filter (fun s => negb (String.eqb s symbol)) watchlist) other
  = Dashboard.includes watchlist other && negb (String.eqb other symbol).
Proof.
  apply eq_true_iff_eq. rewrite andb_true_iff, negb_true_iff, !includes_true_iff,
    filter_In, negb_true_iff. tauto.
Qed.

Lemma includes_app (watchlist : list string) (symbol other : string) :
  Dashboard.includes (watchlist ++ [symbol]) other
  = Dashboard.includes watchlist other || String.eqb other symbol.
Proof.
  unfold Dashboard.includes. rewrite existsb_app. cbn. now rewrite orb_false_r.
Qed.

(** X20: while the store accepts its writes, toggling a symbol flips its
    membership in the watchlist and nothing else: a watched symbol is
    removed (every occurrence), an unwatched one is added, and every other
    symbol is watched after exactly when it was before. *)
Theorem toggleWatchlist_flips {A} (env : Env A) (watchlist : list string)
        (symbol : string) (existing : list string) (t : nat) :
  (forall n, dbOk env n = true) ->
  let after := fst (fst (Dashboard.toggleWatchlist env true watchlist symbol existing t)) in
  Dashboard.includes after symbol = negb (Dashboard.includes watchlist symbol) /\
  forall other, other <> symbol ->
                Dashboard.includes after other = Dashboard.includes watchlist other.
Proof.
  intros Hok. cbv zeta. unfold Dashboard.toggleWatchlist. cbn [negb].
  rewrite !Hok. cbn [negb].
  destruct (Dashboard.includes watchlist symbol) eqn:Hin.
  - destruct existing as [| rowId rest]; cbn [fst]; split.
    1, 3: rewrite includes_filter, String.eqb_refl; cbn; now rewrite andb_false_r.
    all: intros other Hne; rewrite includes_filter;
      apply String.eqb_neq in Hne; rewrite Hne; cbn; now rewrite andb_true_r.
  - cbn [fst]. split.
    + rewrite includes_app, Hin, String.eqb_refl. reflexivity.
    + intros other Hne. rewrite includes_app.
      apply String.eqb_neq in Hne. rewrite Hne. now rewrite orb_false_r.
Qed.

Lemma toggleWatchlist_flips_witness :
  let after := fst (fst (Dashboard.toggleWatchlist (Sample.env unit 0) true
                           ["BTC"; "ETH"; "BTC"]%string "BTC" ["row_1"]%string 0)) in
  Dashboard.includes after "BTC" = negb (Dashboard.includes ["BTC"; "ETH"; "BTC"]%string "BTC") /\
  forall other, other <> "BTC"%string ->
                Dashboard.includes after other
                = Dashboard.includes ["BTC"; "ETH"; "BTC"]%string other.
Proof.
  apply (toggleWatchlist_flips (Sample.env unit 0) ["BTC"; "ETH"; "BTC"]%string
           "BTC" ["row_1"]%string 0).
  intros n. reflexivity.
Defined.

Lemma toggleWatchlist_cases {A} (env : Env A) (user : bool) (watchlist : list string)
      (symbol : string) (existing : list string) (t : nat) :
  let after := fst (fst (Dashboard.toggleWatchlist env user watchlist symbol existing t)) in
  after = watchlist \/
  (Dashboard.includes watchlist symbol = true /\
   after = filter (fun s => negb (String.eqb s symbol)) watchlist) \/
  (Dashboard.includes watchlist symbol = false /\ after = (watchlist ++ [symbol])%list).
Proof.
  cbv zeta. unfold Dashboard.toggleWatchlist.
  destruct (negb user); [now left |].
  destruct (Dashboard.includes watchlist symbol) eqn:Hin.
  - destruct (negb (dbOk env t)); [now left |].
    destruct existing as [| rowId rest]; [right; left; auto |].
    destruct (negb (dbOk env (t + 1))); [now left | right; left; auto].
  - destruct (negb (dbOk env (t + 1))); [now left | right; right; auto].
Qed.

(** X21: the watchlist never acquires a duplicate.  Whatever the store
    answers, toggling a symbol on a watchlist without duplicates gives a
    watchlist without duplicates. *)
Theorem toggleWatchlist_no_duplicates {A} (env : Env A) (user : bool)
        (watchlist : list string) (symbol : string) (existing : list string) (t : nat) :
  NoDup watchlist ->
  NoDup (fst (fst (Dashboard.toggleWatchlist env user watchlist symbol existing t))).
Proof.
  intros Hnd.
  destruct (toggleWatchlist_cases env user watchlist symbol existing t)
    as [-> | [[_ ->] | [Hin ->]]].
  - exact Hnd.
  - now apply NoDup_filter.
  - apply NoDup_app; [exact Hnd | repeat constructor; intros [] |].
    intros x Hx [<- | []].
    apply includes_true_iff in Hx. congruence.
Qed.

Lemma toggleWatchlist_no_duplicates_witness :
  NoDup (fst (fst (Dashboard.toggleWatchlist (Sample.env unit 0) true
                     ["BTC"; "ETH"]%string "SOL" [] 0))).
Proof.
  apply (toggleWatchlist_no_duplicates (Sample.env unit 0) true
           ["BTC"; "ETH"]%string "SOL" [] 0).
  repeat constructor; cbn; intuition discriminate.
Defined.

(** X22: adding and removing cancel out.  While the store accepts its
    writes, toggling an unwatched symbol twice gives back exactly the
    watchlist one started from. *)
Theorem toggleWatchlist_twice {A} (env : Env A) (watchlist : list string)
        (symbol : string) (existing existing' : list string) (t t' : nat) :
  (forall n, dbOk env n = true) ->
  ~ In symbol watchlist ->
  let once := fst (fst (Dashboard.toggleWatchlist env true watchlist symbol existing t)) in
  fst (fst (Dashboard.toggleWatchlist env true once symbol existing' t')) = watchlist.
Proof.
  intros Hok Hnotin. cbv zeta.
  assert (Hin : Dashboard.includes watchlist symbol = false).
  { apply not_true_iff_false. now rewrite includes_true_iff. }
  unfold Dashboard.toggleWatchlist at 2. cbn [negb]. rewrite Hin, !Hok. cbn [negb fst].
  unfold Dashboard.toggleWatchlist. cbn [negb].
  rewrite includes_app, String.eqb_refl, orb_true_r, !Hok. cbn [negb].
  assert (Hfilter : filter (fun s => negb (String.eqb s symbol)) (watchlist ++ [symbol])
                    = watchlist).
  { rewrite filter_app. cbn. rewrite String.eqb_refl. cbn. rewrite app_nil_r.
    apply forallb_filter_id. apply forallb_forall. intros x Hx.
    apply negb_true_iff, String.eqb_neq. intros ->. contradiction. }
  destruct existing'; cbn [fst]; exact Hfilter.
Qed.

Lemma toggleWatchlist_twice_witness :
  fst (fst (Dashboard.toggleWatchlist (Sample.env unit 0) true
              (fst (fst (Dashboard.toggleWatchlist (Sample.env unit 0) true
                           ["BTC"; "ETH"]%string "SOL" [] 0)))
              "SOL" ["row_9"]%string 2))
  = ["BTC"; "ETH"]%string.
Proof.
  apply (toggleWatchlist_twice (Sample.env unit 0) ["BTC"; "ETH"]%string "SOL"
           [] ["row_9"]%string 0 2).
  - intros n. reflexivity.
  - cbn. intuition discriminate.
Defined.

(** X23: the view model does not change the verdict.  A record of the
    market-data service, mapped to the view model by [loadCryptos] and
    mapped back for the classifier by either minting step, gets the same
    kind, strength, confidence and reasoning as the record itself. *)
Theorem classification_survives_view_model (crypto : CryptoApi.CoinGeckoMarket) (rank : Q) :
  CryptoApi.generateTechnicalSignal (Crypto.toMarket rank (Dashboard.transformMarket crypto))
  = CryptoApi.generateTechnicalSignal crypto.
Proof.
  unfold CryptoApi.generateTechnicalSignal, Crypto.toMarket, Dashboard.transformMarket.
  cbn. reflexivity.
Qed.

(** ** The browse tab *)

Lemma filter_filter_andb {X} (f g : X -> bool) (l : list X) :
  filter g (filter f l) = filter (fun x => f x && g x) l.
Proof.
  induction l as [| x l IH]; [reflexivity |]. cbn.
  destruct (f x); cbn; [destruct (g x) |]; now rewrite IH.
Qed.

Lemma filter_true {X} (l : list X) : filter (fun _ => true) l = l.
Proof. induction l as [| x l IH]; [reflexivity |]. cbn. now rewrite IH. Qed.

Lemma StronglySorted_impl {X} (R R' : X -> X -> Prop) (l : list X) :
  (forall a b, R a b -> R' a b) -> StronglySorted R l -> StronglySorted R' l.
Proof.
  intros Himpl Hs. induction Hs; constructor; [assumption |].
  eapply Forall_impl; [| eassumption]. auto.
Qed.

(** X24: the browse tab shows exactly the snapshots that pass the search
    box and the category filter, each as often as it occurs in the loaded
    list, in the order the sort selectors ask for.  A search box holding
    only white space filters nothing. *)
Theorem filterAndSort_shows_matches (cryptos : list CryptoBrowser.Cryptocurrency)
        (searchQuery : string) (sortBy : CryptoBrowser.SortBy)
        (sortOrder : CryptoBrowser.SortOrder) (filterBy : CryptoBrowser.FilterBy)
        (watched : list string) :
  let shown := CryptoBrowser.filterAndSort cryptos searchQuery sortBy sortOrder
                 filterBy watched in
  Permutation shown (filter (passesFilters searchQuery filterBy watched) cryptos) /\
  StronglySorted (inOrder sortBy sortOrder) shown.
Proof.
  cbv zeta. unfold CryptoBrowser.filterAndSort. cbv zeta. split.
  - rewrite sort_perm. apply Permutation_refl'.
    unfold passesFilters.
    destruct (Js.truthyString (Js.trim searchQuery)); destruct filterBy;
      rewrite ?filter_filter_andb;
      first [ apply filter_ext; intros c; cbn; now rewrite ?andb_true_r
            | rewrite <- (filter_true cryptos) at 1; apply filter_ext; intros c;
              reflexivity ].
  - assert (Hbefore : forall a b,
      before (CryptoBrowser.compareFn sortBy sortOrder) a b <-> inOrder sortBy sortOrder a b).
    { intros a b. unfold before, inOrder, CryptoBrowser.compareFn. cbv zeta.
      destruct sortOrder; apply sub_le_0. }
    eapply StronglySorted_impl; [| apply sort_sorted].
    + intros a b. apply Hbefore.
    + intros a b. rewrite !Hbefore. unfold inOrder.
      destruct sortOrder;
        destruct (Qlt_le_dec (CryptoBrowser.sortValue sortBy a)
                             (CryptoBrowser.sortValue sortBy b));
        [left | right | right | left]; lra.
    + intros a b c. rewrite !Hbefore. unfold inOrder. destruct sortOrder; lra.
Qed.

Lemma firstn_plus {X} (n m : nat) (l : list X) :
  firstn (n + m) l = (firstn n l ++ firstn m (skipn n l))%list.
Proof.
  revert l. induction n as [| n IH]; intros l; [reflexivity |].
  destruct l as [| x l]; cbn; [now rewrite firstn_nil | now rewrite IH].
Qed.

Lemma pages_concat (l : list CryptoBrowser.Cryptocurrency) (k : nat) :
  concat (map (fun page => CryptoBrowser.getCurrentPageItems page l) (seq 1 k))
  = firstn (k * CryptoBrowser.itemsPerPage) l.
Proof.
  induction k as [| k IH]; [reflexivity |].
  rewrite seq_S, map_app, concat_app, IH. cbn [map concat].
  unfold CryptoBrowser.getCurrentPageItems. cbv zeta. rewrite app_nil_r.
  replace (1 + k - 1)%nat with k by lia.
  replace (S k * CryptoBrowser.itemsPerPage)%nat
    with (k * CryptoBrowser.itemsPerPage + CryptoBrowser.itemsPerPage)%nat by lia.
  now rewrite firstn_plus.
Qed.

(** X25: paging loses nothing and repeats nothing.  The pages 1 to
    [totalPages], one after the other, are exactly the filtered list; every
    page of that range holds between 1 and 20 items, and every later page
    is empty. *)
Theorem pages_partition (filtered : list CryptoBrowser.Cryptocurrency) :
  concat (map (fun page => CryptoBrowser.getCurrentPageItems page filtered)
              (seq 1 (CryptoBrowser.totalPages filtered)))
  = filtered /\
  (forall page, (1 <= page <= CryptoBrowser.totalPages filtered)%nat ->
     (1 <= length (CryptoBrowser.getCurrentPageItems page filtered) <= 20)%nat) /\
  (forall page, (CryptoBrowser.totalPages filtered < page)%nat ->
     CryptoBrowser.getCurrentPageItems page filtered = []).
Proof.
  unfold CryptoBrowser.totalPages, CryptoBrowser.itemsPerPage.
  assert (Hdiv : ((length filtered + (20 - 1)) / 20 * 20 <= length filtered + 19 /\
                  length filtered + 19 < (length filtered + (20 - 1)) / 20 * 20 + 20)%nat).
  { pose proof (Nat.div_mod_eq (length filtered + (20 - 1)) 20).
    pose proof (Nat.mod_upper_bound (length filtered + (20 - 1)) 20). lia. }
  repeat split.
  - rewrite pages_concat. unfold CryptoBrowser.itemsPerPage.
    apply firstn_all2. lia.
  - unfold CryptoBrowser.getCurrentPageItems, CryptoBrowser.itemsPerPage. cbv zeta.
    rewrite length_firstn, length_skipn. lia.
  - unfold CryptoBrowser.getCurrentPageItems, CryptoBrowser.itemsPerPage. cbv zeta.
    rewrite length_firstn. lia.
  - intros page Hpage.
    unfold CryptoBrowser.getCurrentPageItems, CryptoBrowser.itemsPerPage. cbv zeta.
    rewrite skipn_all2 by lia. apply firstn_nil.
Qed.

Lemma pages_partition_witness :
  (1 <= length (CryptoBrowser.getCurrentPageItems 2
                  (repeat (Sample.coin "BTC" 1 1) 25)) <= 20)%nat.
Proof.
  apply (proj1 (proj2 (pages_partition (repeat (Sample.coin "BTC" 1 1) 25))) 2%nat).
  cbn. lia.
Defined.

Lemma map_add_seq (a n : nat) : map (fun i => (a + i)%nat) (seq 0 n) = seq a n.
Proof.
  revert a. induction n as [| n IH]; intros a; [reflexivity |].
  cbn [seq map]. rewrite Nat.add_0_r. f_equal.
  rewrite <- seq_shift, map_map, <- (IH (S a)).
  apply map_ext. intros i. lia.
Qed.

(** X26: the page buttons.  On a valid page the buttons show
    [min 5 totalPages] consecutive page numbers, all between 1 and
    [totalPages], and the current page is one of them. *)
Theorem pageButtons_window (currentPage totalPages : nat) :
  (1 <= currentPage <= totalPages)%nat ->
  exists first,
    CryptoBrowser.pageButtons currentPage totalPages
    = seq first (Nat.min 5 totalPages) /\
    (1 <= first)%nat /\
    (first + Nat.min 5 totalPages <= totalPages + 1)%nat /\
    (first <= currentPage < first + Nat.min 5 totalPages)%nat.
Proof.
  intros Hpage. unfold CryptoBrowser.pageButtons, CryptoBrowser.pageNum.
  destruct (Nat.leb totalPages 5) eqn:Hfew;
    [| destruct (Nat.leb currentPage 3) eqn:Hlow;
       [| destruct (Nat.leb (totalPages - 2) currentPage) eqn:Hhigh]].
  all: rewrite ?Nat.leb_le, ?Nat.leb_gt in *.
  - exists 1%nat. split; [| lia].
    rewrite <- (map_add_seq 1). apply map_ext. intros i. lia.
  - exists 1%nat. split; [| lia].
    rewrite <- (map_add_seq 1). apply map_ext. intros i. lia.
  - exists (totalPages - 4)%nat. split; [| lia]. apply map_add_seq.
  - exists (currentPage - 2)%nat. split; [| lia]. apply map_add_seq.
Qed.

Lemma pageButtons_window_witness :
  exists first,
    CryptoBrowser.pageButtons 7 13 = seq first (Nat.min 5 13) /\
    (1 <= first)%nat /\
    (first + Nat.min 5 13 <= 13 + 1)%nat /\
    (first <= 7 < first + Nat.min 5 13)%nat.
Proof. apply (pageButtons_window 7 13). lia. Defined.

(** X27: the line "Showing a-b of n" counts the page.  On a valid page the
    range from [startItem] to [endItem] has as many numbers as the page has
    items, and it ends within the list. *)
Theorem showing_range_matches_page (currentPage : nat)
        (filtered : list CryptoBrowser.Cryptocurrency) :
  (1 <= currentPage <= CryptoBrowser.totalPages filtered)%nat ->
  (CryptoBrowser.startItem currentPage
     + length (CryptoBrowser.getCurrentPageItems currentPage filtered)
   = CryptoBrowser.endItem currentPage (length filtered) + 1)%nat /\
  (CryptoBrowser.endItem currentPage (length filtered) <= length filtered)%nat.
Proof.
  unfold CryptoBrowser.totalPages, CryptoBrowser.startItem, CryptoBrowser.endItem,
    CryptoBrowser.getCurrentPageItems, CryptoBrowser.itemsPerPage.
  cbv zeta. intros Hpage.
  assert (Hdiv : ((length filtered + (20 - 1)) / 20 * 20 <= length filtered + 19)%nat).
  { pose proof (Nat.div_mod_eq (length filtered + (20 - 1)) 20). lia. }
  rewrite length_firstn, length_skipn. lia.
Qed.

Lemma showing_range_matches_page_witness :
  (CryptoBrowser.startItem 2
     + length (CryptoBrowser.getCurrentPageItems 2 (repeat (Sample.coin "BTC" 1 1) 25))
   = CryptoBrowser.endItem 2 (length (repeat (Sample.coin "BTC" 1 1) 25)) + 1)%nat /\
  (CryptoBrowser.endItem 2 (length (repeat (Sample.coin "BTC" 1 1) 25))
   <= length (repeat (Sample.coin "BTC" 1 1) 25))%nat.
Proof.
  apply (showing_range_matches_page 2 (repeat (Sample.coin "BTC" 1 1) 25)). cbn. lia.
Defined.

(** ** Minting and reticking together *)

(** A product with a factor above 1 (below 1) by more than the rounding
    error is above (below) the number multiplied. *)
Lemma mul_above (e f c : Q) :
  0 < e -> 0 <= c -> c <= f -> 1 < c * (1 - Js.exp2 (-53)) -> e < (e * f)%js.
Proof.
  intros He Hc Hf Hmargin. pose proof (exp2_pos (-53)) as Heps.
  assert (Heps1 : Js.exp2 (-53) < 1) by (vm_compute; reflexivity).
  set (eps := Js.exp2 (-53)) in *.
  assert (Hef : 0 <= e * f) by (apply Qmult_le_0_compat; lra).
  destruct (round_near (e * f) Hef) as [Hlo _]. fold eps in Hlo.
  assert (H1 : 0 <= e * (1 - eps) * (f - c))
    by (repeat apply Qmult_le_0_compat; lra).
  assert (H2 : 0 < e * (c * (1 - eps) - 1)) by (apply Qmult_lt_0_compat; lra).
  unfold Js.mul. lra.
Qed.

Lemma mul_below (e f c : Q) :
  0 < e -> 0 <= f -> f <= c -> c * (1 + Js.exp2 (-53)) < 1 -> (e * f)%js < e.
Proof.
  intros He Hf Hc Hmargin. pose proof (exp2_pos (-53)) as Heps.
  set (eps := Js.exp2 (-53)) in *.
  assert (Hef : 0 <= e * f) by (apply Qmult_le_0_compat; lra).
  destruct (round_near (e * f) Hef) as [_ Hhi]. fold eps in Hhi.
  assert (H1 : 0 <= e * (1 + eps) * (c - f))
    by (repeat apply Qmult_le_0_compat; lra).
  assert (H2 : 0 < e * (1 - c * (1 + eps))) by (apply Qmult_lt_0_compat; lra).
  unfold Js.mul. lra.
Qed.

Lemma performance_at_entry (e : Q) : (((e - e) / e) * 100)%js == 0.
Proof.
  unfold Js.mul, Js.div, Js.sub.
  rewrite (round_zero (e - e)) by ring.
  rewrite (round_zero (0 / e)) by (unfold Qdiv; ring).
  rewrite round_zero by ring. reflexivity.
Qed.

(** X28: a freshly minted live signal does not close on the snapshot it was
    minted from.  With every draw in [0,1), a signal minted at a positive
    price and evaluated at that same price is still open, and its
    performance is 0. *)
Theorem minted_signal_opens_inside_its_bounds {A} (env : Env A) (user : bool)
        (cryptos : list Crypto.Cryptocurrency) (signals : list LiveSignalFeed.LiveSignal)
        (st : Eff) :
  (forall n, 0 <= random env n /\ random env n < 1) ->
  Forall (fun s =>
            0 < LiveSignalFeed.currentPrice s ->
            LiveSignalFeed.statusOf s (LiveSignalFeed.currentPrice s)
              = LiveSignalFeed.active /\
            LiveSignalFeed.performanceOf s (LiveSignalFeed.currentPrice s) == 0)
         (fst (fst (LiveSignalFeed.generateNewSignals env user cryptos signals st))).
Proof.
  intros Hdraw.
  assert (Habove : forall e n c d,
    0 < e -> 0 <= c ->
    0 <= (1 + 0 * c + d)%js ->
    1 < (1 + 0 * c + d)%js * (1 - Js.exp2 (-53)) ->
    e < (e * (1 + random env n * c + d))%js).
  { intros e n c d He Hc Hlo Hmargin. destruct (Hdraw n) as [H0 H1].
    destruct (factor_up (random env n) c d H0 ltac:(lra) Hc) as [Hf _].
    exact (mul_above e _ _ He Hlo Hf Hmargin). }
  assert (Hbelow : forall e n c d,
    0 < e -> 0 <= c ->
    0 <= (1 - 1 * c - d)%js ->
    (1 - 0 * c - d)%js * (1 + Js.exp2 (-53)) < 1 ->
    (e * (1 - random env n * c - d))%js < e).
  { intros e n c d He Hc Hlo Hmargin. destruct (Hdraw n) as [H0 H1].
    destruct (factor_down (random env n) c d H0 ltac:(lra) Hc) as [Hf0 Hf1].
    apply (mul_below e _ (1 - 0 * c - d)%js He); [lra | exact Hf1 | exact Hmargin]. }
  apply generateNewSignals_all. intros crypto st0. cbv zeta. intros Hkind.
  set (ts := CryptoApi.generateTechnicalSignal (Crypto.toMarket 1 crypto)) in *.
  unfold LiveSignalFeed.statusOf, LiveSignalFeed.performanceOf, LiveSignalFeed.isKind.
  cbn [LiveSignalFeed.mintOne LiveSignalFeed.signalType LiveSignalFeed.currentPrice
       LiveSignalFeed.targetPrice LiveSignalFeed.stopLoss LiveSignalFeed.compareTo].
  intros He.
  set (e := Crypto.currentPrice crypto) in *.
  destruct (CryptoApi.signal ts); [| | congruence];
    cbn [LiveSignalFeed.targetFor LiveSignalFeed.stopLossFor].
  - assert (Ht : Js.geb e (e * (1 + random env (tick st0) * Js.num 0.12 + Js.num 0.03))%js
                 = false).
    { apply not_true_iff_false. rewrite geb_true_iff. apply Qlt_not_le.
      apply Habove; first [exact He | vm_compute; discriminate | vm_compute; reflexivity]. }
    assert (Hl : Js.leb e (e * (1 - random env (tick st0 + 1) * Js.num 0.06 - Js.num 0.02))%js
                 = false).
    { apply not_true_iff_false. rewrite leb_true_iff. apply Qlt_not_le.
      apply Hbelow; first [exact He | vm_compute; discriminate | vm_compute; reflexivity]. }
    rewrite Ht, Hl, !andb_false_r. split; [reflexivity | apply performance_at_entry].
  - assert (Ht : Js.leb e (e * (1 - random env (tick st0) * Js.num 0.12 - Js.num 0.03))%js
                 = false).
    { apply not_true_iff_false. rewrite leb_true_iff. apply Qlt_not_le.
      apply Hbelow; first [exact He | vm_compute; discriminate | vm_compute; reflexivity]. }
    assert (Hl : Js.geb e (e * (1 + random env (tick st0 + 1) * Js.num 0.06 + Js.num 0.02))%js
                 = false).
    { apply not_true_iff_false. rewrite geb_true_iff. apply Qlt_not_le.
      apply Habove; first [exact He | vm_compute; discriminate | vm_compute; reflexivity]. }
    rewrite Ht, Hl, !andb_false_r. split; [reflexivity |].
    assert (E : forall x, (((x - x) / x) * 100)%js == 0) by apply performance_at_entry.
    apply E.
Qed.

Lemma minted_signal_opens_inside_its_bounds_witness :
  Forall (fun s =>
            0 < LiveSignalFeed.currentPrice s ->
            LiveSignalFeed.statusOf s (LiveSignalFeed.currentPrice s)
              = LiveSignalFeed.active /\
            LiveSignalFeed.performanceOf s (LiveSignalFeed.currentPrice s) == 0)
         (fst (fst (LiveSignalFeed.generateNewSignals (Sample.env unit (1 # 2)) true
                      [Sample.crypto "BTC" 100 6 20 100] [] Sample.start))).
Proof.
  apply (minted_signal_opens_inside_its_bounds (Sample.env unit (1 # 2)) true
           [Sample.crypto "BTC" 100 6 20 100] [] Sample.start).
  intros n. cbn. split; [discriminate | reflexivity].
Defined.

(** ** More on the classifier *)

(** X29: the direction of a signal depends on the 24h change alone.  The
    classifier says BUY exactly above +2%, SELL exactly below -2% and HOLD
    in between, whatever the volume and the market cap; these only decide
    the strength: STRONG needs a move beyond 5% on a volume above the
    product marketCap * 0.1 as the code computes it.  The confidence is
    between 60 and 85. *)
Theorem kind_depends_on_change_only (crypto : CryptoApi.CoinGeckoMarket) :
  let pct := CryptoApi.price_change_percentage_24h crypto in
  let verdict := CryptoApi.generateTechnicalSignal crypto in
  (CryptoApi.signal verdict = CryptoApi.BUY <-> 2 < pct) /\
  (CryptoApi.signal verdict = CryptoApi.SELL <-> pct < -2) /\
  (CryptoApi.signal verdict = CryptoApi.HOLD <-> -2 <= pct /\ pct <= 2) /\
  (CryptoApi.strength verdict = CryptoApi.STRONG <->
   5 < Qabs pct /\
   (CryptoApi.market_cap crypto * Js.num 0.1)%js < CryptoApi.total_volume crypto) /\
  (60 <= CryptoApi.confidence verdict <= 85)%Z.
Proof.
  cbv zeta. unfold CryptoApi.generateTechnicalSignal. cbv zeta.
  set (p := CryptoApi.price_change_percentage_24h crypto).
  set (v := CryptoApi.total_volume crypto).
  set (m := CryptoApi.market_cap crypto).
  assert (Habs : forall q, (5 < Qabs q <-> 5 < q \/ q < -5)).
  { intros q. destruct (Qlt_le_dec q 0) as [Hq | Hq].
    - rewrite (Qabs_neg q) by lra. split; [intros; right | intros [|]]; lra.
    - rewrite (Qabs_pos q) by lra. split; [intros; left | intros [|]]; lra. }
  destruct (Js.gtb v (m * Js.num 0.1)%js) eqn:Evol.
  all: destruct (Js.gtb p 5) eqn:E5; cbn [andb].
  all: try destruct (Js.gtb p 2) eqn:E2.
  all: try destruct (Js.ltb p (-5)) eqn:E5'; cbn [andb].
  all: try destruct (Js.ltb p (-2)) eqn:E2'.
  all: try destruct (Js.gtb (Qabs p) 1) eqn:E1.
  all: rewrite ?gtb_true_iff, ?gtb_false_iff, ?ltb_true_iff, ?ltb_false_iff in *.
  all: cbn [CryptoApi.signal CryptoApi.strength CryptoApi.confidence].
  all: rewrite Habs.
  all: repeat split; intros; try discriminate; try lia; try lra.
  all: try (exfalso; intuition lra).
  all: try (intuition lra).
Qed.

(** ** Worked examples *)

(** A snapshot that gained 6% on a volume of a fifth of its market cap, at
    price 100, minted with both draws at 1/2 and reticked at 116: one
    BUY/STRONG signal entered at 100 with target 109.00000000000001 and
    stop-loss 95, closed by the pass with performance 16. *)
Example end_to_end :
  let env := Sample.env unit (1 # 2) in
  let cryptos := [Sample.crypto "BTC" 100 6 20 100] in
  let minted := fst (fst (LiveSignalFeed.generateNewSignals env true cryptos []
                            Sample.start)) in
  let after := fst (LiveSignalFeed.updateSignalPerformance env true minted
                      (Sample.btcAt 116) Sample.start) in
  map LiveSignalFeed.signalType minted = [CryptoApi.BUY] /\
  map LiveSignalFeed.strength minted = [CryptoApi.STRONG] /\
  map LiveSignalFeed.currentPrice minted = [100] /\
  map LiveSignalFeed.targetPrice minted = [Some (Js.num 109.00000000000001)] /\
  map LiveSignalFeed.stopLoss minted = [Some 95] /\
  map LiveSignalFeed.isActive after = [false] /\
  map LiveSignalFeed.performancePercentage after = [16].
Proof. vm_compute. repeat split. Qed.

(** The built-in sample, classified: only Solana (+2.93%) is not a HOLD. *)
Example fallback_classified :
  map (fun c => CryptoApi.signal (CryptoApi.generateTechnicalSignal c))
      (fst (CryptoApi.getFallbackData (Sample.env unit 0) Sample.start))
  = [CryptoApi.HOLD; CryptoApi.HOLD; CryptoApi.HOLD; CryptoApi.BUY; CryptoApi.HOLD].
Proof. vm_compute. reflexivity. Qed.

Example reasoning_text :
  CryptoApi.reasoning (CryptoApi.generateTechnicalSignal (Sample.market (-(731 # 100)) 20 100))
  = "Significant bearish pressure with 7.31% decline and high volume. Risk of further downside."%string.
Proof. vm_compute. reflexivity. Qed.

Example toFixed2_pos : Js.toFixed2 (293 # 100) = "2.93"%string.
Proof. reflexivity. Qed.
Example toFixed2_neg : Js.toFixed2 (-(1 # 1000)) = "-0.00"%string.
Proof. reflexivity. Qed.
Example toFixed2_pad : Js.toFixed2 (1205 # 100) = "12.05"%string.
Proof. reflexivity. Qed.
Example toFixed2_tie : Js.toFixed2 (5 # 1000) = "0.01"%string.
Proof. reflexivity. Qed.

(** The factors of the sizing ranges, as doubles. *)
Example live_factors :
  (1 + Js.num 0.03)%js = Js.num 1.03 /\
  (1 + Js.num 0.12 + Js.num 0.03)%js = Js.num 1.1500000000000001 /\
  (1 - Js.num 0.06 - Js.num 0.02)%js = Js.num 0.9199999999999999 /\
  (1 - Js.num 0.02)%js = Js.num 0.98 /\
  (1 - Js.num 0.12 - Js.num 0.03)%js = Js.num 0.85 /\
  (1 - Js.num 0.03)%js = Js.num 0.97 /\
  (1 + Js.num 0.02)%js = Js.num 1.02 /\
  (1 + Js.num 0.06 + Js.num 0.02)%js = Js.num 1.08.
Proof. vm_compute. repeat split. Qed.

Example dashboard_factors :
  (1 + Js.num 0.05)%js = Js.num 1.05 /\
  (1 + Js.num 0.15 + Js.num 0.05)%js = Js.num 1.2 /\
  (1 - Js.num 0.08 - Js.num 0.02)%js = Js.num 0.9 /\
  (1 - Js.num 0.15 - Js.num 0.05)%js = Js.num 0.7999999999999999 /\
  (1 - Js.num 0.05)%js = Js.num 0.95 /\
  (1 + Js.num 0.08 + Js.num 0.02)%js = Js.num 1.1.
Proof. vm_compute. repeat split. Qed.

(** *** The rounding, checked against the kernel's binary64 arithmetic *)

#[warnings="-inexact-float"]
Example binary64_literals :
  Js.num 0.1 = Binary64.toQ 0.1 /\
  Js.num 1.05 = Binary64.toQ 1.05 /\
  Js.num 11113281569.900002 = Binary64.toQ 11113281569.900002 /\
  Js.num (-37.4) = Binary64.toQ (-37.4).
Proof. vm_compute. repeat split. Qed.

#[warnings="-inexact-float"]
Example binary64_products :
  (3 * Js.num 0.1)%js = Binary64.toQ (3 * 0.1) /\
  (111132815699 * Js.num 0.1)%js = Binary64.toQ (111132815699 * 0.1) /\
  (72000863748 * Js.num 0.1)%js = Binary64.toQ (72000863748 * 0.1) /\
  (Js.num 98.5 * Js.num 1.03)%js = Binary64.toQ (98.5 * 1.03) /\
  (20 * Js.num 1.15)%js = Binary64.toQ (20 * 1.15).
Proof. vm_compute. repeat split. Qed.

#[warnings="-inexact-float"]
Example binary64_sums :
  (Js.num 0.1 + Js.num 0.1 + Js.num 0.1)%js = Binary64.toQ (0.1 + 0.1 + 0.1) /\
  (1 + Js.num 0.12 + Js.num 0.03)%js = Binary64.toQ (1 + 0.12 + 0.03) /\
  (1 - Js.num 0.06 - Js.num 0.02)%js = Binary64.toQ (1 - 0.06 - 0.02) /\
  (100 - 100 / (1 + Js.num 0.5))%js = Binary64.toQ (100 - 100 / (1 + 0.5)).
Proof. vm_compute. repeat split. Qed.

#[warnings="-inexact-float"]
Example binary64_quotients :
  (1 / 3)%js = Binary64.toQ (1 / 3) /\
  ((Js.num 0.1 + Js.num 0.1 + Js.num 0.1) / 3)%js = Binary64.toQ ((0.1 + 0.1 + 0.1) / 3) /\
  ((121 - 110) / 110 * 100)%js = Binary64.toQ ((121 - 110) / 110 * 100) /\
  ((Js.num 43250.5 - 43000) / 43000 * 100)%js
    = Binary64.toQ ((43250.5 - 43000) / 43000 * 100).
Proof. vm_compute. repeat split. Qed.
